(** * iblai-mcp / mcp-creator: the HAR parser and the MCP generator

    A shallow embedding of [mcp-creator/har_parser.py],
    [mcp-creator/mcp_generator.py] and [mcp-creator/cli.py], and the
    properties of the inference pipeline: record classification, path
    normalisation, authentication masking, endpoint aggregation,
    response truncation, service identity and the command's exit codes.

    Python [str] values are modelled as [string] (ASCII text: URLs and
    header names are ASCII on the wire); Python dictionaries whose
    iteration order the program relies on are association lists in
    insertion order; Python sets are lists of distinct elements whose
    iteration order is left to the runtime. *)

From Stdlib Require Import Ascii String ZArith Lia.
From stdpp Require Import base option list strings pretty gmap.

Set Warnings "-register-all".
Local Open Scope string_scope.
Local Open Scope list_scope.

(** ** Python string operations *)

Module PyStr.

Definition dq : string := String "034" "".
Definition nl : string := String "010" "".

Definition is_digit (c : ascii) : bool :=
  let n := nat_of_ascii c in ((48 <=? n) && (n <=? 57))%nat.
Definition is_upper (c : ascii) : bool :=
  let n := nat_of_ascii c in ((65 <=? n) && (n <=? 90))%nat.
Definition is_lower (c : ascii) : bool :=
  let n := nat_of_ascii c in ((97 <=? n) && (n <=? 122))%nat.
Definition is_alpha (c : ascii) : bool := is_upper c || is_lower c.
Definition is_alnum (c : ascii) : bool := is_alpha c || is_digit c.
(** [\w] *)
Definition is_word (c : ascii) : bool := is_alnum c || Ascii.eqb c "_".
(** [[0-9a-f]] under [re.IGNORECASE] *)
Definition is_hex (c : ascii) : bool :=
  let n := nat_of_ascii c in
  is_digit c || ((97 <=? n) && (n <=? 102))%nat || ((65 <=? n) && (n <=? 70))%nat.

Definition lower_char (c : ascii) : ascii :=
  if is_upper c then ascii_of_nat (nat_of_ascii c + 32) else c.
Definition upper_char (c : ascii) : ascii :=
  if is_lower c then ascii_of_nat (nat_of_ascii c - 32) else c.

(** [s.lower()], [s.upper()] on ASCII text: a character outside ASCII is
    left as it is, where the runtime may map it. *)
Fixpoint lower (s : string) : string :=
  match s with
  | "" => ""
  | String c s' => String (lower_char c) (lower s')
  end.
Fixpoint upper (s : string) : string :=
  match s with
  | "" => ""
  | String c s' => String (upper_char c) (upper s')
  end.

(** [s.startswith(p)] *)
Definition startswith (s p : string) : bool := String.prefix p s.

(** [s[:n]] and [s[n:]] for [n >= 0]; both clamp at the end of [s]. *)
Fixpoint str_take (n : nat) (s : string) : string :=
  match n, s with
  | S k, String c s' => String c (str_take k s')
  | _, _ => ""
  end.
Fixpoint str_drop (n : nat) (s : string) : string :=
  match n, s with
  | S k, String _ s' => str_drop k s'
  | _, _ => s
  end.

(** [s.endswith(suf)] *)
Definition endswith (s suf : string) : bool :=
  (String.length suf <=? String.length s)%nat &&
  String.eqb (str_drop (String.length s - String.length suf) s) suf.

(** [sub in s] *)
Fixpoint contains (sub s : string) : bool :=
  String.prefix sub s ||
  match s with
  | "" => false
  | String _ s' => contains sub s'
  end.

(** [s.replace(old, new)] for a non-empty [old]: every occurrence,
    left to right, without overlap.  [skip] counts the characters of
    an occurrence still to be passed over. *)
Fixpoint replace_go (old new : string) (skip : nat) (s : string) : string :=
  match s with
  | "" => ""
  | String c s' =>
      match skip with
      | S k => replace_go old new k s'
      | 0 =>
          if String.prefix old s
          then new +:+ replace_go old new (String.length old - 1) s'
          else String c (replace_go old new 0 s')
      end
  end.
Definition replace (old new s : string) : string := replace_go old new 0 s.

(** [s.lstrip(c)], [s.rstrip(c)], [s.strip(c)] for a one-character set *)
Fixpoint lstrip (c : ascii) (s : string) : string :=
  match s with
  | String d s' => if Ascii.eqb c d then lstrip c s' else s
  | "" => ""
  end.
Fixpoint rstrip (c : ascii) (s : string) : string :=
  match s with
  | "" => ""
  | String d s' =>
      match rstrip c s' with
      | "" => if Ascii.eqb c d then "" else String d ""
      | r => String d r
      end
  end.
Definition strip (c : ascii) (s : string) : string := rstrip c (lstrip c s).

(** [sep.join(l)] *)
Definition join (sep : string) (l : list string) : string := String.concat sep l.

(** The longest prefix of characters in a class, and what follows it. *)
Fixpoint span (p : ascii -> bool) (s : string) : string * string :=
  match s with
  | "" => ("", "")
  | String c s' =>
      if p c then let '(a, b) := span p s' in (String c a, b) else ("", s)
  end.

(** [str(i)] for a non-negative integer *)
Definition of_nat (n : nat) : string := pretty n.

End PyStr.

(** ** JSON values, as [json.loads] returns them *)

Inductive json : Type :=
| JNull
| JBool (b : bool)
| JInt (n : Z)
| JFloat (bits : Z)
| JStr (s : string)
| JList (l : list json)
| JDict (items : list (string * json)).

(** ** Regular expressions of the parser *)

Module Re.
Import PyStr.

(** A match object: [start()], [end()], [group(0)], [group(1)]. *)
Record Match := { m_start : nat; m_end : nat; group0 : string; group1 : string }.

Inductive atom := Lit (c : ascii) | Hex.

(** [/([0-9a-f]{8}-[0-9a-f]{4}-[0-9a-f]{4}-[0-9a-f]{4}-[0-9a-f]{12})] *)
Definition uuid_pattern : list atom :=
  [Lit "/"] ++ repeat Hex 8 ++ [Lit "-"] ++ repeat Hex 4 ++ [Lit "-"] ++
  repeat Hex 4 ++ [Lit "-"] ++ repeat Hex 4 ++ [Lit "-"] ++ repeat Hex 12.

Definition atom_matches (a : atom) (c : ascii) : bool :=
  match a with
  | Lit d => Ascii.eqb d c
  | Hex => is_hex c
  end.

(** The text a sequence of one-character atoms matches at the head of [s]. *)
Fixpoint match_atoms (p : list atom) (s : string) : option string :=
  match p with
  | [] => Some ""
  | a :: p' =>
      match s with
      | "" => None
      | String c s' =>
          if atom_matches a c
          then match match_atoms p' s' with
               | Some t => Some (String c t)
               | None => None
               end
          else None
      end
  end.

(** [re.finditer(uuid_pattern, s, re.IGNORECASE)] *)
Fixpoint finditer_uuid_go (pos skip : nat) (s : string) : list Match :=
  match s with
  | "" => []
  | String _ s' =>
      match skip with
      | S k => finditer_uuid_go (S pos) k s'
      | 0 =>
          match match_atoms uuid_pattern s with
          | Some t =>
              {| m_start := pos; m_end := pos + String.length t;
                 group0 := t; group1 := str_drop 1 t |}
              :: finditer_uuid_go (S pos) (String.length t - 1) s'
          | None => finditer_uuid_go (S pos) 0 s'
          end
      end
  end.
Definition finditer_uuid (s : string) : list Match := finditer_uuid_go 0 0 s.

(** [$] without [re.MULTILINE]: the end of the string, or just before
    a newline that ends it. *)
Definition at_dollar (s : string) : bool :=
  String.eqb s "" || String.eqb s nl.

(** [/(\d+)(?=/|$)] at the head of [s]: the digits of group 1.  The
    greedy [\d+] takes every digit; a shorter run is followed by a
    digit, where the lookahead fails. *)
Definition match_numeric (s : string) : option string :=
  match s with
  | String "/" rest =>
      let '(ds, after) := span is_digit rest in
      if negb (String.eqb ds "") && (startswith after "/" || at_dollar after)
      then Some ds else None
  | _ => None
  end.

(** [re.finditer(numeric_id_pattern, s)] *)
Fixpoint finditer_numeric_go (pos skip : nat) (s : string) : list Match :=
  match s with
  | "" => []
  | String _ s' =>
      match skip with
      | S k => finditer_numeric_go (S pos) k s'
      | 0 =>
          match match_numeric s with
          | Some ds =>
              {| m_start := pos; m_end := pos + 1 + String.length ds;
                 group0 := "/" +:+ ds; group1 := ds |}
              :: finditer_numeric_go (S pos) (String.length ds) s'
          | None => finditer_numeric_go (S pos) 0 s'
          end
      end
  end.
Definition finditer_numeric (s : string) : list Match := finditer_numeric_go 0 0 s.

End Re.

(** [enumerate(l)] *)
Definition enumerate {A} (l : list A) : list (nat * A) := zip (seq 0 (length l)) l.


Import PyStr Re.

(** [x in l] for strings *)
Definition str_in (x : string) (l : list string) : bool := existsb (String.eqb x) l.

(** ** Python dictionaries and sets

    A [dict] is the list of its items in insertion order; assigning to
    a key that is present keeps the key's position. *)

Section Dict.
Context {V : Type}.

Fixpoint dict_get (k : string) (d : list (string * V)) : option V :=
  match d with
  | [] => None
  | (k', v) :: d' => if String.eqb k k' then Some v else dict_get k d'
  end.

Fixpoint dict_set (k : string) (v : V) (d : list (string * V)) : list (string * V) :=
  match d with
  | [] => [(k, v)]
  | (k', v') :: d' =>
      if String.eqb k k' then (k', v) :: d' else (k', v') :: dict_set k v d'
  end.

Definition dict_values (d : list (string * V)) : list V := map snd d.
Definition dict_keys (d : list (string * V)) : list string := map fst d.
End Dict.

(** [s.add(x)] on a set held as the list of its distinct elements *)
Definition set_add (x : string) (s : list string) : list string :=
  if str_in x s then s else s ++ [x].

(** Truthiness of a JSON value ([if value:]). *)
Definition truthy (v : json) : bool :=
  match v with
  | JNull => false
  | JBool b => b
  | JInt n => negb (n =? 0)%Z
  | JFloat bits => negb ((bits =? 0)%Z || (bits =? 2 ^ 63)%Z)
  | JStr s => negb (String.eqb s "")
  | JList l => match l with [] => false | _ => true end
  | JDict d => match d with [] => false | _ => true end
  end.

(** ** The trace

    The objects [json.load] returns for a file in the HTTP-archive
    format.  A key the program reads with [.get(key, default)] is an
    optional field. *)

Record Header := { h_name : option string; h_value : option string }.
Record PostParam := { pp_name : string; pp_value : option string }.
Record PostData := {
  pd_mimeType : option string;
  pd_text : option string;
  pd_params : option (list PostParam)
}.
Record Content := { c_text : option string; c_mimeType : option string }.
Record Request := {
  r_url : option string;
  r_method : option string;
  r_headers : option (list Header);
  r_postData : option PostData
}.
Record Response := {
  resp_status : option Z;
  resp_headers : option (list Header);
  resp_content : option Content
}.
Record Entry := { e_request : option Request; e_response : option Response }.

(** [header.get('name', '')], [header.get('value', '')] *)
Definition get_name (header : Header) : string := default "" (h_name header).
Definition get_value (header : Header) : string := default "" (h_value header).

(** [entry.get('request', {})], [entry.get('response', {})] *)
Definition empty_request : Request :=
  {| r_url := None; r_method := None; r_headers := None; r_postData := None |}.
Definition empty_response : Response :=
  {| resp_status := None; resp_headers := None; resp_content := None |}.
Definition empty_content : Content := {| c_text := None; c_mimeType := None |}.

(** ** The Python standard library

    [urllib.parse.urlparse], [urllib.parse.parse_qs], [json.loads] and
    the iteration order of a [set] of strings belong to the runtime, not
    to the program.  The development is parametric in them. *)

Record ParseResult := {
  u_scheme : string;
  u_netloc : string;
  u_path : string;
  u_params : string;
  u_query : string;
  u_fragment : string
}.

Class PyLib := {
  (** what [urlparse] returns, where it returns *)
  urlparse : string -> ParseResult;
  (** the URLs on which [urlparse] raises [ValueError] instead *)
  urlparse_raises : string -> bool;
  (** the dictionary of names to value lists, in insertion order *)
  parse_qs : string -> list (string * list string);
  (** [None] stands for [json.JSONDecodeError] *)
  json_loads : string -> option json;
  (** the order in which a set with the given elements is iterated *)
  set_iter : list string -> list string
}.

(** What is known of the order: every element once. *)
Definition set_iter_lawful `{PyLib} : Prop :=
  forall l, NoDup l -> set_iter l ≡ₚ l.

(** ** har_parser.py *)

Record RequestParam := {
  name : string;
  param_type : string;
  example_value : json;
  required : bool;
  description : string
}.

Record APIEndpoint := {
  method : string;
  path : string;
  base_url : string;
  full_url : string;
  query_params : list RequestParam;
  path_params : list RequestParam;
  headers : list (string * string);
  request_body : json;
  response_example : json;
  response_status : Z;
  content_type : string;
  ep_description : string
}.

Record AuthPattern := {
  auth_type : string;
  header_name : string;
  auth_example_value : string;
  location : string
}.

Record ServiceInfo := {
  service_name : string;
  service_base_url : string;
  service_description : string;
  auth_patterns : list AuthPattern;
  endpoints : list APIEndpoint
}.

(** *** [APIEndpoint.tool_name] *)

(** [re.sub(r'\{(\w+)\}', r'\1', s)] *)
Fixpoint sub_braces_go (skip : nat) (s : string) : string :=
  match s with
  | "" => ""
  | String c s' =>
      match skip with
      | S k => sub_braces_go k s'
      | 0 =>
          let '(w, rest) := span is_word s' in
          if Ascii.eqb c "{" && negb (String.eqb w "") && startswith rest "}"
          then w +:+ sub_braces_go (String.length w + 1) s'
          else String c (sub_braces_go 0 s')
      end
  end.
Definition sub_braces (s : string) : string := sub_braces_go 0 s.

(** [re.sub(r'[C]+', rep, s)] for a character class [C] *)
Fixpoint sub_runs_go (p : ascii -> bool) (rep : string) (in_run : bool) (s : string) : string :=
  match s with
  | "" => ""
  | String c s' =>
      if p c
      then (if in_run then "" else rep) +:+ sub_runs_go p rep true s'
      else String c (sub_runs_go p rep false s')
  end.
Definition sub_runs (p : ascii -> bool) (rep s : string) : string :=
  sub_runs_go p rep false s.

Definition method_prefix : list (string * string) :=
  [("GET", "get"); ("POST", "create"); ("PUT", "update");
   ("PATCH", "patch"); ("DELETE", "delete")].

Definition tool_name (self : APIEndpoint) : string :=
  let path := strip "/" (path self) in
  let path := sub_braces path in
  let path := sub_runs (fun c => negb (is_alnum c)) "_" path in
  let path := lower (strip "_" path) in
  let method_prefix :=
    default (lower (method self)) (dict_get (upper (method self)) method_prefix) in
  if negb (String.eqb path "") then method_prefix +:+ "_" +:+ path else method_prefix.

(** *** [HARParser] class attributes *)

Definition SKIP_HEADERS : list string :=
  ["accept-encoding"; "accept-language"; "cache-control"; "pragma";
   "sec-ch-ua"; "sec-ch-ua-mobile"; "sec-ch-ua-platform";
   "sec-fetch-dest"; "sec-fetch-mode"; "sec-fetch-site"; "sec-gpc";
   "user-agent"; "upgrade-insecure-requests"; "connection";
   ":method"; ":path"; ":scheme"; ":authority"; ":status";
   "priority"; "dnt"; "te"; "if-none-match"; "if-modified-since"].

Definition AUTH_HEADERS : list (string * string) :=
  [("authorization", "bearer");
   ("x-api-key", "api_key");
   ("api-key", "api_key");
   ("x-auth-token", "custom_header");
   ("x-access-token", "custom_header")].

Definition STATIC_EXTENSIONS : list string :=
  [".js"; ".css"; ".png"; ".jpg"; ".jpeg"; ".gif"; ".svg"; ".ico";
   ".woff"; ".woff2"; ".ttf"; ".eot"; ".map"; ".webp"; ".avif"].


Section HARParser.
Context `{PyLib}.

Definition _is_static_resource (url : string) : bool :=
  let parsed := urlparse url in
  let path := lower (u_path parsed) in
  existsb (fun ext => endswith path ext) STATIC_EXTENSIONS ||
  existsb (fun static_path => contains static_path path)
          ["/_next/static"; "/static/"; "/assets/"; "/public/"].

Definition header_declares_json (hname : string) (header : Header) : bool :=
  String.eqb (lower (get_name header)) hname &&
  contains "application/json" (lower (get_value header)).

Definition _is_api_call (url : string) (headers : list Header) : bool :=
  let parsed := urlparse url in
  let path := lower (u_path parsed) in
  (contains "/api/" path || contains "/v1/" path || contains "/v2/" path) ||
  existsb (header_declares_json "accept") headers ||
  existsb (header_declares_json "content-type") headers.

(** The masked example value of a recognised header. *)
Definition mask (value : string) : string :=
  if startswith (lower value) "bearer " then "Bearer <token>" else "<api_key>".

Definition header_pattern (header : Header) : option AuthPattern :=
  let name := lower (get_name header) in
  let value := get_value header in
  match dict_get name AUTH_HEADERS with
  | Some auth_type =>
      Some {| auth_type := auth_type;
              header_name := get_name header;
              auth_example_value := mask value;
              location := "header" |}
  | None => None
  end.

Definition is_auth_cookie (header : Header) : bool :=
  String.eqb (lower (get_name header)) "cookie" &&
  existsb (fun auth_cookie => contains auth_cookie (lower (get_value header)))
          ["session"; "auth"; "token"; "jwt"].

Definition cookie_pattern : AuthPattern :=
  {| auth_type := "cookie"; header_name := "Cookie";
     auth_example_value := "<session_cookie>"; location := "cookie" |}.

Definition _extract_auth_patterns (headers : list Header) : list AuthPattern :=
  let patterns := omap header_pattern headers in
  if existsb is_auth_cookie headers then patterns ++ [cookie_pattern] else patterns.

Definition uuid_name (i : nat) : string :=
  if (0 <? i)%nat then "uuid_" +:+ of_nat i else "id".
Definition numeric_name (i : nat) : string :=
  if (0 <? i)%nat then "id_" +:+ of_nat i else "id".

(** One turn of the loop over [uuid_matches]. *)
Definition uuid_step (acc : string * list RequestParam) (im : nat * Match)
  : string * list RequestParam :=
  let '(normalized_path, params) := acc in
  let '(i, m) := im in
  let param_name := uuid_name i in
  (replace (group0 m) ("/{" +:+ param_name +:+ "}") normalized_path,
   params ++ [ {| name := param_name; param_type := "path";
                  example_value := JStr (group1 m); required := true;
                  description := "UUID identifier" |} ]).

(** One turn of the loop over [numeric_matches]: the slice bounds are
    [match.start()] and [match.end()], positions in the path the
    matches were searched in. *)
Definition numeric_step (acc : string * list RequestParam) (im : nat * Match)
  : string * list RequestParam :=
  let '(normalized_path, params) := acc in
  let '(i, m) := im in
  let param_name := numeric_name i in
  if negb (contains "{" (group0 m))
  then (str_take (m_start m) normalized_path +:+ "/{" +:+ param_name +:+ "}" +:+
        str_drop (m_end m) normalized_path,
        params ++ [ {| name := param_name; param_type := "path";
                       example_value := JStr (group1 m); required := true;
                       description := "Numeric identifier" |} ])
  else acc.

Definition _extract_path_params (path : string) : string * list RequestParam :=
  let after_uuid := foldl uuid_step (path, []) (enumerate (finditer_uuid path)) in
  let numeric_matches := finditer_numeric (fst after_uuid) in
  foldl numeric_step after_uuid (enumerate numeric_matches).

(** The parameters the query-parameter scan skips. *)
Definition framework_param (name : string) : bool :=
  startswith name "_" || str_in name ["rsc"; "callback"; "jsonp"].

Definition query_param (item : string * list string) : option RequestParam :=
  let '(name, values) := item in
  if framework_param name then None
  else Some {| name := name; param_type := "query";
               example_value := match values with v :: _ => JStr v | [] => JNull end;
               required := false;
               description := "Query parameter: " +:+ name |}.

Definition _extract_query_params (url : string) : list RequestParam :=
  let parsed := urlparse url in
  let query_dict := parse_qs (u_query parsed) in
  omap query_param query_dict.

(** [None] is [JNull].  An absent or empty [postData] has no text. *)
Definition _extract_request_body (request : Request) : json :=
  match r_postData request with
  | None => JNull
  | Some post_data =>
      let mime_type := default "" (pd_mimeType post_data) in
      let text := default "" (pd_text post_data) in
      if String.eqb text "" then JNull
      else if contains "json" mime_type then
        match json_loads text with
        | Some v => v
        | None => JDict [("raw", JStr text)]
        end
      else if contains "form" mime_type then
        let params := default [] (pd_params post_data) in
        JDict (foldl (fun d p => dict_set (pp_name p) (JStr (default "" (pp_value p))) d)
                     [] params)
      else JDict [("raw", JStr text)]
  end.

Definition truncated_marker : json := JDict [("...", JStr "truncated")].

(** [data] is a dictionary (its items have distinct keys); the inner
    loop runs over [list(data.items())[:10]].  Every call passes a
    dictionary: the top-level one is guarded by [isinstance(data, dict)]
    and the recursive one by [isinstance(value, dict)].  On another
    value at a positive depth the source raises at [data.items()]; the
    last branch stands for no run of the code. *)
Fixpoint _truncate_response (data : json) (max_depth : Z) {struct data} : json :=
  if (max_depth <=? 0)%Z then truncated_marker
  else
    match data with
    | JDict items =>
        JDict ((fix loop (n : nat) (items : list (string * json)) {struct items} :=
                  match n, items with
                  | S n', (key, value) :: rest =>
                      (key,
                       match value with
                       | JDict _ => _truncate_response value (max_depth - 1)
                       | JList l => if (2 <? length l)%nat then JList (take 2 l) else value
                       | _ => value
                       end) :: loop n' rest
                  | _, _ => []
                  end) 10%nat items)
    | _ => data
    end.

Definition _extract_response_example (response : Response) : json :=
  let content := default empty_content (resp_content response) in
  let text := default "" (c_text content) in
  let mime_type := default "" (c_mimeType content) in
  if String.eqb text "" then JNull
  else if contains "json" mime_type then
    match json_loads text with
    | Some data =>
        match data with
        | JDict _ => _truncate_response data 3
        | JList l => if (2 <? length l)%nat then JList (take 2 l) else data
        | _ => data
        end
    | None => JNull
    end
  else JNull.

Definition _normalize_headers (headers : list Header) : list (string * string) :=
  foldl (fun result header =>
           let name := get_name header in
           if negb (str_in (lower name) SKIP_HEADERS)
           then dict_set name (get_value header) result
           else result)
        [] headers.

(** [re.sub(r'^(www\.|api\.|blog\.)', '', name)] *)
Definition sub_host_prefix (name : string) : string :=
  if startswith name "www." then str_drop 4 name
  else if startswith name "api." then str_drop 4 name
  else if startswith name "blog." then str_drop 5 name
  else name.

(** [re.sub(r'\.(com|org|net|io|ai|dev)$', '', name)] *)
Definition tld_here (s : string) : option string :=
  if existsb (fun t => String.eqb s ("." +:+ t)) ["com"; "org"; "net"; "io"; "ai"; "dev"]
  then Some ""
  else if existsb (fun t => String.eqb s ("." +:+ t +:+ nl))
                  ["com"; "org"; "net"; "io"; "ai"; "dev"]
  then Some nl
  else None.
Fixpoint sub_tld (s : string) : string :=
  match tld_here s with
  | Some r => r
  | None =>
      match s with
      | "" => ""
      | String c s' => String c (sub_tld s')
      end
  end.

Definition _host_to_name (host : string) : string :=
  let name := lower host in
  let name := sub_host_prefix name in
  let name := sub_tld name in
  let name := sub_runs (fun c => negb (is_lower c || is_digit c)) "-" name in
  strip "-" name.

(** The hosts of the non-static records, as the set the loop builds. *)
Definition service_hosts (entries : list Entry) : list string :=
  foldl (fun hosts entry =>
           let url := default "" (r_url (default empty_request (e_request entry))) in
           if negb (String.eqb url "") && negb (_is_static_resource url)
           then let parsed := urlparse url in
                if negb (String.eqb (u_netloc parsed) "")
                then set_add (u_netloc parsed) hosts else hosts
           else hosts)
        [] entries.

Definition _extract_service_name (entries : list Entry) : string :=
  let hosts := service_hosts entries in
  match hosts with
  | [] => "unknown"
  | _ =>
      match find (fun host => contains "api" (lower host)) (set_iter hosts) with
      | Some host => _host_to_name host
      | None => _host_to_name (default "" (head (set_iter hosts)))
      end
  end.

End HARParser.

(** *** [HARParser.parse] *)

Record ParseState := {
  endpoints_map : list (string * APIEndpoint);
  all_auth_patterns : list AuthPattern;
  base_urls : list string
}.

Definition set_query_params (e : APIEndpoint) (qs : list RequestParam) : APIEndpoint :=
  {| method := method e; path := path e; base_url := base_url e;
     full_url := full_url e; query_params := qs; path_params := path_params e;
     headers := headers e; request_body := request_body e;
     response_example := response_example e; response_status := response_status e;
     content_type := content_type e; ep_description := ep_description e |}.

(** The merge of a later observation into the endpoint already stored
    under its key: [existing_param_names] is computed once, before the
    loop over the new parameters. *)
Definition merge_query_params (existing : APIEndpoint) (new_params : list RequestParam)
  : APIEndpoint :=
  let existing_param_names := map name (query_params existing) in
  foldl (fun ex param =>
           if negb (str_in (name param) existing_param_names)
           then set_query_params ex (query_params ex ++ [param])
           else ex)
        existing new_params.

Definition auth_key (pattern : AuthPattern) : string :=
  auth_type pattern +:+ ":" +:+ header_name pattern.

Definition unique_auth (all : list AuthPattern) : list (string * AuthPattern) :=
  foldl (fun unique pattern =>
           let key := auth_key pattern in
           match dict_get key unique with
           | Some _ => unique
           | None => dict_set key pattern unique
           end)
        [] all.

Section Parse.
Context `{PyLib}.

Definition is_relevant (entry : Entry) : bool :=
  let request := default empty_request (e_request entry) in
  let url := default "" (r_url request) in
  let headers := default [] (r_headers request) in
  negb (_is_static_resource url) && _is_api_call url headers.

Definition entry_base_url (entry : Entry) : string :=
  let request := default empty_request (e_request entry) in
  let parsed := urlparse (default "" (r_url request)) in
  u_scheme parsed +:+ "://" +:+ u_netloc parsed.

Definition entry_key (entry : Entry) : string :=
  let request := default empty_request (e_request entry) in
  let parsed := urlparse (default "" (r_url request)) in
  let method := default "GET" (r_method request) in
  let normalized_path := fst (_extract_path_params (u_path parsed)) in
  method +:+ ":" +:+ entry_base_url entry +:+ normalized_path.

(** The [APIEndpoint] the loop body builds for a relevant record. *)
Definition entry_endpoint (entry : Entry) : APIEndpoint :=
  let request := default empty_request (e_request entry) in
  let response := default empty_response (e_response entry) in
  let url := default "" (r_url request) in
  let method := default "GET" (r_method request) in
  let headers := default [] (r_headers request) in
  let parsed := urlparse url in
  let base_url := entry_base_url entry in
  let np := _extract_path_params (u_path parsed) in
  let query_params := _extract_query_params url in
  let request_body := _extract_request_body request in
  let response_example := _extract_response_example response in
  let normalized_headers := _normalize_headers headers in
  {| method := method;
     path := fst np;
     base_url := base_url;
     full_url := url;
     query_params := query_params;
     path_params := snd np;
     headers := normalized_headers;
     request_body := request_body;
     response_example := response_example;
     response_status := default 200%Z (resp_status response);
     content_type := default "application/json" (dict_get "Content-Type" normalized_headers);
     ep_description := "" |}.

(** One turn of the loop over [self.entries]. *)
Definition parse_step (st : ParseState) (entry : Entry) : ParseState :=
  let request := default empty_request (e_request entry) in
  let url := default "" (r_url request) in
  let headers := default [] (r_headers request) in
  if _is_static_resource url then st
  else if negb (_is_api_call url headers) then st
  else
    let endpoint_key := entry_key entry in
    let auth_patterns := _extract_auth_patterns headers in
    let endpoint := entry_endpoint entry in
    {| base_urls := set_add (entry_base_url entry) (base_urls st);
       all_auth_patterns := all_auth_patterns st ++ auth_patterns;
       endpoints_map :=
         match dict_get endpoint_key (endpoints_map st) with
         | Some existing =>
             dict_set endpoint_key
                      (merge_query_params existing (query_params endpoint))
                      (endpoints_map st)
         | None => dict_set endpoint_key endpoint (endpoints_map st)
         end |}.

Definition initial_state : ParseState :=
  {| endpoints_map := []; all_auth_patterns := []; base_urls := [] |}.

Definition parse_loop (entries : list Entry) : ParseState :=
  foldl parse_step initial_state entries.

Definition parse (entries : list Entry) : ServiceInfo :=
  let st := parse_loop entries in
  let service_name := _extract_service_name entries in
  let primary_base_url :=
    match base_urls st with
    | [] => ""
    | _ => default "" (head (set_iter (base_urls st)))
    end in
  {| service_name := service_name;
     service_base_url := primary_base_url;
     service_description := "API service for " +:+ service_name;
     auth_patterns := dict_values (unique_auth (all_auth_patterns st));
     endpoints := dict_values (endpoints_map st) |}.

End Parse.

(** ** A reference [urlparse] and [parse_qs]

    Modelled from the library's documentation: CPython's
    [urllib.parse.urlsplit] and [parse_qsl] for URLs without control
    characters or bracketed hosts.  They give the concrete examples a
    runtime; the general statements hold for every [PyLib]. *)

Module UrlLib.

Definition is_char (c d : ascii) : bool := Ascii.eqb c d.

Fixpoint str_forallb (p : ascii -> bool) (s : string) : bool :=
  match s with
  | "" => true
  | String c s' => p c && str_forallb p s'
  end.

(** [s.partition(c)]: the text before the first [c], and after it
    when there is one. *)
Definition partition (c : ascii) (s : string) : string * option string :=
  let '(before, rest) := span (fun d => negb (is_char c d)) s in
  match rest with
  | "" => (before, None)
  | String _ after => (before, Some after)
  end.

Definition scheme_char (c : ascii) : bool :=
  is_alnum c || is_char "+" c || is_char "-" c || is_char "." c.

Definition split_scheme (url : string) : string * string :=
  match partition ":" url with
  | (String c0 _ as pre, Some rest) =>
      if is_alpha c0 && str_forallb scheme_char pre
      then (lower pre, rest) else ("", url)
  | _ => ("", url)
  end.

Definition split_netloc (url : string) : string * string :=
  if startswith url "//"
  then span (fun c => negb (is_char "/" c || is_char "?" c || is_char "#" c))
            (str_drop 2 url)
  else ("", url).

Definition uses_params : list string :=
  [""; "ftp"; "hdl"; "prospero"; "http"; "imap"; "https"; "shttp";
   "rtsp"; "rtspu"; "sip"; "sips"; "mms"; "sftp"; "tel"].

(** The text up to and including the last [/], and the last segment. *)
Fixpoint rsplit_slash (s : string) : string * string :=
  match s with
  | "" => ("", "")
  | String c s' =>
      let '(d, l) := rsplit_slash s' in
      if is_char "/" c && String.eqb d "" then (String c "", l)
      else if String.eqb d "" then ("", String c l)
      else (String c d, l)
  end.

Definition split_params (url : string) : string * string :=
  let '(dir, last) := rsplit_slash url in
  match partition ";" last with
  | (seg, Some params) => (dir +:+ seg, params)
  | (_, None) => (url, "")
  end.

Definition urlparse (url : string) : ParseResult :=
  let '(scheme, url) := split_scheme url in
  let '(netloc, url) := split_netloc url in
  let '(url, fragment) := partition "#" url in
  let '(url, query) := partition "?" url in
  let '(url, params) :=
    if str_in scheme uses_params then split_params url else (url, "") in
  {| u_scheme := scheme; u_netloc := netloc; u_path := url; u_params := params;
     u_query := default "" query; u_fragment := default "" fragment |}.

(** [urlsplit] raises [ValueError] ("Invalid IPv6 URL") when the host
    has one of the two brackets without the other. *)
Definition urlparse_raises (url : string) : bool :=
  let '(_, url) := split_scheme url in
  let '(netloc, _) := split_netloc url in
  xorb (contains "[" netloc) (contains "]" netloc).

Definition hex_value (c : ascii) : option nat :=
  let n := nat_of_ascii c in
  if is_digit c then Some (n - 48)
  else if ((97 <=? n) && (n <=? 102))%nat then Some (n - 87)
  else if ((65 <=? n) && (n <=? 70))%nat then Some (n - 55)
  else None.

(** [unquote(s.replace('+', ' '))] *)
Fixpoint unquote_plus_go (skip : nat) (s : string) : string :=
  match s with
  | "" => ""
  | String c s' =>
      match skip with
      | S k => unquote_plus_go k s'
      | 0 =>
          if is_char "+" c then String " " (unquote_plus_go 0 s')
          else
            match c, s' with
            | "%"%char, String a (String b _) =>
                match hex_value a, hex_value b with
                | Some x, Some y =>
                    String (ascii_of_nat (16 * x + y)) (unquote_plus_go 2 s')
                | _, _ => String c (unquote_plus_go 0 s')
                end
            | _, _ => String c (unquote_plus_go 0 s')
            end
      end
  end.
Definition unquote_plus (s : string) : string := unquote_plus_go 0 s.

(** [s.split(c)] *)
Fixpoint split (c : ascii) (s : string) : list string :=
  match s with
  | "" => [""]
  | String d s' =>
      match split c s' with
      | w :: ws => if is_char c d then "" :: w :: ws else String d w :: ws
      | [] => [String d ""]
      end
  end.

Definition parse_qsl (qs : string) : list (string * string) :=
  omap (fun name_value =>
          match partition "=" name_value with
          | (n, Some v) =>
              if String.eqb v "" then None
              else Some (unquote_plus n, unquote_plus v)
          | (_, None) => None
          end)
       (split "&" qs).

Definition parse_qs (qs : string) : list (string * list string) :=
  foldl (fun parsed_result '(name, value) =>
           match dict_get name parsed_result with
           | Some values => dict_set name (values ++ [value]) parsed_result
           | None => dict_set name [value] parsed_result
           end)
        [] (parse_qsl qs).

End UrlLib.

(** The runtime of the examples: the reference URL functions, the values
    [json.loads] returns for the texts of the example, and an iteration
    order for sets. *)
Definition example_lib (json_texts : list (string * json))
    (order : list string -> list string) : PyLib :=
  {| urlparse := UrlLib.urlparse;
     urlparse_raises := UrlLib.urlparse_raises;
     parse_qs := UrlLib.parse_qs;
     json_loads := fun text => dict_get text json_texts;
     set_iter := order |}.

Definition insertion_order (l : list string) : list string := l.
Definition reverse_order (l : list string) : list string := reverse l.

(** ** mcp_generator.py

    The generator interpolates values of the service model into fixed
    template text.  The fixed text plays no part in what follows: the
    [i]-th literal segment of a template is [static_text t i], and
    [json.dumps] and the clock belong to the runtime. *)

Inductive template :=
| ServerPy | InitPy | AuthPy | ClientPy | Pyproject | Readme
| ToolCode | ToolItem | AuthReadmePublic | AuthReadmeHeader | ClaudeConfigPlain
| ClaudeEnvBearer | ClaudeEnvApiKey | ClaudeEnvCustomHeader | ClaudeConfigAuth.

Class GenLib := {
  static_text : template -> nat -> string;
  (** [json.dumps(value, indent=indent)] *)
  json_dumps : option nat -> json -> string;
  (** [datetime.now().isoformat()] *)
  now_isoformat : string
}.

(** [value.get(key)] on a dictionary, [dict[key] = v], [dict.setdefault] *)
Definition json_get (key : string) (d : json) : option json :=
  match d with
  | JDict items => dict_get key items
  | _ => None
  end.
Definition json_set (key : string) (v : json) (d : json) : json :=
  match d with
  | JDict items => JDict (dict_set key v items)
  | _ => d
  end.
Definition json_setdefault (key : string) (v : json) (d : json) : json :=
  match json_get key d with
  | Some _ => d
  | None => json_set key v d
  end.

(** The text of a template: literal segments around the interpolated
    values, in order. *)
Fixpoint interpolate_go (seg : nat -> string) (i : nat) (holes : list string) : string :=
  match holes with
  | [] => seg i
  | h :: holes' => seg i +:+ h +:+ interpolate_go seg (S i) holes'
  end.

Section MCPGenerator.
Context `{GenLib}.

Definition interpolate (t : template) (holes : list string) : string :=
  interpolate_go (static_text t) 0 holes.

Variable service_info : ServiceInfo.

Definition server_name : string := "iblai-" +:+ service_name service_info.

Definition _python_safe_name (name : string) : string :=
  let safe := string_of_list_ascii
                (map (fun c => if is_word c then c else "_"%char) (list_ascii_of_string name)) in
  let safe := match safe with
              | String c _ => if is_digit c then "_" +:+ safe else safe
              | "" => safe
              end in
  lower safe.

(** [isinstance(True, int)] holds, so a boolean example is an integer. *)
Definition param_json_type (example : json) : string :=
  match example with
  | JStr _ => "string"
  | JInt _ | JBool _ => "integer"
  | JFloat _ => "number"
  | _ => "string"
  end.

Definition param_prop (param : RequestParam) : json :=
  JDict [("type", JStr (param_json_type (example_value param)));
         ("description",
          JStr (if negb (String.eqb (description param) "") then description param
                else "Parameter: " +:+ name param))].

Definition _generate_param_schema (params : list RequestParam) : json :=
  match params with
  | [] => JDict []
  | _ =>
      let properties :=
        foldl (fun props param => dict_set (name param) (param_prop param) props) [] params in
      let required := map name (filter (fun p => required p = true) params) in
      let schema := JDict [("type", JStr "object"); ("properties", JDict properties)] in
      match required with
      | [] => schema
      | _ => json_set "required" (JList (map JStr required)) schema
      end
  end.

Fixpoint infer_schema (value : json) : json :=
  match value with
  | JDict items =>
      JDict [("type", JStr "object");
             ("properties",
              JDict ((fix props (items : list (string * json)) :=
                        match items with
                        | [] => []
                        | (k, v) :: rest => (k, infer_schema v) :: props rest
                        end) items))]
  | JList l =>
      match l with
      | v :: _ => JDict [("type", JStr "array"); ("items", infer_schema v)]
      | [] => JDict [("type", JStr "array"); ("items", JDict [])]
      end
  | JBool _ => JDict [("type", JStr "boolean")]
  | JInt _ => JDict [("type", JStr "integer")]
  | JFloat _ => JDict [("type", JStr "number")]
  | _ => JDict [("type", JStr "string")]
  end.

Definition _generate_body_schema (body : json) : json :=
  if negb (truthy body) then JDict [] else infer_schema body.

(** The input schema of an endpoint: its parameters, and the body's
    properties when the observed body has some. *)
Definition input_schema (endpoint : APIEndpoint) : json :=
  let all_params := path_params endpoint ++ query_params endpoint in
  let schema := _generate_param_schema all_params in
  if truthy (request_body endpoint) then
    let body_schema := _generate_body_schema (request_body endpoint) in
    match json_get "properties" body_schema with
    | Some props =>
        if truthy props then
          let schema := json_setdefault "properties" (JDict []) schema in
          json_set "properties"
            (json_set "body"
               (JDict [("type", JStr "object");
                       ("description", JStr "Request body");
                       ("properties", props)])
               (default (JDict []) (json_get "properties" schema)))
            schema
        else schema
    | None => schema
    end
  else schema.

Definition _generate_path_param_extraction (params : list RequestParam) : string :=
  match params with
  | [] => "pass  # No path parameters"
  | _ =>
      join (nl +:+ "    ")
        (flat_map (fun param =>
           ["if " +:+ dq +:+ name param +:+ dq +:+ " in arguments:";
            "        path = path.replace(" +:+ dq +:+ "{" +:+ name param +:+ "}" +:+ dq +:+
            ", str(arguments[" +:+ dq +:+ name param +:+ dq +:+ "]))"]) params)
  end.

Definition _generate_query_param_extraction (params : list RequestParam) : string :=
  match params with
  | [] => "pass  # No query parameters"
  | _ =>
      join (nl +:+ "    ")
        (flat_map (fun param =>
           ["if " +:+ dq +:+ name param +:+ dq +:+ " in arguments:";
            "        query_params[" +:+ dq +:+ name param +:+ dq +:+ "] = arguments[" +:+
            dq +:+ name param +:+ dq +:+ "]"]) params)
  end.

Definition tool_description (endpoint : APIEndpoint) : string :=
  let desc_parts := [method endpoint +:+ " " +:+ path endpoint] in
  let desc_parts :=
    match query_params endpoint with
    | [] => desc_parts
    | qs => desc_parts ++ ["Query params: " +:+ join ", " (map name qs)]
    end in
  let desc_parts :=
    match path_params endpoint with
    | [] => desc_parts
    | ps => desc_parts ++ ["Path params: " +:+ join ", " (map name ps)]
    end in
  join " | " desc_parts.

Definition _generate_tool_code (endpoint : APIEndpoint) : string :=
  let safe_name := _python_safe_name (tool_name endpoint) in
  interpolate ToolCode
    [safe_name; tool_description endpoint; method endpoint; path endpoint;
     path endpoint; _generate_path_param_extraction (path_params endpoint);
     _generate_query_param_extraction (query_params endpoint); method endpoint].

Definition _generate_tools_list_items : string :=
  join ("," +:+ nl +:+ "        ")
    (map (fun endpoint =>
            let description := method endpoint +:+ " " +:+ path endpoint in
            let schema := input_schema endpoint in
            let schema :=
              if truthy schema then schema
              else JDict [("type", JStr "object"); ("properties", JDict [])] in
            interpolate ToolItem
              [tool_name endpoint; description; json_dumps None schema])
         (endpoints service_info)).

Definition env_prefix : string :=
  replace "." "_" (replace "-" "_" (upper (service_name service_info))).

Definition _env_var_name (suffix : string) : string := env_prefix +:+ "_" +:+ suffix.

Definition server_py : string :=
  let tools_code := join nl (map _generate_tool_code (endpoints service_info)) in
  interpolate ServerPy
    [server_name; service_name service_info; service_base_url service_info;
     now_isoformat; server_name; _env_var_name "BASE_URL";
     service_base_url service_info; _generate_tools_list_items; tools_code].

Definition init_py : string := interpolate InitPy [server_name].

Definition auth_py : string := interpolate AuthPy (server_name :: repeat env_prefix 12).

Definition client_py : string := interpolate ClientPy [server_name].

Definition package_name : string := replace "-" "_" server_name.

Definition pyproject_toml : string :=
  interpolate Pyproject
    [server_name; service_name service_info; server_name; package_name; package_name].

Definition _generate_auth_readme_section : string :=
  match auth_patterns service_info with
  | [] => interpolate AuthReadmePublic [env_prefix; service_base_url service_info]
  | patterns =>
      let lines :=
        [static_text AuthReadmeHeader 0;
         "| `" +:+ env_prefix +:+ "_BASE_URL` | API base URL (default: " +:+
         service_base_url service_info +:+ ") | No |"] ++
        flat_map (fun auth =>
          if String.eqb (auth_type auth) "bearer" then
            ["| `" +:+ env_prefix +:+ "_AUTH_TYPE` | Set to `bearer` | Yes |";
             "| `" +:+ env_prefix +:+ "_BEARER_TOKEN` | Bearer token for authentication | Yes |"]
          else if String.eqb (auth_type auth) "api_key" then
            ["| `" +:+ env_prefix +:+ "_AUTH_TYPE` | Set to `api_key` | Yes |";
             "| `" +:+ env_prefix +:+ "_API_KEY` | API key for authentication | Yes |"] ++
            (if negb (String.eqb (header_name auth) "") &&
                negb (String.eqb (header_name auth) "X-API-Key")
             then ["| `" +:+ env_prefix +:+ "_API_KEY_HEADER` | Header name (default: " +:+
                   header_name auth +:+ ") | No |"]
             else [])
          else if String.eqb (auth_type auth) "custom_header" then
            ["| `" +:+ env_prefix +:+ "_AUTH_TYPE` | Set to `custom_header` | Yes |";
             "| `" +:+ env_prefix +:+ "_CUSTOM_HEADER_NAME` | Header name: `" +:+
             header_name auth +:+ "` | Yes |";
             "| `" +:+ env_prefix +:+ "_CUSTOM_HEADER_VALUE` | Header value | Yes |"]
          else []) patterns in
      let example_lines :=
        [nl +:+ "### Example Configuration" +:+ nl +:+ nl +:+ "```bash"] ++
        match patterns with
        | auth :: _ =>
            if String.eqb (auth_type auth) "bearer" then
              ["export " +:+ env_prefix +:+ "_AUTH_TYPE=bearer";
               "export " +:+ env_prefix +:+ "_BEARER_TOKEN=your_token_here"]
            else if String.eqb (auth_type auth) "api_key" then
              ["export " +:+ env_prefix +:+ "_AUTH_TYPE=api_key";
               "export " +:+ env_prefix +:+ "_API_KEY=your_api_key_here"]
            else if String.eqb (auth_type auth) "custom_header" then
              ["export " +:+ env_prefix +:+ "_AUTH_TYPE=custom_header";
               "export " +:+ env_prefix +:+ "_CUSTOM_HEADER_NAME=" +:+ header_name auth;
               "export " +:+ env_prefix +:+ "_CUSTOM_HEADER_VALUE=your_value_here"]
            else []
        | [] => []
        end ++ ["```"] in
      join nl lines +:+ join nl example_lines
  end.

Definition _generate_claude_desktop_config : string :=
  match auth_patterns service_info with
  | [] => interpolate ClaudeConfigPlain [server_name; server_name; server_name]
  | auth :: _ =>
      let env_section :=
        if String.eqb (auth_type auth) "bearer" then
          interpolate ClaudeEnvBearer [env_prefix; env_prefix]
        else if String.eqb (auth_type auth) "api_key" then
          interpolate ClaudeEnvApiKey [env_prefix; env_prefix]
        else if String.eqb (auth_type auth) "custom_header" then
          interpolate ClaudeEnvCustomHeader
            [env_prefix; env_prefix; header_name auth; env_prefix]
        else "" in
      interpolate ClaudeConfigAuth [server_name; server_name; server_name; env_section]
  end.

Definition tool_doc (endpoint : APIEndpoint) : string :=
  let params :=
    map (fun p =>
           "  - `" +:+ name p +:+ "`: " +:+ description p +:+
           (if required p then " (required)" else ""))
        (path_params endpoint ++ query_params endpoint) in
  let params_str :=
    match params with
    | [] => "  No parameters"
    | _ => join nl params
    end in
  "### `" +:+ tool_name endpoint +:+ "`" +:+ nl +:+ nl +:+
  method endpoint +:+ " " +:+ path endpoint +:+ nl +:+ nl +:+
  "**Parameters:**" +:+ nl +:+ params_str +:+ nl.

Definition readme_md : string :=
  let tools_section := join nl (map tool_doc (endpoints service_info)) in
  interpolate Readme
    [server_name; service_name service_info; service_base_url service_info;
     server_name; _generate_auth_readme_section; _generate_claude_desktop_config;
     server_name; server_name; server_name; server_name; server_name;
     server_name; server_name; tools_section; server_name].

Definition env_example : string :=
  let lines :=
    ["# " +:+ server_name +:+ " Configuration";
     "# Copy this file to .env and update with your values";
     "";
     "# Base URL (optional, defaults to discovered URL)";
     "# " +:+ env_prefix +:+ "_BASE_URL=" +:+ service_base_url service_info] in
  let lines :=
    match auth_patterns service_info with
    | [] =>
        lines ++ [""; "# No authentication was detected in the API calls.";
                  "# This API appears to be public."]
    | patterns =>
        lines ++
        flat_map (fun auth =>
          "" ::
          (if String.eqb (auth_type auth) "bearer" then
             [env_prefix +:+ "_AUTH_TYPE=bearer";
              env_prefix +:+ "_BEARER_TOKEN=your_token_here"]
           else if String.eqb (auth_type auth) "api_key" then
             [env_prefix +:+ "_AUTH_TYPE=api_key";
              env_prefix +:+ "_API_KEY=your_api_key_here"] ++
             (if negb (String.eqb (header_name auth) "") &&
                 negb (String.eqb (header_name auth) "X-API-Key")
              then [env_prefix +:+ "_API_KEY_HEADER=" +:+ header_name auth]
              else [])
           else if String.eqb (auth_type auth) "custom_header" then
             [env_prefix +:+ "_AUTH_TYPE=custom_header";
              env_prefix +:+ "_CUSTOM_HEADER_NAME=" +:+ header_name auth;
              env_prefix +:+ "_CUSTOM_HEADER_VALUE=your_value_here"]
           else [])) patterns
    end in
  join nl (lines ++ [""]).

(** The artifacts of one run: file name and content, in the order
    [generate] writes them. *)
Definition artifacts : list (string * string) :=
  [("server.py", server_py);
   ("__init__.py", init_py);
   ("auth.py", auth_py);
   ("client.py", client_py);
   ("pyproject.toml", pyproject_toml);
   ("README.md", readme_md);
   (".env.example", env_example)].

End MCPGenerator.

(** ** Files and exceptions

    The commands read the trace and write the package.  A world holds
    the files and directories, and which paths refuse to be created or
    written; a computation returns a value or raises, and leaves a
    world. *)

Inductive exn :=
  FileNotFoundError | JSONDecodeError | AttributeError | ValueError | OSError.

Record World := {
  files : gmap string string;
  dirs : gset string;
  denied : string -> bool
}.

Definition IO (A : Type) : Type := World -> (exn + A) * World.

Definition ret {A} (a : A) : IO A := fun w => (inr a, w).
#[global] Instance IO_ret : MRet IO := @ret.








Section Commands.
Context `{PyLib} `{GenLib} `{OsLib}.








Record Args := { har_file : string; arg_name : option string; arg_output : option string }.

Definition set_service_name (s : ServiceInfo) (n : string) : ServiceInfo :=
  {| service_name := n; service_base_url := service_base_url s;
     service_description := service_description s;
     auth_patterns := auth_patterns s; endpoints := endpoints s |}.

Definition override_name (args : Args) (service_info : ServiceInfo) : ServiceInfo :=
  match arg_name args with
  | Some n =>
      if String.eqb n "" then service_info
      else set_service_name service_info
             (if startswith n "iblai-" then str_drop 6 n else n)
  | None => service_info
  end.



End Commands.

(** ** The specification's wording, for comparison *)

(** The record classifier as the specification words it: not a static
    asset, and an API path segment, a JSON [Accept] header, or a JSON
    [Content-Type] header of the request or of the response. *)
Definition classifier_as_specified `{PyLib} (entry : Entry) : bool :=
  let request := default empty_request (e_request entry) in
  let response := default empty_response (e_response entry) in
  let url := default "" (r_url request) in
  let headers := default [] (r_headers request) in
  let path := lower (u_path (urlparse url)) in
  negb (_is_static_resource url) &&
  ((contains "/api/" path || contains "/v1/" path || contains "/v2/" path) ||
   existsb (header_declares_json "accept") headers ||
   existsb (header_declares_json "content-type") headers ||
   existsb (header_declares_json "content-type") (default [] (resp_headers response))).

(** The bound the specification's wording promises of every example:
    every mapping has at most ten keys and every sequence at most two
    elements. *)
Fixpoint bounded_as_specified (v : json) : bool :=
  match v with
  | JList l => (length l <=? 2)%nat && forallb bounded_as_specified l
  | JDict items =>
      (length items <=? 10)%nat && forallb (fun kv => bounded_as_specified (snd kv)) items
  | _ => true
  end.

(** What one turn of the truncation loop stores for a value. *)
Definition truncate_value (max_depth : Z) (value : json) : json :=
  match value with
  | JDict _ => _truncate_response value (max_depth - 1)
  | JList l => if (2 <? length l)%nat then JList (take 2 l) else value
  | _ => value
  end.

(** The bound the truncation gives: along mappings nested at most
    [depth] deep, a mapping has at most ten keys and a sequence held by
    a mapping has at most two elements.  Nothing is said of what a
    sequence holds. *)
Fixpoint bounded_along_mappings (depth : nat) (v : json) {struct v} : bool :=
  match v with
  | JDict items =>
      (length items <=? 10)%nat &&
      forallb (fun kv =>
                 match snd kv with
                 | JDict _ =>
                     match depth with
                     | S d => bounded_along_mappings d (snd kv)
                     | 0 => false
                     end
                 | JList l => (length l <=? 2)%nat
                 | _ => true
                 end) items
  | _ => true
  end.

(** The aggregation key of a stored endpoint. *)
Definition endpoint_key (e : APIEndpoint) : string :=
  method e +:+ ":" +:+ base_url e +:+ path e.

(** ** Credentials

    Two headers are the same but for a credential when they have the
    same name and, unless the name is in the recognition table, the
    same value; two records are when their requests differ at most so. *)

Definition same_header_but_credential (h h' : Header) : Prop :=
  h_name h = h_name h' /\
  (dict_get (lower (get_name h)) AUTH_HEADERS = None -> h_value h = h_value h').

Definition same_but_credentials (e e' : Entry) : Prop :=
  let r := default empty_request (e_request e) in
  let r' := default empty_request (e_request e') in
  e_response e = e_response e' /\
  r_url r = r_url r' /\ r_method r = r_method r' /\ r_postData r = r_postData r' /\
  Forall2 same_header_but_credential (default [] (r_headers r)) (default [] (r_headers r')).

(** The service model without the fields the generator never reads:
    the endpoints' headers and content type, and the patterns' example
    values. *)
Definition redact_endpoint (e : APIEndpoint) : APIEndpoint :=
  {| method := method e; path := path e; base_url := base_url e;
     full_url := full_url e; query_params := query_params e;
     path_params := path_params e; headers := [];
     request_body := request_body e; response_example := response_example e;
     response_status := response_status e; content_type := "";
     ep_description := ep_description e |}.

Definition redact_pattern (p : AuthPattern) : AuthPattern :=
  {| auth_type := auth_type p; header_name := header_name p;
     auth_example_value := ""; location := location p |}.

Definition redact_service (s : ServiceInfo) : ServiceInfo :=
  {| service_name := service_name s; service_base_url := service_base_url s;
     service_description := service_description s;
     auth_patterns := map redact_pattern (auth_patterns s);
     endpoints := map redact_endpoint (endpoints s) |}.

(** A dictionary with [f] applied to its values. *)
Definition vmap {V W} (f : V -> W) (d : list (string * V)) : list (string * W) :=
  map (fun kv => (fst kv, f (snd kv))) d.

Definition redact_state (st : ParseState) : ParseState :=
  {| endpoints_map := vmap redact_endpoint (endpoints_map st);
     all_auth_patterns := map redact_pattern (all_auth_patterns st);
     base_urls := base_urls st |}.

(** ** Runs that are let through

    A world that denies no path, and a computation that returns in
    every such world and leaves such a world. *)



(** ** Example traces *)

Module Examples.

Definition hdr (n v : string) : Header := {| h_name := Some n; h_value := Some v |}.

(** A record with a request URL, method and headers, and a response
    with headers and a body. *)
Definition record (method url : string) (req_headers : list Header)
    (resp_headers : list Header) (mime text : string) : Entry :=
  {| e_request := Some {| r_url := Some url; r_method := Some method;
                          r_headers := Some req_headers; r_postData := None |};
     e_response := Some {| resp_status := Some 200%Z;
                           resp_headers := Some resp_headers;
                           resp_content := Some {| c_text := Some text;
                                                   c_mimeType := Some mime |} |} |}.

Definition get (url : string) : Entry := record "GET" url [] [] "" "".

(** A runtime that iterates sets in insertion order, and one that
    iterates them in the opposite order. *)
Definition lib (json_texts : list (string * json)) : PyLib :=
  example_lib json_texts insertion_order.
Definition lib_rev (json_texts : list (string * json)) : PyLib :=
  example_lib json_texts reverse_order.

(** One record whose query string carries framework parameters. *)
Definition framework_record : Entry :=
  get "https://api.example.com/api/items?_t=1&page=2&callback=cb&rsc=x&jsonp=y".

(** The same path on two hosts. *)
Definition two_hosts : list Entry :=
  [get "https://a.example.com/api/items"; get "https://b.example.com/api/items"].

(** Three observations of one endpoint. *)
Definition paged : list Entry :=
  [get "https://api.example.com/api/items?page=1";
   get "https://api.example.com/api/items?search=foo";
   get "https://api.example.com/api/items?page=2"].

(** A record that only its response declares to be JSON. *)
Definition json_response_only : Entry :=
  record "GET" "https://example.com/data" []
         [hdr "Content-Type" "application/json"] "application/json" "{}".

(** The items of an object with the keys [k0], [k1], ... *)
Definition numbered_items (n : nat) : list (string * json) :=
  map (fun i => ("k" +:+ of_nat i, JInt (Z.of_nat i))) (seq 0 n).


(** An object nested five objects deep. *)
Definition nested_five : json :=
  JDict [("a", JDict [("b", JDict [("c", JDict [("d", JDict [("e", JInt 1)])])])])].

(** A response with a JSON body. *)
Definition json_response (text : string) : Response :=
  {| resp_status := Some 200%Z; resp_headers := None;
     resp_content := Some {| c_text := Some text;
                             c_mimeType := Some "application/json" |} |}.

(** The values [json.loads] returns for two response texts. *)
Definition nested_sequence_text : string := "[[1, 2, 3]]".
Definition sequence_in_mapping_text : string :=
  "{" +:+ dq +:+ "a" +:+ dq +:+ ": [[1, 2, 3]]}".
Definition response_texts : list (string * json) :=
  [(nested_sequence_text, JList [JList [JInt 1; JInt 2; JInt 3]]);
   (sequence_in_mapping_text, JDict [("a", JList [JList [JInt 1; JInt 2; JInt 3]])])].

(** Two recordings of one call, with different bearer tokens. *)
Definition with_token (token : string) : list Entry :=
  [record "GET" "https://api.example.com/api/items?page=1"
          [hdr "Accept" "application/json"; hdr "Authorization" ("Bearer " +:+ token)]
          [] "" ""].

(** Templates with no fixed text, a serialiser that prints nothing
    and a stopped clock: a generator runtime for running examples. *)
Definition blank_genlib : GenLib :=
  {| static_text := fun _ _ => ""; json_dumps := fun _ _ => ""; now_isoformat := "" |}.



End Examples.

(** ** Further definitions, for the properties of the rest of the code *)

(** Every character of a string is in a class. *)
Fixpoint str_all (p : ascii -> bool) (s : string) : bool :=
  match s with
  | "" => true
  | String c s' => p c && str_all p s'
  end.

(** The dictionary a loop builds that assigns [value x] to [key x] for
    the elements [x] it keeps. *)
Definition loop_dict {A V} (keep : A -> bool) (key : A -> string) (value : A -> V)
    (l : list A) : list (string * V) :=
  foldl (fun d x => if keep x then dict_set (key x) (value x) d else d) [] l.

(** [request.get('headers', [])] of a record *)
Definition entry_headers (entry : Entry) : list Header :=
  default [] (r_headers (default empty_request (e_request entry))).

(** The patterns of the relevant records, in the order the loop of
    [parse] collects them. *)
Definition observed_patterns `{PyLib} (entries : list Entry) : list AuthPattern :=
  flat_map (fun e => _extract_auth_patterns (entry_headers e))
           (filter (fun e => is_relevant e = true) entries).

(** The record [e], at index [i] of the trace, is the first relevant
    record with the key of the endpoint [ep]. *)
Definition first_observation `{PyLib} (entries : list Entry) (ep : APIEndpoint)
    (i : nat) (e : Entry) : Prop :=
  entries !! i = Some e /\ is_relevant e = true /\ entry_key e = endpoint_key ep /\
  forall j e', (j < i)%nat -> entries !! j = Some e' -> is_relevant e' = true ->
               entry_key e' <> endpoint_key ep.

(** [request.get('url', '')] of a record *)
Definition entry_url (entry : Entry) : string :=
  default "" (r_url (default empty_request (e_request entry))).

(** The characters of a lower-case identifier: [a-z0-9_]. *)
Definition ident_char (c : ascii) : bool := is_lower c || is_digit c || Ascii.eqb c "_".
(** The characters of a service name: [a-z0-9-]. *)
Definition name_char (c : ascii) : bool := is_lower c || is_digit c || Ascii.eqb c "-".
(** The characters of an environment-variable prefix: no lower-case
    letter, hyphen or dot. *)
(** A character of the ASCII alphabet, on which [PyStr.upper] and
    [PyStr.lower] are [str.upper] and [str.lower]. *)
Definition is_ascii (c : ascii) : bool := (nat_of_ascii c <? 128)%nat.
Definition env_char (c : ascii) : bool :=
  negb (is_lower c) && negb (Ascii.eqb c "-") && negb (Ascii.eqb c ".").

(** ** Further examples *)

Module MoreExamples.

(** A request that posts a form in which [tag] occurs twice. *)
Definition form_post_data : PostData :=
  {| pd_mimeType := Some "application/x-www-form-urlencoded";
     pd_text := Some "tag=a&q=x&tag=b";
     pd_params := Some [ {| pp_name := "tag"; pp_value := Some "a" |};
                         {| pp_name := "q"; pp_value := Some "x" |};
                         {| pp_name := "tag"; pp_value := Some "b" |} ] |}.
Definition form_request : Request :=
  {| r_url := Some "https://api.example.com/api/tags"; r_method := Some "POST";
     r_headers := Some []; r_postData := Some form_post_data |}.

(** A page load, a static asset and two API calls on another host. *)
Definition page_and_api : list Entry :=
  [Examples.get "https://www.shop.example.com/index.html";
   Examples.get "https://www.shop.example.com/logo.png";
   Examples.get "https://backend.example.com/api/items?page=1";
   Examples.get "https://backend.example.com/api/items?page=2&sort=asc"].

(** Records none of which is an API call. *)
Definition pages_only : list Entry :=
  [Examples.get "https://www.shop.example.com/index.html";
   Examples.get "https://www.shop.example.com/static/app.js"].

End MoreExamples.

(** * Properties *)

(** ** The model on the specification's examples *)

Example tool_name_get :
  tool_name {| method := "GET"; path := "/api/v1/courses/{id}/modules"; base_url := "";
               full_url := ""; query_params := []; path_params := []; headers := [];
               request_body := JNull; response_example := JNull; response_status := 200;
               content_type := ""; ep_description := "" |}
  = "get_api_v1_courses_id_modules".
Proof. reflexivity. Qed.

Example tool_name_post :
  tool_name {| method := "POST"; path := "/api/{id}/envelope/"; base_url := "";
               full_url := ""; query_params := []; path_params := []; headers := [];
               request_body := JNull; response_example := JNull; response_status := 200;
               content_type := ""; ep_description := "" |}
  = "create_api_id_envelope".
Proof. reflexivity. Qed.

Example host_to_name_api : _host_to_name "api.Example-Site.io" = "example-site".
Proof. reflexivity. Qed.

Example urlparse_reference :
  UrlLib.urlparse "https://api.example.com/courses/12/modules?page=1&q=a%20b#top" =
  {| u_scheme := "https"; u_netloc := "api.example.com"; u_path := "/courses/12/modules";
     u_params := ""; u_query := "page=1&q=a%20b"; u_fragment := "top" |}.
Proof. reflexivity. Qed.

Example parse_qs_reference :
  UrlLib.parse_qs "page=1&q=a%20b+c&page=2&empty=&flag" =
  [("page", ["1"; "2"]); ("q", ["a b c"])].
Proof. reflexivity. Qed.

Example uuid_then_numeric :
  fst (_extract_path_params "/users/123e4567-e89b-12d3-A456-426614174000/posts/7") =
  "/users/{id}/posts/{id}".
Proof. vm_compute. reflexivity. Qed.

Example no_relevant_records :
  let s := @parse (Examples.lib []) [Examples.get "https://example.com/index.html"] in
  endpoints s = [] /\ auth_patterns s = [].
Proof. vm_compute. done. Qed.

(** ** Dictionaries *)

Section DictFacts.
Context {V : Type}.
Implicit Types (d : list (string * V)) (k : string) (v : V).

Lemma dict_get_Some_elem k v d : dict_get k d = Some v -> (k, v) ∈ d.
Proof.
  induction d as [|[k' v'] d IH]; simpl; [done|].
  destruct (String.eqb k k') eqn:E.
  - apply String.eqb_eq in E. intros [= ->]. subst. left.
  - intros Hg. right. auto.
Qed.

Lemma dict_get_None k d : dict_get k d = None <-> k ∉ dict_keys d.
Proof.
  induction d as [|[k' v'] d IH]; simpl.
  - split; [intros _; apply not_elem_of_nil | done].
  - destruct (String.eqb k k') eqn:E.
    + apply String.eqb_eq in E. subst. split; [done|].
      intros Hn. exfalso. apply Hn. left.
    + apply String.eqb_neq in E. rewrite IH. unfold dict_keys. simpl.
      rewrite not_elem_of_cons. tauto.
Qed.

Lemma dict_keys_set k v d :
  dict_keys (dict_set k v d) =
  match dict_get k d with Some _ => dict_keys d | None => dict_keys d ++ [k] end.
Proof.
  induction d as [|[k' v'] d IH]; simpl; [done|].
  destruct (String.eqb k k') eqn:E; simpl; [done|].
  unfold dict_keys in *. simpl. rewrite IH.
  by destruct (dict_get k d).
Qed.

Lemma dict_set_Forall (P : string * V -> Prop) k v d :
  Forall P d -> (forall k', k' = k -> P (k', v)) -> Forall P (dict_set k v d).
Proof.
  intros Hd Hv. induction Hd as [|[k' v'] d Hx Hd IH]; simpl.
  - constructor; [by apply Hv | constructor].
  - destruct (String.eqb k k') eqn:E.
    + apply String.eqb_eq in E. constructor; [by apply Hv | done].
    + constructor; done.
Qed.

Lemma dict_get_set_eq k v d : dict_get k (dict_set k v d) = Some v.
Proof.
  induction d as [|[k' v'] d IH]; simpl.
  - by rewrite String.eqb_refl.
  - destruct (String.eqb k k') eqn:E; simpl; by rewrite E.
Qed.

Lemma dict_get_set_ne k k' v d : k <> k' -> dict_get k' (dict_set k v d) = dict_get k' d.
Proof.
  intros Hne. induction d as [|[k0 v0] d IH]; simpl.
  - destruct (String.eqb k' k) eqn:E; [|done].
    apply String.eqb_eq in E. congruence.
  - destruct (String.eqb k k0) eqn:E; simpl.
    + apply String.eqb_eq in E. subst k0.
      destruct (String.eqb k' k) eqn:E'; [|done].
      apply String.eqb_eq in E'. congruence.
    + by rewrite IH.
Qed.

Lemma dict_keys_NoDup_set k v d : NoDup (dict_keys d) -> NoDup (dict_keys (dict_set k v d)).
Proof.
  intros Hd. rewrite dict_keys_set.
  destruct (dict_get k d) eqn:E; [done|].
  apply dict_get_None in E.
  apply NoDup_app. split; [done|]. split.
  - intros x Hx Hk. apply list_elem_of_singleton in Hk. by subst.
  - apply NoDup_singleton.
Qed.
End DictFacts.

Lemma str_in_true x l : str_in x l = true <-> x ∈ l.
Proof.
  unfold str_in. rewrite existsb_exists. split.
  - intros (y & Hy & E). apply String.eqb_eq in E. subst. by apply list_elem_of_In.
  - intros Hx. exists x. split; [by apply list_elem_of_In | apply String.eqb_refl].
Qed.

(** ** The loop of [parse] *)

Section ParseFacts.
Context `{PyLib}.

Lemma parse_step_skip st entry : is_relevant entry = false -> parse_step st entry = st.
Proof.
  unfold is_relevant, parse_step. cbv zeta. intros Hr.
  destruct (_is_static_resource _); [done|].
  simpl in Hr. rewrite Hr. done.
Qed.

Lemma parse_step_relevant st entry :
  is_relevant entry = true ->
  parse_step st entry =
  {| base_urls := set_add (entry_base_url entry) (base_urls st);
     all_auth_patterns :=
       all_auth_patterns st ++
       _extract_auth_patterns (default [] (r_headers (default empty_request (e_request entry))));
     endpoints_map :=
       match dict_get (entry_key entry) (endpoints_map st) with
       | Some existing =>
           dict_set (entry_key entry)
             (merge_query_params existing (query_params (entry_endpoint entry)))
             (endpoints_map st)
       | None => dict_set (entry_key entry) (entry_endpoint entry) (endpoints_map st)
       end |}.
Proof.
  unfold is_relevant, parse_step. cbv zeta. intros Hr.
  apply andb_true_iff in Hr as [Hs Ha].
  apply negb_true_iff in Hs. rewrite Hs, Ha. done.
Qed.

(** Loop invariants. *)
Lemma parse_loop_ind (I : ParseState -> Prop) :
  I initial_state ->
  (forall st e, I st -> I (parse_step st e)) ->
  forall entries, I (parse_loop entries).
Proof.
  intros H0 Hstep entries. unfold parse_loop.
  revert H0. generalize initial_state.
  induction entries as [|e entries IH]; intros st Hst; simpl; [done|].
  apply IH. by apply Hstep.
Qed.

(** An induction principle for the endpoints the loop stores: a
    property that holds of the endpoint a relevant record creates, and
    that a merge under the same key preserves, holds of every stored
    endpoint. *)
Lemma endpoints_map_ind (P : string -> APIEndpoint -> Prop) :
  (forall e, is_relevant e = true -> P (entry_key e) (entry_endpoint e)) ->
  (forall ex e, is_relevant e = true -> P (entry_key e) ex ->
     P (entry_key e) (merge_query_params ex (query_params (entry_endpoint e)))) ->
  forall entries,
    Forall (fun kv => P kv.1 kv.2) (endpoints_map (parse_loop entries)).
Proof.
  intros Hnew Hmerge.
  apply (parse_loop_ind (fun st => Forall (fun kv => P kv.1 kv.2) (endpoints_map st)));
    [constructor|].
  intros st e Hst.
  destruct (is_relevant e) eqn:Hr.
  - rewrite parse_step_relevant by done. simpl.
    destruct (dict_get (entry_key e) (endpoints_map st)) as [ex|] eqn:Hg.
    + apply dict_set_Forall; [done|]. intros k' ->. simpl.
      apply Hmerge; [done|].
      apply dict_get_Some_elem in Hg.
      by apply (proj1 (Forall_forall _ _) Hst _ Hg).
    + apply dict_set_Forall; [done|]. intros k' ->. by apply Hnew.
  - by rewrite parse_step_skip.
Qed.

Lemma endpoints_ind (P : APIEndpoint -> Prop) :
  (forall e, is_relevant e = true -> P (entry_endpoint e)) ->
  (forall ex e, is_relevant e = true -> P ex ->
     P (merge_query_params ex (query_params (entry_endpoint e)))) ->
  forall entries ep, ep ∈ endpoints (parse entries) -> P ep.
Proof.
  intros Hnew Hmerge entries ep Hep.
  unfold parse, dict_values in Hep. simpl in Hep.
  apply list_elem_of_fmap in Hep as ([k e] & -> & Hin).
  pose proof (endpoints_map_ind (fun _ e => P e) Hnew Hmerge entries) as Hall.
  by apply (proj1 (Forall_forall _ _) Hall _ Hin).
Qed.

Lemma parse_loop_keys_NoDup entries :
  NoDup (dict_keys (endpoints_map (parse_loop entries))).
Proof.
  apply (parse_loop_ind (fun st => NoDup (dict_keys (endpoints_map st))));
    [apply NoDup_nil_2|].
  intros st e Hst.
  destruct (is_relevant e) eqn:Hr.
  - rewrite parse_step_relevant by done. simpl.
    destruct (dict_get _ _); by apply dict_keys_NoDup_set.
  - by rewrite parse_step_skip.
Qed.

End ParseFacts.

(** ** Authentication patterns *)

Lemma header_pattern_elem (headers : list Header) (header : Header) (p : AuthPattern) :
  header ∈ headers -> header_pattern header = Some p -> p ∈ _extract_auth_patterns headers.
Proof.
  intros Hin Hp. unfold _extract_auth_patterns.
  assert (p ∈ omap header_pattern headers) as Hom
    by (apply list_elem_of_omap; eauto).
  destruct (existsb is_auth_cookie headers); [|done].
  apply elem_of_app. by left.
Qed.

Lemma extract_auth_patterns_inv (headers : list Header) (p : AuthPattern) :
  p ∈ _extract_auth_patterns headers ->
  (exists header, header ∈ headers /\ header_pattern header = Some p) \/ p = cookie_pattern.
Proof.
  unfold _extract_auth_patterns. intros Hp.
  assert (p ∈ omap header_pattern headers \/ p = cookie_pattern) as [Hom| ->].
  { destruct (existsb is_auth_cookie headers); [|by left].
    apply elem_of_app in Hp as [?|Hc]; [by left|].
    apply list_elem_of_singleton in Hc. by right. }
  - left. by apply list_elem_of_omap in Hom.
  - by right.
Qed.

(** C10: a header named [Authorization] (in any letter case) always
    yields a pattern tagged [bearer], whatever scheme its value names;
    the tag comes from the header name alone and the masked example
    from the value's prefix alone.  At [Authorization: Basic ...] the
    pattern is tagged [bearer] with example [<api_key>]. *)
Theorem C10_authorization_tagged_bearer (headers : list Header) (header : Header) :
  header ∈ headers ->
  lower (get_name header) = "authorization" ->
  {| auth_type := "bearer";
     header_name := get_name header;
     auth_example_value :=
       if startswith (lower (get_value header)) "bearer "
       then "Bearer <token>" else "<api_key>";
     location := "header" |} ∈ _extract_auth_patterns headers.
Proof.
  intros Hin Hname. apply (header_pattern_elem headers header); [done|].
  unfold header_pattern. rewrite Hname. reflexivity.
Qed.

(** [Authorization: Basic ...] is tagged [bearer] and masked as [<api_key>]. *)
Lemma C10_witness_basic :
  {| auth_type := "bearer"; header_name := "Authorization";
     auth_example_value := "<api_key>"; location := "header" |}
  ∈ _extract_auth_patterns [Examples.hdr "Authorization" "Basic dXNlcjpwYXNz"].
Proof.
  apply (C10_authorization_tagged_bearer
           [Examples.hdr "Authorization" "Basic dXNlcjpwYXNz"]
           (Examples.hdr "Authorization" "Basic dXNlcjpwYXNz")).
  - left.
  - reflexivity.
Defined.

(** ** Merging and parameter lists *)

Lemma set_query_params_twice e a b :
  set_query_params (set_query_params e a) b = set_query_params e b.
Proof. reflexivity. Qed.

Lemma set_query_params_same e : set_query_params e (query_params e) = e.
Proof. by destruct e. Qed.

(** The merge keeps the existing parameters and appends, in order, the
    new ones whose name the endpoint did not have. *)
Lemma merge_query_params_spec (existing : APIEndpoint) (new_params : list RequestParam) :
  merge_query_params existing new_params =
  set_query_params existing
    (query_params existing ++
     filter (fun p => str_in (name p) (map name (query_params existing)) = false) new_params).
Proof.
  unfold merge_query_params.
  generalize (map name (query_params existing)) as names. intros names.
  revert existing.
  induction new_params as [|p ps IH]; intros existing; simpl.
  - by rewrite filter_nil, app_nil_r, set_query_params_same.
  - rewrite filter_cons.
    destruct (decide (str_in (name p) names = false)) as [E|E].
    + rewrite E. simpl. rewrite IH. simpl.
      rewrite set_query_params_twice. by rewrite <- app_assoc.
    + apply not_false_is_true in E. rewrite E. simpl. apply IH.
Qed.

Lemma extract_query_params_not_framework `{PyLib} (url : string) (p : RequestParam) :
  p ∈ _extract_query_params url -> framework_param (name p) = false.
Proof.
  unfold _extract_query_params. intros Hp.
  apply list_elem_of_omap in Hp as ([n vs] & _ & Hq).
  unfold query_param in Hq.
  destruct (framework_param n) eqn:E; [done|].
  by injection Hq as <-.
Qed.

Lemma uuid_name_not_framework i : framework_param (uuid_name i) = false.
Proof. unfold uuid_name. by destruct (0 <? i)%nat. Qed.

Lemma numeric_name_not_framework i : framework_param (numeric_name i) = false.
Proof. unfold numeric_name. by destruct (0 <? i)%nat. Qed.

Lemma foldl_snd_Forall {A B} (Q : B -> Prop) (f : string * list B -> A -> string * list B)
    (l : list A) (acc : string * list B) :
  (forall acc x, Forall Q (snd acc) -> Forall Q (snd (f acc x))) ->
  Forall Q (snd acc) -> Forall Q (snd (foldl f acc l)).
Proof.
  intros Hf. revert acc. induction l as [|x l IH]; intros acc Hacc; simpl; [done|].
  apply IH. by apply Hf.
Qed.

Lemma extract_path_params_not_framework (path : string) :
  Forall (fun p => framework_param (name p) = false) (snd (_extract_path_params path)).
Proof.
  unfold _extract_path_params.
  apply foldl_snd_Forall.
  - intros [np ps] [i m] Hps. unfold numeric_step.
    destruct (negb _); [|done]. simpl in *.
    apply Forall_app. split; [done|].
    constructor; [apply numeric_name_not_framework | constructor].
  - apply foldl_snd_Forall; [|constructor].
    intros [np ps] [i m] Hps. simpl in *.
    apply Forall_app. split; [done|].
    constructor; [apply uuid_name_not_framework | constructor].
Qed.

Lemma param_properties_keys (l : list RequestParam) (acc : list (string * json)) (k : string) :
  k ∈ dict_keys (foldl (fun props param => dict_set (name param) (param_prop param) props)
                       acc l) ->
  k ∈ dict_keys acc \/ k ∈ map name l.
Proof.
  revert acc. induction l as [|p l IH]; intros acc Hk; simpl in *; [by left|].
  apply IH in Hk as [Hk|Hk]; [|right; by right].
  rewrite dict_keys_set in Hk.
  destruct (dict_get (name p) acc); [by left|].
  apply elem_of_app in Hk as [?|Hk]; [by left|].
  apply list_elem_of_singleton in Hk. subst. right. left.
Qed.

Lemma param_schema_keys (params : list RequestParam) (props : list (string * json)) (k : string) :
  json_get "properties" (_generate_param_schema params) = Some (JDict props) ->
  k ∈ dict_keys props -> k ∈ map name params.
Proof.
  unfold _generate_param_schema.
  destruct params as [|p0 ps]; [done|].
  generalize (p0 :: ps) as params. intros params.
  remember (foldl _ _ params) as properties eqn:Eprops.
  intros Hg Hk.
  assert (props = properties) as ->.
  { destruct (map name (filter _ params)); simpl in Hg; by injection Hg. }
  subst properties.
  apply param_properties_keys in Hk as [Hk|Hk]; [|done].
  by apply not_elem_of_nil in Hk.
Qed.

Lemma input_schema_keys (ep : APIEndpoint) (props : list (string * json)) (k : string) :
  json_get "properties" (input_schema ep) = Some (JDict props) ->
  k ∈ dict_keys props ->
  k ∈ map name (path_params ep ++ query_params ep) \/ k = "body".
Proof.
  unfold input_schema.
  generalize (path_params ep ++ query_params ep) as params. intros params.
  destruct (truthy (request_body ep)); [|intros; left; by eapply param_schema_keys].
  destruct (json_get "properties" (_generate_body_schema (request_body ep))) as [bprops|];
    [|intros; left; by eapply param_schema_keys].
  destruct (truthy bprops); [|intros; left; by eapply param_schema_keys].
  pose proof (param_schema_keys params) as Hkeys.
  unfold _generate_param_schema in *.
  destruct params as [|p0 ps].
  { cbn. intros [= <-] Hk. right. cbn in Hk.
    by apply list_elem_of_singleton in Hk. }
  revert Hkeys. generalize (p0 :: ps) as params. intros params.
  remember (foldl _ _ params) as properties eqn:Eprops. intros Hkeys.
  assert (forall k, k ∈ dict_keys properties -> k ∈ map name params) as Hprops.
  { intros k' Hk'. apply (Hkeys properties); [|done].
    by destruct (map name (filter _ params)). }
  intros Hg Hk.
  assert (props = dict_set "body"
            (JDict [("type", JStr "object"); ("description", JStr "Request body");
                    ("properties", bprops)]) properties) as ->.
  { destruct (map name (filter _ params)); cbn in Hg; by injection Hg. }
  rewrite dict_keys_set in Hk.
  destruct (dict_get "body" properties); [left; by apply Hprops|].
  apply elem_of_app in Hk as [Hk|Hk]; [left; by apply Hprops|].
  apply list_elem_of_singleton in Hk. by right.
Qed.

(** C9: a query parameter whose name starts with an underscore, or is
    [rsc], [callback] or [jsonp], is dropped when the record is read:
    no endpoint of the parsed service carries one among its
    parameters, so the property names of the endpoint's generated
    input schema carry none either. *)
Theorem C9_framework_params_excluded `{PyLib} (entries : list Entry) (ep : APIEndpoint) :
  ep ∈ endpoints (parse entries) ->
  (forall p, p ∈ query_params ep ->
     startswith (name p) "_" = false /\ name p ∉ ["rsc"; "callback"; "jsonp"]) /\
  (forall p, p ∈ path_params ep ++ query_params ep -> framework_param (name p) = false) /\
  (forall props k,
     json_get "properties" (input_schema ep) = Some (JDict props) ->
     k ∈ dict_keys props -> framework_param k = false).
Proof.
  intros Hep.
  assert (Forall (fun p => framework_param (name p) = false) (query_params ep) /\
          Forall (fun p => framework_param (name p) = false) (path_params ep)) as [Hq Hp].
  { revert ep Hep. apply endpoints_ind.
    - intros e0 _. simpl. split.
      + apply Forall_forall. intros p. apply extract_query_params_not_framework.
      + apply extract_path_params_not_framework.
    - intros ex e0 _ [Hq Hp]. rewrite merge_query_params_spec. simpl. split; [|done].
      apply Forall_app. split; [done|].
      apply Forall_forall. intros p Hin'.
      apply list_elem_of_filter in Hin' as [_ Hin'].
      by apply extract_query_params_not_framework in Hin'. }
  assert (forall p, p ∈ path_params ep ++ query_params ep -> framework_param (name p) = false)
    as Hall.
  { intros p Hin. apply elem_of_app in Hin as [Hin|Hin].
    - by apply (proj1 (Forall_forall _ _) Hp).
    - by apply (proj1 (Forall_forall _ _) Hq). }
  split; [|split; [done|]].
  - intros p Hin. apply (proj1 (Forall_forall _ _) Hq) in Hin.
    unfold framework_param in Hin. apply orb_false_iff in Hin as [Hs Hl].
    split; [done|]. intros Hmem. apply str_in_true in Hmem. congruence.
  - intros props k Hprops Hk.
    apply (input_schema_keys _ _ _ Hprops) in Hk as [Hk| ->]; [|done].
    apply list_elem_of_fmap in Hk as (p & -> & Hin). by apply Hall.
Qed.

(** A query string with [_t], [callback], [rsc] and [jsonp] beside [page]. *)
Lemma C9_witness_framework_record :
  let ep := @entry_endpoint (Examples.lib []) Examples.framework_record in
  (forall p, p ∈ query_params ep ->
     startswith (name p) "_" = false /\ name p ∉ ["rsc"; "callback"; "jsonp"]) /\
  (forall p, p ∈ path_params ep ++ query_params ep -> framework_param (name p) = false) /\
  (forall props k,
     json_get "properties" (input_schema ep) = Some (JDict props) ->
     k ∈ dict_keys props -> framework_param k = false).
Proof.
  intros ep.
  apply (@C9_framework_params_excluded (Examples.lib []) [Examples.framework_record] ep).
  vm_compute. left.
Defined.

(** ** The record classifier *)

Lemma existsb_elem {A} (f : A -> bool) (l : list A) :
  existsb f l = true <-> exists x, x ∈ l /\ f x = true.
Proof.
  rewrite existsb_exists. split; intros (x & Hx & Hf); exists x;
    (split; [by apply list_elem_of_In | done]).
Qed.

Lemma header_declares_json_iff (hname : string) (headers : list Header) :
  existsb (header_declares_json hname) headers = true <->
  exists h, h ∈ headers /\ lower (get_name h) = hname /\
            contains "application/json" (lower (get_value h)) = true.
Proof.
  rewrite existsb_elem. unfold header_declares_json.
  split; intros (h & Hin & Hh); exists h; (split; [done|]).
  - apply andb_true_iff in Hh as [Hn Hv]. by apply String.eqb_eq in Hn.
  - destruct Hh as [Hn Hv]. apply andb_true_iff. split; [by apply String.eqb_eq | done].
Qed.

(** A record that only its response's [Content-Type] declares to be JSON: the
    wording of the specification accepts it, the classifier does not, and
    no endpoint is produced. *)
Lemma C6_counterexample_response_content_type :
  @classifier_as_specified (Examples.lib [("{}", JDict [])]) Examples.json_response_only = true /\
  @is_relevant (Examples.lib [("{}", JDict [])]) Examples.json_response_only = false /\
  endpoints (@parse (Examples.lib [("{}", JDict [])]) [Examples.json_response_only]) = [].
Proof. vm_compute. done. Qed.

(** C6 (amended): the classifier applies its rules in order.  A record
    whose lower-cased request path ends in a static-asset extension or
    contains a static-asset directory is rejected whatever its headers
    say, and produces no endpoint.  Any other record is accepted if and
    only if the lower-cased path contains [/api/], [/v1/] or [/v2/], or
    a request header named [Accept] or [Content-Type] (in any letter
    case) has a value that contains [application/json] (in any letter
    case).  The response headers are not consulted. *)
Theorem C6_classifier_rules `{PyLib} (entry : Entry) :
  let request := default empty_request (e_request entry) in
  let url := default "" (r_url request) in
  let headers := default [] (r_headers request) in
  let lpath := lower (u_path (urlparse url)) in
  (_is_static_resource url = true <->
     (exists ext, ext ∈ STATIC_EXTENSIONS /\ endswith lpath ext = true) \/
     (exists dir, dir ∈ ["/_next/static"; "/static/"; "/assets/"; "/public/"] /\
                  contains dir lpath = true)) /\
  (_is_static_resource url = true ->
     is_relevant entry = false /\ forall st, parse_step st entry = st) /\
  (endswith lpath ".png" = true \/ endswith lpath ".js" = true ->
     forall st, parse_step st entry = st) /\
  (_is_static_resource url = false ->
     (is_relevant entry = true <->
        contains "/api/" lpath = true \/ contains "/v1/" lpath = true \/
        contains "/v2/" lpath = true \/
        (exists h, h ∈ headers /\ lower (get_name h) = "accept" /\
                   contains "application/json" (lower (get_value h)) = true) \/
        (exists h, h ∈ headers /\ lower (get_name h) = "content-type" /\
                   contains "application/json" (lower (get_value h)) = true))) /\
  (is_relevant entry = false -> forall st, parse_step st entry = st).
Proof.
  intros request url headers lpath.
  assert (_is_static_resource url = true <->
     (exists ext, ext ∈ STATIC_EXTENSIONS /\ endswith lpath ext = true) \/
     (exists dir, dir ∈ ["/_next/static"; "/static/"; "/assets/"; "/public/"] /\
                  contains dir lpath = true)) as Hstatic.
  { unfold _is_static_resource. fold lpath.
    rewrite orb_true_iff, !existsb_elem. done. }
  assert (_is_static_resource url = true ->
     is_relevant entry = false /\ forall st, parse_step st entry = st) as Hrej.
  { intros Hs.
    assert (is_relevant entry = false) as Hr.
    { unfold is_relevant. fold request url. by rewrite Hs. }
    split; [done|]. intros st. by apply parse_step_skip. }
  split; [done|]. split; [done|]. split; [|split].
  - intros Hext st. apply Hrej. apply Hstatic. left.
    destruct Hext as [Hext|Hext].
    + exists ".png". split; [|done]. apply str_in_true. reflexivity.
    + exists ".js". split; [|done]. apply str_in_true. reflexivity.
  - intros Hs. unfold is_relevant. fold request url headers. rewrite Hs. simpl.
    unfold _is_api_call. fold lpath.
    rewrite !orb_true_iff, !header_declares_json_iff. tauto.
  - intros Hr st. by apply parse_step_skip.
Qed.

(** A path under [/api/] that ends in [.PNG] leaves the state as it was. *)
Lemma C6_witness_png :
  let lib := Examples.lib [] in
  parse_step initial_state (Examples.get "https://example.com/api/logo.PNG") = initial_state.
Proof.
  intros lib.
  apply (proj1 (proj2 (proj2
           (@C6_classifier_rules lib (Examples.get "https://example.com/api/logo.PNG"))))).
  left. vm_compute. reflexivity.
Defined.

(** ** The aggregation key *)

Section KeyFacts.
Context `{PyLib}.

Lemma entry_endpoint_key (e : Entry) : endpoint_key (entry_endpoint e) = entry_key e.
Proof. reflexivity. Qed.

Lemma merge_query_params_key (ex : APIEndpoint) (qs : list RequestParam) :
  endpoint_key (merge_query_params ex qs) = endpoint_key ex.
Proof. by rewrite merge_query_params_spec. Qed.

(** Every stored endpoint sits under its own key. *)
Lemma endpoints_map_keys (entries : list Entry) :
  dict_keys (endpoints_map (parse_loop entries)) =
  map endpoint_key (endpoints (parse entries)).
Proof.
  unfold parse, dict_values, dict_keys. simpl. rewrite map_map.
  apply map_ext_Forall.
  pose proof (endpoints_map_ind (fun k e => k = endpoint_key e)) as Hind.
  apply Hind.
  - intros e _. by rewrite entry_endpoint_key.
  - intros ex e _ Hk. by rewrite merge_query_params_key.
Qed.

Lemma parse_loop_snoc (entries : list Entry) (e : Entry) :
  parse_loop (entries ++ [e]) = parse_step (parse_loop entries) e.
Proof. unfold parse_loop. by rewrite foldl_app. Qed.

Lemma parse_step_keys_grow (st : ParseState) (e : Entry) (k : string) :
  k ∈ dict_keys (endpoints_map st) -> k ∈ dict_keys (endpoints_map (parse_step st e)).
Proof.
  intros Hk. destruct (is_relevant e) eqn:Hr.
  - rewrite parse_step_relevant by done. simpl.
    destruct (dict_get _ _) eqn:Hg; rewrite dict_keys_set, ?Hg; [done|].
    apply elem_of_app. by left.
  - by rewrite parse_step_skip.
Qed.

Lemma parse_step_key_stored (st : ParseState) (e : Entry) :
  is_relevant e = true -> entry_key e ∈ dict_keys (endpoints_map (parse_step st e)).
Proof.
  intros Hr. rewrite parse_step_relevant by done. simpl.
  destruct (dict_get _ _) eqn:Hg; rewrite dict_keys_set, Hg.
  - apply dict_get_Some_elem in Hg. apply list_elem_of_fmap. by exists (entry_key e, a).
  - apply elem_of_app. right. left.
Qed.

Lemma relevant_key_stored (entries : list Entry) (e : Entry) :
  e ∈ entries -> is_relevant e = true ->
  entry_key e ∈ dict_keys (endpoints_map (parse_loop entries)).
Proof.
  induction entries as [|e' entries IH] using rev_ind; intros Hin Hr.
  - by apply not_elem_of_nil in Hin.
  - rewrite parse_loop_snoc. apply elem_of_app in Hin as [Hin|Hin].
    + apply parse_step_keys_grow. by apply IH.
    + apply list_elem_of_singleton in Hin. subst. by apply parse_step_key_stored.
Qed.
End KeyFacts.

(** [GET /api/items] observed on two hosts gives two endpoints with the
    same method and normalised path. *)
Lemma C2_counterexample_two_hosts :
  ~ NoDup (map (fun e => (method e, path e))
               (endpoints (@parse (Examples.lib []) Examples.two_hosts))).
Proof.
  vm_compute. intros Hnd. apply NoDup_cons in Hnd as [Hnotin _].
  apply Hnotin. left.
Qed.

(** C2 (amended): in every service model produced from a trace, the
    aggregation key [method:base_url+path] is unique across the
    endpoint list, so no two endpoints with the same base URL share
    both the method and the normalised path; every relevant record's
    key is the key of an endpoint of the list, so repeated observations
    under one key share one endpoint. *)
Theorem C2_endpoint_key_unique `{PyLib} (entries : list Entry) :
  NoDup (map endpoint_key (endpoints (parse entries))) /\
  (forall i j e1 e2,
     endpoints (parse entries) !! i = Some e1 ->
     endpoints (parse entries) !! j = Some e2 ->
     method e1 = method e2 -> base_url e1 = base_url e2 -> path e1 = path e2 ->
     i = j) /\
  (forall e, e ∈ entries -> is_relevant e = true ->
     exists ep, ep ∈ endpoints (parse entries) /\ endpoint_key ep = entry_key e).
Proof.
  assert (NoDup (map endpoint_key (endpoints (parse entries)))) as Hnd.
  { rewrite <- endpoints_map_keys. apply parse_loop_keys_NoDup. }
  split; [done|]. split.
  - intros i j e1 e2 Hi Hj Hm Hb Hp.
    eapply (NoDup_lookup _ i j (endpoint_key e1) Hnd).
    + rewrite list_lookup_fmap, Hi. done.
    + rewrite list_lookup_fmap, Hj. simpl. unfold endpoint_key. by rewrite Hm, Hb, Hp.
  - intros e Hin Hr.
    pose proof (relevant_key_stored entries e Hin Hr) as Hk.
    rewrite endpoints_map_keys in Hk.
    apply list_elem_of_fmap in Hk as (ep & Hkey & Hep). by exists ep.
Qed.

(** The second record of the two-host trace has its endpoint. *)
Lemma C2_witness_two_hosts :
  let lib := Examples.lib [] in
  exists ep, ep ∈ endpoints (parse Examples.two_hosts) /\
             endpoint_key ep = entry_key (Examples.get "https://b.example.com/api/items").
Proof.
  intros lib.
  apply (proj2 (proj2 (@C2_endpoint_key_unique lib Examples.two_hosts))).
  - right. left.
  - vm_compute. reflexivity.
Defined.

(** ** Merging repeated observations *)

Lemma merge_query_params_fields (existing : APIEndpoint) (new_params : list RequestParam) :
  let merged := merge_query_params existing new_params in
  query_params merged =
    query_params existing ++
    filter (fun p => name p ∉ map name (query_params existing)) new_params /\
  path_params merged = path_params existing /\
  request_body merged = request_body existing /\
  response_example merged = response_example existing /\
  merged = set_query_params existing (query_params merged).
Proof.
  intros merged. subst merged. rewrite merge_query_params_spec. simpl.
  repeat split; try done.
  f_equal. apply list_filter_iff. intros p. rewrite <- str_in_true.
  destruct (str_in _ _); split; congruence.
Qed.

(** C5: when a relevant record's key is already stored, the step
    appends to the stored endpoint the record's query parameters whose
    names it does not have yet, in order, and changes nothing else: the
    parameters already present keep their place, example value and
    required flag, the endpoint keeps every other field, and every
    other endpoint and the order of the endpoints are untouched.  So
    [?page=1], then [?search=foo], then [?page=2] on one endpoint give
    one endpoint with [page] (example [1]) and [search]. *)
Theorem C5_merge_adds_only_new_query_params :
  (forall (lib : PyLib) (st : ParseState) (entry : Entry) (existing : APIEndpoint),
     is_relevant entry = true ->
     dict_get (entry_key entry) (endpoints_map st) = Some existing ->
     let url := default "" (r_url (default empty_request (e_request entry))) in
     exists merged,
       dict_get (entry_key entry) (endpoints_map (parse_step st entry)) = Some merged /\
       query_params merged =
         query_params existing ++
         filter (fun p => name p ∉ map name (query_params existing))
                (_extract_query_params url) /\
       (forall i p, query_params existing !! i = Some p -> query_params merged !! i = Some p) /\
       path_params merged = path_params existing /\
       request_body merged = request_body existing /\
       response_example merged = response_example existing /\
       merged = set_query_params existing (query_params merged) /\
       dict_keys (endpoints_map (parse_step st entry)) = dict_keys (endpoints_map st) /\
       (forall k, k <> entry_key entry ->
          dict_get k (endpoints_map (parse_step st entry)) = dict_get k (endpoints_map st))) /\
  (exists ep,
     endpoints (@parse (Examples.lib []) Examples.paged) = [ep] /\
     map (fun p => (name p, example_value p, required p)) (query_params ep) =
       [("page", JStr "1", false); ("search", JStr "foo", false)]).
Proof.
  split.
  - intros lib st entry existing Hr Hg url.
    exists (merge_query_params existing (query_params (entry_endpoint entry))).
    rewrite parse_step_relevant by done. cbn [endpoints_map]. rewrite Hg.
    rewrite dict_get_set_eq, dict_keys_set, Hg.
    pose proof (merge_query_params_fields existing (query_params (entry_endpoint entry)))
      as (Hq & Hp & Hb & Hx & Hset).
    change (query_params (entry_endpoint entry)) with (_extract_query_params url) in *.
    repeat split; try done.
    + intros i p Hi. rewrite Hq. by apply lookup_app_l_Some.
    + intros k Hk. by apply dict_get_set_ne.
  - eexists. split; [vm_compute; reflexivity|]. reflexivity.
Qed.

(** A third observation with [?page=2] finds [page] stored and changes
    nothing. *)
Lemma C5_witness_second_page_observation :
  let lib := Examples.lib [] in
  let st := parse_loop (take 2 Examples.paged) in
  let entry := Examples.get "https://api.example.com/api/items?page=2" in
  exists existing merged,
    dict_get (entry_key entry) (endpoints_map st) = Some existing /\
    dict_get (entry_key entry) (endpoints_map (parse_step st entry)) = Some merged /\
    query_params merged = query_params existing /\
    merged = existing.
Proof.
  intros lib st entry.
  assert (is_relevant entry = true) as Hr by (vm_compute; reflexivity).
  destruct (dict_get (entry_key entry) (endpoints_map st)) as [existing|] eqn:Hg;
    [|vm_compute in Hg; discriminate].
  destruct (proj1 C5_merge_adds_only_new_query_params lib st entry existing Hr Hg)
    as (merged & Hm & Hq & _ & _ & _ & _ & Heq & _).
  exists existing, merged. split; [done|]. split; [done|].
  assert (query_params merged = query_params existing) as Hsame.
  { rewrite Hq. vm_compute in Hg. injection Hg as <-. vm_compute. reflexivity. }
  split; [done|]. rewrite Heq, Hsame. apply set_query_params_same.
Defined.

(** ** Service identity *)

Lemma insertion_order_lawful json_texts : @set_iter_lawful (Examples.lib json_texts).
Proof. intros l _. reflexivity. Qed.

Lemma reverse_order_lawful json_texts : @set_iter_lawful (Examples.lib_rev json_texts).
Proof. intros l _. simpl. unfold reverse_order. apply reverse_Permutation. Qed.

(** C7 (the code departs from it): the service name and the base URL
    are taken from the iteration order of a set of hosts, which the
    runtime chooses.  For the trace with the hosts [a.example.com] and
    [b.example.com], two lawful iteration orders give different service
    names, base URLs, package names and environment templates. *)
Theorem C7_identity_follows_set_order :
  @set_iter_lawful (Examples.lib []) /\ @set_iter_lawful (Examples.lib_rev []) /\
  let s1 := @parse (Examples.lib []) Examples.two_hosts in
  let s2 := @parse (Examples.lib_rev []) Examples.two_hosts in
  service_name s1 = "a-example" /\ service_name s2 = "b-example" /\
  service_base_url s1 = "https://a.example.com" /\
  service_base_url s2 = "https://b.example.com" /\
  server_name s1 <> server_name s2 /\
  env_example s1 <> env_example s2.
Proof.
  split; [apply insertion_order_lawful|]. split; [apply reverse_order_lawful|].
  vm_compute. repeat split; discriminate.
Qed.

(** ** Response truncation *)

Lemma truncate_response_le_0 (data : json) (max_depth : Z) :
  (max_depth <= 0)%Z -> _truncate_response data max_depth = truncated_marker.
Proof.
  intros Hd. destruct data; simpl; by rewrite (proj2 (Z.leb_le _ _) Hd).
Qed.

Lemma truncate_response_dict (items : list (string * json)) (max_depth : Z) :
  (0 < max_depth)%Z ->
  _truncate_response (JDict items) max_depth =
  JDict (map (fun kv => (fst kv, truncate_value max_depth (snd kv))) (take 10 items)).
Proof.
  intros Hd. simpl. rewrite (proj2 (Z.leb_gt _ _) Hd). f_equal.
  generalize 10%nat as n. induction items as [|[k v] items IH]; intros n.
  - by destruct n.
  - destruct n as [|n]; [done|]. simpl. rewrite IH. reflexivity.
Qed.

Lemma truncate_response_is_dict (data : list (string * json)) (max_depth : Z) :
  exists items, _truncate_response (JDict data) max_depth = JDict items.
Proof.
  destruct (Z.le_gt_cases max_depth 0) as [Hd|Hd].
  - rewrite truncate_response_le_0 by done. by eexists.
  - rewrite truncate_response_dict by done. by eexists.
Qed.

Lemma truncate_response_bounded (depth : nat) (items : list (string * json)) :
  bounded_along_mappings depth (_truncate_response (JDict items) (Z.of_nat depth)) = true.
Proof.
  revert items. induction depth as [|depth IH]; intros items.
  - by rewrite truncate_response_le_0.
  - rewrite truncate_response_dict by lia.
    change (bounded_along_mappings (S depth) (JDict ?its)) with
      ((length its <=? 10)%nat &&
       forallb (fun kv =>
                  match snd kv with
                  | JDict _ => bounded_along_mappings depth (snd kv)
                  | JList seq => (length seq <=? 2)%nat
                  | _ => true
                  end) its).
    apply andb_true_iff. split.
    + apply Nat.leb_le. rewrite length_map, length_take. lia.
    + apply forallb_forall. intros [k v] Hin.
      apply in_map_iff in Hin as ([k0 v0] & [= <- <-] & _).
      unfold snd, truncate_value.
      destruct v0 as [| | | | |l|items0]; try done.
      * destruct (2 <? length l)%nat eqn:E.
        -- apply Nat.leb_le. rewrite length_take. lia.
        -- apply Nat.leb_le. apply Nat.ltb_ge in E. lia.
      * replace (Z.of_nat (S depth) - 1)%Z with (Z.of_nat depth) by lia.
        destruct (truncate_response_is_dict items0 (Z.of_nat depth)) as [items' E].
        specialize (IH items0). rewrite E in *. done.
Qed.

(** A sequence inside a sequence keeps its three elements, at the top level
    and under a mapping. *)
Lemma C4_counterexample_sequence_in_sequence :
  let lib := Examples.lib Examples.response_texts in
  let example := _extract_response_example (Examples.json_response Examples.nested_sequence_text) in
  let example' :=
    _extract_response_example (Examples.json_response Examples.sequence_in_mapping_text) in
  example = JList [JList [JInt 1; JInt 2; JInt 3]] /\
  bounded_as_specified example = false /\
  example' = JDict [("a", JList [JList [JInt 1; JInt 2; JInt 3]])] /\
  bounded_as_specified example' = false.
Proof. vm_compute. done. Qed.

(** C4 (amended): the truncation of a response object runs with depth
    3.  An object keeps its first ten keys; a value that is an object
    is truncated with one less depth and becomes the [truncated] marker
    once the depth left is zero or less; a sequence held directly by an
    object keeps its first two elements when it has more; a top-level
    sequence keeps its first two elements when it has more.  What a
    sequence holds is kept as it is.  So an object with 20 keys gives
    its first ten keys and no marker, and an object nested five deep
    gives the marker at depth 3. *)
Theorem C4_truncation_policy :
  (forall data max_depth,
     (max_depth <= 0)%Z -> _truncate_response data max_depth = truncated_marker) /\
  (forall items max_depth,
     (0 < max_depth)%Z ->
     _truncate_response (JDict items) max_depth =
     JDict (map (fun kv => (fst kv, truncate_value max_depth (snd kv))) (take 10 items))) /\
  (forall items, bounded_along_mappings 3 (_truncate_response (JDict items) 3) = true) /\
  (forall (lib : PyLib) response text mime data,
     resp_content response = Some {| c_text := Some text; c_mimeType := Some mime |} ->
     text <> "" -> contains "json" mime = true -> json_loads text = Some data ->
     _extract_response_example response =
     match data with
     | JDict _ => _truncate_response data 3
     | JList l => if (2 <? length l)%nat then JList (take 2 l) else data
     | _ => data
     end) /\
  (forall items,
     length items = 20%nat ->
     exists items',
       _truncate_response (JDict items) 3 = JDict items' /\
       length items' = 10%nat /\
       map fst items' = take 10 (map fst items) /\
       JDict items' <> truncated_marker) /\
  _truncate_response Examples.nested_five 3 =
    JDict [("a", JDict [("b", JDict [("c", truncated_marker)])])].
Proof.
  split; [apply truncate_response_le_0|].
  split; [apply truncate_response_dict|].
  split; [apply (truncate_response_bounded 3)|].
  split; [|split; [|reflexivity]].
  - intros lib response text mime data Hc Ht Hm Hl.
    unfold _extract_response_example. rewrite Hc. simpl.
    apply String.eqb_neq in Ht. rewrite Ht, Hm, Hl. done.
  - intros items Hlen. eexists. split; [by apply truncate_response_dict|].
    assert (length (take 10 items) = 10%nat) as Htake by (rewrite length_take; lia).
    split; [by rewrite length_map|]. split.
    + rewrite map_map. simpl. by rewrite <- fmap_take.
    + intros Heq. injection Heq as Heq.
      apply (f_equal length) in Heq. rewrite length_map, Htake in Heq. done.
Qed.

(** An object with the keys [k0] to [k19]. *)
Lemma C4_witness_twenty_keys :
  exists items',
    _truncate_response (JDict (Examples.numbered_items 20)) 3 = JDict items' /\
    length items' = 10%nat /\
    map fst items' = take 10 (map fst (Examples.numbered_items 20)) /\
    JDict items' <> truncated_marker.
Proof.
  apply (proj1 (proj2 (proj2 (proj2 (proj2 C4_truncation_policy))))).
  vm_compute. reflexivity.
Defined.

(** ** Path normalisation *)

(** C3 (the code departs from it): the numeric segments are replaced at
    the positions they had before any replacement.  After the first
    replacement has changed the length of the path, the second lands
    at the wrong place: [/a/12/b/34] becomes [/a/{id}/{id_1}34], not
    [/a/{id}/b/{id_1}].  The parameters emitted are the expected ones,
    and a path with one numeric segment is normalised as the claim
    says: [/courses/12/modules] and [/courses/77/modules] both give
    [/courses/{id}/modules] with the one parameter [id]. *)
Theorem C3_second_numeric_segment_misplaced :
  _extract_path_params "/a/12/b/34" =
    ("/a/{id}/{id_1}34",
     [ {| name := "id"; param_type := "path"; example_value := JStr "12";
          required := true; description := "Numeric identifier" |};
       {| name := "id_1"; param_type := "path"; example_value := JStr "34";
          required := true; description := "Numeric identifier" |} ]) /\
  _extract_path_params "/courses/12/modules" =
    ("/courses/{id}/modules",
     [ {| name := "id"; param_type := "path"; example_value := JStr "12";
          required := true; description := "Numeric identifier" |} ]) /\
  _extract_path_params "/courses/77/modules" =
    ("/courses/{id}/modules",
     [ {| name := "id"; param_type := "path"; example_value := JStr "77";
          required := true; description := "Numeric identifier" |} ]).
Proof. repeat split; vm_compute; reflexivity. Qed.

(** ** The create command *)

Section CreateFacts.
Context `{PyLib} `{GenLib} `{OsLib}.











End CreateFacts.





(** ** Credentials and what the generator reads *)

Section ValueMap.
Context {V W : Type} (f : V -> W).

Lemma dict_get_vmap k d : dict_get k (vmap f d) = f <$> dict_get k d.
Proof.
  induction d as [|[k' v] d IH]; simpl; [done|].
  by destruct (String.eqb k k').
Qed.

Lemma vmap_dict_set k v d : vmap f (dict_set k v d) = dict_set k (f v) (vmap f d).
Proof.
  induction d as [|[k' v'] d IH]; simpl; [done|].
  destruct (String.eqb k k'); simpl; [done|]. by rewrite IH.
Qed.

Lemma dict_values_vmap d : dict_values (vmap f d) = map f (dict_values d).
Proof. unfold dict_values, vmap. rewrite !map_map. done. Qed.
End ValueMap.

Lemma foldl_Forall2 {A B} (R : B -> B -> Prop) (f : A -> B -> A) (l l' : list B) (a : A) :
  Forall2 R l l' -> (forall acc x y, R x y -> f acc x = f acc y) ->
  foldl f a l = foldl f a l'.
Proof.
  intros Hl Hf. revert a. induction Hl as [|x y l l' Hxy Hl IH]; intros a; simpl; [done|].
  rewrite (Hf a x y Hxy). apply IH.
Qed.

Lemma existsb_Forall2 {A} (R : A -> A -> Prop) (f : A -> bool) (l l' : list A) :
  Forall2 R l l' -> (forall x y, R x y -> f x = f y) -> existsb f l = existsb f l'.
Proof.
  intros Hl Hf. induction Hl as [|x y l l' Hxy Hl IH]; simpl; [done|].
  by rewrite (Hf x y Hxy), IH.
Qed.

Lemma omap_Forall2 {A B C} (R : A -> A -> Prop) (f : A -> option B) (g : B -> C)
    (l l' : list A) :
  Forall2 R l l' -> (forall x y, R x y -> g <$> f x = g <$> f y) ->
  map g (omap f l) = map g (omap f l').
Proof.
  intros Hl Hf. induction Hl as [|x y l l' Hxy Hl IH]; simpl; [done|].
  specialize (Hf x y Hxy).
  destruct (f x), (f y); simpl in *; try done.
  injection Hf as Hf. by f_equal.
Qed.

Section HeaderFacts.
Context (h h' : Header) (Hsame : same_header_but_credential h h').

Lemma same_header_name : get_name h = get_name h'.
Proof. unfold get_name. by rewrite (proj1 Hsame). Qed.

Lemma same_header_value (n : string) :
  dict_get n AUTH_HEADERS = None -> lower (get_name h) = n -> get_value h = get_value h'.
Proof.
  intros Hn Hl. unfold get_value. rewrite (proj2 Hsame); [done|]. by rewrite Hl.
Qed.

Lemma same_header_declares_json (n : string) :
  dict_get n AUTH_HEADERS = None ->
  header_declares_json n h = header_declares_json n h'.
Proof.
  intros Hn. unfold header_declares_json. rewrite <- same_header_name.
  destruct (String.eqb (lower (get_name h)) n) eqn:E; [|done].
  apply String.eqb_eq in E. by rewrite (same_header_value n).
Qed.

Lemma same_header_cookie : is_auth_cookie h = is_auth_cookie h'.
Proof.
  unfold is_auth_cookie. rewrite <- same_header_name.
  destruct (String.eqb (lower (get_name h)) "cookie") eqn:E; [|done].
  apply String.eqb_eq in E. by rewrite (same_header_value "cookie").
Qed.

Lemma same_header_pattern :
  redact_pattern <$> header_pattern h = redact_pattern <$> header_pattern h'.
Proof.
  unfold header_pattern. rewrite <- same_header_name.
  by destruct (dict_get (lower (get_name h)) AUTH_HEADERS).
Qed.
End HeaderFacts.

Lemma same_headers_auth_patterns (hs hs' : list Header) :
  Forall2 same_header_but_credential hs hs' ->
  map redact_pattern (_extract_auth_patterns hs) =
  map redact_pattern (_extract_auth_patterns hs').
Proof.
  intros Hhs. unfold _extract_auth_patterns.
  rewrite (existsb_Forall2 _ is_auth_cookie hs hs' Hhs same_header_cookie).
  pose proof (omap_Forall2 _ header_pattern redact_pattern hs hs' Hhs same_header_pattern)
    as Hom.
  destruct (existsb is_auth_cookie hs'); [|done].
  by rewrite !map_app, Hom.
Qed.

Lemma redact_merge (ex ex' : APIEndpoint) (qs : list RequestParam) :
  redact_endpoint ex = redact_endpoint ex' ->
  redact_endpoint (merge_query_params ex qs) = redact_endpoint (merge_query_params ex' qs).
Proof.
  rewrite !merge_query_params_spec. unfold redact_endpoint, set_query_params. simpl.
  intros Hex. injection Hex as -> -> -> -> -> -> -> -> -> ->. done.
Qed.

Lemma redact_state_eq (st st' : ParseState) :
  vmap redact_endpoint (endpoints_map st) = vmap redact_endpoint (endpoints_map st') ->
  map redact_pattern (all_auth_patterns st) = map redact_pattern (all_auth_patterns st') ->
  base_urls st = base_urls st' ->
  redact_state st = redact_state st'.
Proof. unfold redact_state, vmap. by intros -> -> ->. Qed.

Section EntryFacts.
Context `{PyLib} (e e' : Entry) (Hsame : same_but_credentials e e').

Lemma same_entry_url : r_url (default empty_request (e_request e)) =
             r_url (default empty_request (e_request e')).
Proof. apply Hsame. Qed.

Lemma same_entry_headers :
  Forall2 same_header_but_credential
    (default [] (r_headers (default empty_request (e_request e))))
    (default [] (r_headers (default empty_request (e_request e')))).
Proof. apply Hsame. Qed.

Lemma same_is_relevant : is_relevant e = is_relevant e'.
Proof.
  unfold is_relevant, _is_api_call. rewrite <- same_entry_url.
  rewrite (existsb_Forall2 _ (header_declares_json "accept") _ _ same_entry_headers)
    by (intros x y Hxy; by apply same_header_declares_json).
  rewrite (existsb_Forall2 _ (header_declares_json "content-type") _ _ same_entry_headers)
    by (intros x y Hxy; by apply same_header_declares_json).
  done.
Qed.

Lemma same_entry_base_url : entry_base_url e = entry_base_url e'.
Proof. unfold entry_base_url. by rewrite same_entry_url. Qed.

Lemma same_entry_key : entry_key e = entry_key e'.
Proof.
  unfold entry_key. rewrite same_entry_base_url, same_entry_url.
  by rewrite (proj1 (proj2 (proj2 Hsame))).
Qed.

Lemma same_entry_endpoint :
  redact_endpoint (entry_endpoint e) = redact_endpoint (entry_endpoint e').
Proof.
  pose proof Hsame as (Hresp & _ & Hm & Hpd & _).
  unfold entry_endpoint, redact_endpoint. simpl.
  rewrite same_entry_base_url, same_entry_url, Hm, Hresp.
  unfold _extract_request_body. by rewrite Hpd.
Qed.

Lemma same_entry_query_params :
  query_params (entry_endpoint e) = query_params (entry_endpoint e').
Proof. simpl. by rewrite same_entry_url. Qed.

Lemma same_step (st st' : ParseState) :
  redact_state st = redact_state st' ->
  redact_state (parse_step st e) = redact_state (parse_step st' e').
Proof.
  intros Hst.
  pose proof (f_equal endpoints_map Hst) as Hm.
  pose proof (f_equal all_auth_patterns Hst) as Ha.
  pose proof (f_equal base_urls Hst) as Hb. simpl in Hm, Ha, Hb.
  fold (vmap redact_endpoint (endpoints_map st)) in Hm.
  fold (vmap redact_endpoint (endpoints_map st')) in Hm.
  destruct (is_relevant e) eqn:Hr.
  - rewrite !parse_step_relevant by (by rewrite <- ?same_is_relevant).
    apply redact_state_eq; cbn [endpoints_map all_auth_patterns base_urls].
    + rewrite <- same_entry_key, <- same_entry_query_params.
      pose proof (dict_get_vmap redact_endpoint (entry_key e) (endpoints_map st)) as Hg.
      pose proof (dict_get_vmap redact_endpoint (entry_key e) (endpoints_map st')) as Hg'.
      rewrite Hm in Hg. rewrite Hg in Hg'.
      destruct (dict_get (entry_key e) (endpoints_map st)) as [ex|],
               (dict_get (entry_key e) (endpoints_map st')) as [ex'|];
        simpl in Hg'; try done.
      * injection Hg' as Hex. rewrite !vmap_dict_set, Hm. f_equal.
        apply redact_merge. unfold redact_endpoint. congruence.
      * rewrite !vmap_dict_set, Hm. by rewrite same_entry_endpoint.
    + rewrite !map_app, Ha. f_equal. apply same_headers_auth_patterns, same_entry_headers.
    + by rewrite Hb, same_entry_base_url.
  - rewrite !parse_step_skip by (by rewrite <- ?same_is_relevant). done.
Qed.
End EntryFacts.

Section TraceFacts.
Context `{PyLib}.

Lemma same_parse_loop (entries entries' : list Entry) :
  Forall2 same_but_credentials entries entries' ->
  redact_state (parse_loop entries) = redact_state (parse_loop entries').
Proof.
  intros Hes. unfold parse_loop.
  assert (redact_state initial_state = redact_state initial_state) as Hst by done.
  revert Hst. generalize initial_state at 1 3 as st. generalize initial_state as st'.
  induction Hes as [|e e' es es' He Hes IH]; intros st' st Hst; simpl; [done|].
  apply IH. by apply same_step.
Qed.

Lemma same_service_hosts (entries entries' : list Entry) :
  Forall2 same_but_credentials entries entries' ->
  service_hosts entries = service_hosts entries'.
Proof.
  intros Hes. unfold service_hosts.
  apply (foldl_Forall2 same_but_credentials); [done|].
  intros acc e e' He. by rewrite (same_entry_url e e' He).
Qed.

Lemma unique_auth_redact (all : list AuthPattern) :
  vmap redact_pattern (unique_auth all) = unique_auth (map redact_pattern all).
Proof.
  unfold unique_auth.
  change (@nil (string * AuthPattern)) with (vmap redact_pattern []) at 2.
  generalize (@nil (string * AuthPattern)) as acc.
  induction all as [|p all IH]; intros acc; simpl; [done|].
  rewrite IH. f_equal.
  change (auth_key (redact_pattern p)) with (auth_key p).
  rewrite dict_get_vmap.
  destruct (dict_get (auth_key p) acc); simpl; [done|].
  by rewrite vmap_dict_set.
Qed.

Lemma same_parse (entries entries' : list Entry) :
  Forall2 same_but_credentials entries entries' ->
  redact_service (parse entries) = redact_service (parse entries').
Proof.
  intros Hes.
  pose proof (same_parse_loop _ _ Hes) as Hst.
  pose proof (f_equal endpoints_map Hst) as Hm.
  pose proof (f_equal all_auth_patterns Hst) as Ha.
  pose proof (f_equal base_urls Hst) as Hb.
  cbn [redact_state endpoints_map all_auth_patterns base_urls] in Hm, Ha, Hb.
  unfold parse, redact_service, _extract_service_name.
  cbn [service_name service_base_url service_description auth_patterns endpoints].
  rewrite (same_service_hosts _ _ Hes), Hb.
  rewrite <- !dict_values_vmap, !unique_auth_redact, Ha.
  fold (vmap redact_endpoint (endpoints_map (parse_loop entries))) in Hm.
  fold (vmap redact_endpoint (endpoints_map (parse_loop entries'))) in Hm.
  by rewrite Hm.
Qed.
End TraceFacts.

Section GeneratorFacts.
Context `{GenLib}.

Lemma map_redact_endpoint {A} (f : APIEndpoint -> A) (l : list APIEndpoint) :
  (forall e, f (redact_endpoint e) = f e) -> map f (map redact_endpoint l) = map f l.
Proof. intros Hf. rewrite map_map. apply map_ext. done. Qed.

Lemma flat_map_redact_pattern {A} (f : AuthPattern -> list A) (l : list AuthPattern) :
  (forall p, f (redact_pattern p) = f p) -> flat_map f (map redact_pattern l) = flat_map f l.
Proof.
  intros Hf. induction l as [|p l IH]; simpl; [done|]. by rewrite Hf, IH.
Qed.

Lemma tools_list_items_redact (s : ServiceInfo) :
  _generate_tools_list_items (redact_service s) = _generate_tools_list_items s.
Proof.
  unfold _generate_tools_list_items. f_equal.
  cbn [redact_service endpoints]. by apply map_redact_endpoint.
Qed.

Lemma server_py_redact (s : ServiceInfo) : server_py (redact_service s) = server_py s.
Proof.
  unfold server_py. rewrite tools_list_items_redact.
  cbn [redact_service endpoints]. by rewrite map_redact_endpoint.
Qed.

Lemma auth_readme_redact (s : ServiceInfo) :
  _generate_auth_readme_section (redact_service s) = _generate_auth_readme_section s.
Proof.
  unfold _generate_auth_readme_section. cbn [redact_service auth_patterns].
  destruct (auth_patterns s) as [|p ps]; [done|].
  cbn [map]. rewrite <- (map_cons redact_pattern).
  rewrite flat_map_redact_pattern by done. done.
Qed.

Lemma claude_config_redact (s : ServiceInfo) :
  _generate_claude_desktop_config (redact_service s) = _generate_claude_desktop_config s.
Proof.
  unfold _generate_claude_desktop_config. cbn [redact_service auth_patterns].
  by destruct (auth_patterns s) as [|p ps].
Qed.

Lemma readme_md_redact (s : ServiceInfo) : readme_md (redact_service s) = readme_md s.
Proof.
  unfold readme_md. rewrite auth_readme_redact, claude_config_redact.
  cbn [redact_service endpoints]. by rewrite map_redact_endpoint.
Qed.

Lemma env_example_redact (s : ServiceInfo) : env_example (redact_service s) = env_example s.
Proof.
  unfold env_example. cbn [redact_service auth_patterns].
  destruct (auth_patterns s) as [|p ps]; [done|].
  cbn [map]. rewrite <- (map_cons redact_pattern).
  rewrite flat_map_redact_pattern by done. done.
Qed.

(** The artifacts are a function of the redacted service model. *)
Lemma artifacts_redact (s : ServiceInfo) : artifacts (redact_service s) = artifacts s.
Proof.
  unfold artifacts.
  by rewrite server_py_redact, readme_md_redact, env_example_redact.
Qed.
End GeneratorFacts.

Lemma dict_set_absent {V} (k : string) (v : V) (d : list (string * V)) :
  dict_get k d = None -> dict_set k v d = d ++ [(k, v)].
Proof.
  induction d as [|[k' v'] d IH]; simpl; [done|].
  destruct (String.eqb k k'); [done|]. intros Hg. by rewrite IH.
Qed.

Lemma unique_auth_subset (all : list AuthPattern) (p : AuthPattern) :
  p ∈ dict_values (unique_auth all) -> p ∈ all.
Proof.
  unfold unique_auth.
  assert (forall acc : list (string * AuthPattern),
    p ∈ dict_values
          (foldl (fun unique pattern =>
                    match dict_get (auth_key pattern) unique with
                    | Some _ => unique
                    | None => dict_set (auth_key pattern) pattern unique
                    end) acc all) ->
    p ∈ dict_values acc \/ p ∈ all) as Hgen.
  { induction all as [|q all IH]; intros acc Hp; simpl in *; [by left|].
    apply IH in Hp as [Hp|Hp]; [|right; by right].
    destruct (dict_get (auth_key q) acc) eqn:Hg; [by left|].
    rewrite dict_set_absent in Hp by done.
    unfold dict_values in Hp. rewrite map_app in Hp.
    apply elem_of_app in Hp as [Hp|Hp]; [by left|].
    apply list_elem_of_singleton in Hp. subst. right. left. }
  intros Hp. apply Hgen in Hp as [Hp|Hp]; [|done].
  by apply not_elem_of_nil in Hp.
Qed.

Lemma mask_placeholder (value : string) :
  mask value = (if startswith (lower value) "bearer " then "Bearer <token>" else "<api_key>") /\
  mask value ∈ ["Bearer <token>"; "<api_key>"; "<session_cookie>"].
Proof.
  unfold mask. split; [done|].
  destruct (startswith _ _); [left | right; left].
Qed.

Lemma extract_auth_patterns_masked (headers : list Header) (p : AuthPattern) :
  p ∈ _extract_auth_patterns headers ->
  auth_example_value p ∈ ["Bearer <token>"; "<api_key>"; "<session_cookie>"].
Proof.
  intros Hp. apply extract_auth_patterns_inv in Hp as [(h & _ & Hh)| ->].
  - unfold header_pattern in Hh.
    destruct (dict_get _ AUTH_HEADERS); [|done].
    injection Hh as <-. apply mask_placeholder.
  - right. right. left.
Qed.

Lemma parse_auth_patterns_masked `{PyLib} (entries : list Entry) (p : AuthPattern) :
  p ∈ auth_patterns (parse entries) ->
  auth_example_value p ∈ ["Bearer <token>"; "<api_key>"; "<session_cookie>"].
Proof.
  intros Hp. cbn [parse auth_patterns] in Hp. apply unique_auth_subset in Hp.
  revert p Hp. apply Forall_forall.
  apply (parse_loop_ind (fun st =>
    Forall (fun p => auth_example_value p ∈ ["Bearer <token>"; "<api_key>"; "<session_cookie>"])
           (all_auth_patterns st))); [constructor|].
  intros st e Hst. destruct (is_relevant e) eqn:Hr.
  - rewrite parse_step_relevant by done. cbn [all_auth_patterns].
    apply Forall_app. split; [done|].
    apply Forall_forall. intros p. apply extract_auth_patterns_masked.
  - by rewrite parse_step_skip.
Qed.

(** C1: a header whose name is in the recognition table yields a
    pattern whose example value is the placeholder [Bearer <token>]
    when the value starts with [bearer ] in any letter case, and
    [<api_key>] otherwise; every pattern of a parsed service carries a
    placeholder.  The generated artifacts do not depend on the
    credential: two traces that differ only in the values of
    recognised authentication headers give the same artifacts, text for
    text.  For [Authorization: Bearer abc123] the one pattern is
    [bearer] with example [Bearer <token>]. *)
Theorem C1_credentials_masked :
  (forall (headers : list Header) (header : Header) (scheme : string),
     header ∈ headers ->
     dict_get (lower (get_name header)) AUTH_HEADERS = Some scheme ->
     {| auth_type := scheme;
        header_name := get_name header;
        auth_example_value :=
          if startswith (lower (get_value header)) "bearer "
          then "Bearer <token>" else "<api_key>";
        location := "header" |} ∈ _extract_auth_patterns headers) /\
  (forall (lib : PyLib) (entries : list Entry) (p : AuthPattern),
     p ∈ auth_patterns (parse entries) ->
     auth_example_value p ∈ ["Bearer <token>"; "<api_key>"; "<session_cookie>"]) /\
  (forall (lib : PyLib) (gen : GenLib) (entries entries' : list Entry),
     Forall2 same_but_credentials entries entries' ->
     artifacts (parse entries) = artifacts (parse entries')) /\
  auth_patterns (@parse (Examples.lib []) (Examples.with_token "abc123")) =
    [ {| auth_type := "bearer"; header_name := "Authorization";
         auth_example_value := "Bearer <token>"; location := "header" |} ].
Proof.
  split; [|split; [|split]].
  - intros headers header scheme Hin Hscheme.
    apply (header_pattern_elem headers header); [done|].
    unfold header_pattern. by rewrite Hscheme.
  - intros lib entries p. apply parse_auth_patterns_masked.
  - intros lib gen entries entries' Hes.
    rewrite <- (artifacts_redact (parse entries)), <- (artifacts_redact (parse entries')).
    by rewrite (same_parse entries entries').
  - vm_compute. reflexivity.
Qed.

(** The service model itself keeps the raw header: the endpoint's
    [headers] hold the token.  The generator reads neither them nor the
    pattern's example value, which is why the artifacts are free of it. *)
Example raw_header_kept_in_model :
  map headers (endpoints (@parse (Examples.lib []) (Examples.with_token "abc123"))) =
  [[("Accept", "application/json"); ("Authorization", "Bearer abc123")]].
Proof. vm_compute. reflexivity. Qed.

(** Two recordings that differ in the bearer token give the same artifacts. *)
Lemma C1_witness_two_tokens :
  @artifacts Examples.blank_genlib (@parse (Examples.lib []) (Examples.with_token "abc123")) =
  @artifacts Examples.blank_genlib (@parse (Examples.lib []) (Examples.with_token "xyz789")).
Proof.
  apply (proj1 (proj2 (proj2 C1_credentials_masked))).
  constructor; [|constructor].
  repeat split.
  constructor; [|constructor; [|constructor]].
  - split; [reflexivity|]. intros _. reflexivity.
  - split; [reflexivity|]. intros Hn. vm_compute in Hn. discriminate.
Defined.

(** * Further properties of the parser, the generator and the command *)

(** ** Strings *)

Lemma str_all_app (p : ascii -> bool) (a b : string) :
  str_all p (a +:+ b) = str_all p a && str_all p b.
Proof.
  induction a as [|c a IH]; simpl; [done|]. rewrite IH. by rewrite andb_assoc.
Qed.

Lemma str_all_impl (p q : ascii -> bool) (s : string) :
  (forall c, p c = true -> q c = true) -> str_all p s = true -> str_all q s = true.
Proof.
  intros Hpq. induction s as [|c s IH]; simpl; [done|].
  intros Hs. apply andb_true_iff in Hs as [Hc Hs].
  apply andb_true_iff. split; [by apply Hpq | by apply IH].
Qed.

Lemma str_all_lower (p q : ascii -> bool) (s : string) :
  (forall c, p c = true -> q (lower_char c) = true) ->
  str_all p s = true -> str_all q (lower s) = true.
Proof.
  intros Hpq. induction s as [|c s IH]; simpl; [done|].
  intros Hs. apply andb_true_iff in Hs as [Hc Hs].
  apply andb_true_iff. split; [by apply Hpq | by apply IH].
Qed.

Lemma str_all_lstrip (p : ascii -> bool) (c : ascii) (s : string) :
  str_all p s = true -> str_all p (lstrip c s) = true.
Proof.
  induction s as [|d s IH]; simpl; [done|].
  intros Hs. destruct (Ascii.eqb c d); [|done].
  apply andb_true_iff in Hs as [_ Hs]. by apply IH.
Qed.

Lemma str_all_rstrip (p : ascii -> bool) (c : ascii) (s : string) :
  str_all p s = true -> str_all p (rstrip c s) = true.
Proof.
  induction s as [|d s IH]; simpl; [done|].
  intros Hs. apply andb_true_iff in Hs as [Hd Hs]. specialize (IH Hs).
  destruct (rstrip c s) as [|e r].
  - destruct (Ascii.eqb c d); simpl; [done|]. by rewrite Hd.
  - simpl in *. by rewrite Hd, IH.
Qed.

Lemma str_all_strip (p : ascii -> bool) (c : ascii) (s : string) :
  str_all p s = true -> str_all p (strip c s) = true.
Proof. intros Hs. unfold strip. by apply str_all_rstrip, str_all_lstrip. Qed.

Lemma str_all_sub_runs (p q : ascii -> bool) (rep : string) (in_run : bool) (s : string) :
  (forall c, p c = false -> q c = true) -> str_all q rep = true ->
  str_all q (sub_runs_go p rep in_run s) = true.
Proof.
  intros Hpq Hrep. revert in_run. induction s as [|c s IH]; intros in_run; simpl; [done|].
  destruct (p c) eqn:Hc.
  - rewrite str_all_app, IH. destruct in_run; simpl; [done | by rewrite Hrep].
  - simpl. by rewrite (Hpq c Hc), IH.
Qed.

(** [s.endswith(c)] for one character, by the shape of [s]. *)
Lemma endswith_char_cons (d c : ascii) (r : string) :
  endswith (String d r) (String c "") =
  match r with "" => Ascii.eqb d c | _ => endswith r (String c "") end.
Proof.
  unfold endswith. cbn [String.length]. rewrite Nat.sub_succ, Nat.sub_0_r.
  destruct r as [|e r]; [by cbn; destruct (Ascii.eqb d c)|].
  cbn [String.length str_drop]. rewrite Nat.sub_succ, Nat.sub_0_r. done.
Qed.

Lemma startswith_char_cons (d c : ascii) (r : string) :
  startswith (String d r) (String c "") = Ascii.eqb c d.
Proof.
  unfold startswith. simpl. destruct (ascii_dec c d) as [->|Hne].
  - rewrite Ascii.eqb_refl. by destruct r.
  - symmetry. by apply Ascii.eqb_neq.
Qed.

Lemma lstrip_not_start (c : ascii) (s : string) :
  startswith (lstrip c s) (String c "") = false.
Proof.
  induction s as [|d s IH]; simpl; [done|].
  destruct (Ascii.eqb c d) eqn:E; [done|].
  by rewrite startswith_char_cons.
Qed.

Lemma rstrip_not_end (c : ascii) (s : string) :
  endswith (rstrip c s) (String c "") = false.
Proof.
  induction s as [|d s IH]; simpl; [done|].
  destruct (rstrip c s) as [|e r] eqn:Er.
  - destruct (Ascii.eqb c d) eqn:E; [done|].
    rewrite endswith_char_cons. by rewrite Ascii.eqb_sym.
  - by rewrite endswith_char_cons.
Qed.

Lemma rstrip_keeps_start (c : ascii) (s : string) :
  startswith s (String c "") = false -> startswith (rstrip c s) (String c "") = false.
Proof.
  destruct s as [|d s]; [done|].
  rewrite startswith_char_cons. intros E.
  change (rstrip c (String d s)) with
    (match rstrip c s with
     | "" => if Ascii.eqb c d then "" else String d ""
     | String e r => String d (String e r)
     end).
  destruct (rstrip c s); [rewrite E|]; by rewrite startswith_char_cons.
Qed.

Lemma strip_edges (c : ascii) (s : string) :
  startswith (strip c s) (String c "") = false /\
  endswith (strip c s) (String c "") = false.
Proof.
  unfold strip. split; [|apply rstrip_not_end].
  apply rstrip_keeps_start, lstrip_not_start.
Qed.

(** Facts about single characters, by cases on the eight bits. *)
Ltac by_ascii_cases :=
  let c := fresh "c" in
  intros c; destruct c as [[] [] [] [] [] [] [] []]; vm_compute; try reflexivity;
  intros; discriminate.

Lemma lower_char_ident (c : ascii) :
  is_alnum c || Ascii.eqb c "_" = true -> ident_char (lower_char c) = true.
Proof. revert c. by_ascii_cases. Qed.

Lemma lower_char_underscore (c : ascii) : Ascii.eqb "_" (lower_char c) = Ascii.eqb "_" c.
Proof. revert c. by_ascii_cases. Qed.

Lemma lower_char_digit (c : ascii) : is_digit (lower_char c) = is_digit c.
Proof. revert c. by_ascii_cases. Qed.

Lemma startswith_lower (c : ascii) (s : string) :
  (forall e, Ascii.eqb c (lower_char e) = Ascii.eqb c e) ->
  startswith (lower s) (String c "") = startswith s (String c "").
Proof.
  intros Hc. destruct s as [|d s]; [done|].
  cbn [lower]. by rewrite !startswith_char_cons.
Qed.

Lemma endswith_lower (c : ascii) (s : string) :
  (forall e, Ascii.eqb c (lower_char e) = Ascii.eqb c e) ->
  endswith (lower s) (String c "") = endswith s (String c "").
Proof.
  intros Hc. induction s as [|d s IH]; [done|].
  cbn [lower]. rewrite !endswith_char_cons.
  destruct s as [|e s]; cbn [lower]; [|done].
  by rewrite !(Ascii.eqb_sym _ c).
Qed.

Lemma str_all_of_list (p : ascii -> bool) (l : list ascii) :
  str_all p (string_of_list_ascii l) = forallb p l.
Proof. induction l as [|c l IH]; simpl; [done|]. by rewrite IH. Qed.

Lemma str_all_replace_char (p q : ascii -> bool) (a b : ascii) (s : string) :
  (forall c, p c = true -> Ascii.eqb a c = false -> q c = true) -> q b = true ->
  str_all p s = true -> str_all q (replace (String a "") (String b "") s) = true.
Proof.
  intros Hpq Hb. unfold replace. induction s as [|c s IH]; [done|].
  intros Hs. cbn [str_all] in Hs. apply andb_true_iff in Hs as [Hc Hs].
  cbn [replace_go String.length Nat.sub].
  fold (startswith (String c s) (String a "")). rewrite startswith_char_cons.
  destruct (Ascii.eqb a c) eqn:E.
  - rewrite str_all_app. cbn [str_all]. by rewrite Hb, IH.
  - cbn [str_all]. by rewrite (Hpq c Hc E), IH.
Qed.

(** ** Names *)

(** X1: the service name derived from a host holds only lower-case
    letters, digits and hyphens, and neither starts nor ends with a
    hyphen. *)
Theorem X1_host_to_name_alphabet (host : string) :
  str_all name_char (_host_to_name host) = true /\
  startswith (_host_to_name host) "-" = false /\
  endswith (_host_to_name host) "-" = false.
Proof.
  unfold _host_to_name. split; [|apply strip_edges].
  apply str_all_strip. unfold sub_runs. apply str_all_sub_runs; [|done].
  intros c Hc. apply negb_false_iff in Hc. unfold name_char. by rewrite Hc.
Qed.

Lemma str_all_lstrip_eq (p : ascii -> bool) (c : ascii) (s : string) :
  p c = true -> str_all p (lstrip c s) = str_all p s.
Proof.
  intros Hc. induction s as [|d s IH]; [done|]. cbn [lstrip str_all].
  destruct (Ascii.eqb c d) eqn:E; [|done].
  apply Ascii.eqb_eq in E. subst d. by rewrite IH, Hc.
Qed.

Lemma str_all_rstrip_eq (p : ascii -> bool) (c : ascii) (s : string) :
  p c = true -> str_all p (rstrip c s) = str_all p s.
Proof.
  intros Hc. induction s as [|d s IH]; [done|].
  change (rstrip c (String d s)) with
    (match rstrip c s with
     | "" => if Ascii.eqb c d then "" else String d ""
     | r => String d r
     end).
  cbn [str_all]. destruct (rstrip c s) as [|e r].
  - cbn [str_all] in IH. rewrite <- IH.
    destruct (Ascii.eqb c d) eqn:E; cbn [str_all]; [|done].
    apply Ascii.eqb_eq in E. subst d. by rewrite Hc.
  - by rewrite <- IH.
Qed.

Lemma str_all_strip_eq (p : ascii -> bool) (c : ascii) (s : string) :
  p c = true -> str_all p (strip c s) = str_all p s.
Proof.
  intros Hc. unfold strip. by rewrite str_all_rstrip_eq, str_all_lstrip_eq.
Qed.

Lemma lower_char_alnum (c : ascii) : is_alnum (lower_char c) = is_alnum c.
Proof. revert c. by_ascii_cases. Qed.

Lemma str_all_lower_eq (s : string) :
  str_all (fun c => negb (is_alnum c)) (lower s) = str_all (fun c => negb (is_alnum c)) s.
Proof.
  induction s as [|c s IH]; [done|]. cbn [lower str_all].
  by rewrite lower_char_alnum, IH.
Qed.

Lemma str_all_sub_runs_eq (in_run : bool) (s : string) :
  str_all (fun c => negb (is_alnum c))
          (sub_runs_go (fun c => negb (is_alnum c)) "_" in_run s) =
  str_all (fun c => negb (is_alnum c)) s.
Proof.
  revert in_run. induction s as [|c s IH]; intros in_run; [done|].
  cbn [sub_runs_go str_all]. destruct (negb (is_alnum c)) eqn:Ec.
  - rewrite str_all_app, IH. by destruct in_run.
  - cbn [str_all]. by rewrite Ec.
Qed.

Lemma span_app (p : ascii -> bool) (s : string) :
  s = fst (span p s) +:+ snd (span p s).
Proof.
  induction s as [|c s IH]; [done|]. cbn [span].
  destruct (p c); [|done]. destruct (span p s) as [a b]. cbn [fst snd] in *.
  change (String c a +:+ b) with (String c (a +:+ b)). by rewrite <- IH.
Qed.

Lemma str_drop_0 (s : string) : str_drop 0 s = s.
Proof. by destruct s. Qed.

Lemma str_drop_app (a b : string) (k : nat) :
  str_drop (String.length a + k) (a +:+ b) = str_drop k b.
Proof. induction a as [|c a IH]; [done|]. exact IH. Qed.

Lemma str_drop_nil (k : nat) : str_drop k "" = "".
Proof. by destruct k. Qed.

(** Removing the braces around a word leaves the alphanumeric
    characters where they are. *)
Lemma str_all_sub_braces_eq (s : string) (skip : nat) :
  str_all (fun c => negb (is_alnum c)) (sub_braces_go skip s) =
  str_all (fun c => negb (is_alnum c)) (str_drop skip s).
Proof.
  revert skip. induction s as [|c s IH]; intros skip.
  { cbn [sub_braces_go]. by rewrite str_drop_nil. }
  destruct skip as [|k]; [|apply IH].
  cbn [sub_braces_go str_drop str_all].
  pose proof (span_app is_word s) as Hs.
  destruct (span is_word s) as [w rest]. cbn [fst snd] in Hs.
  destruct (Ascii.eqb c "{" && negb (String.eqb w "") && startswith rest "}") eqn:E.
  - apply andb_true_iff in E as [E Hr]. apply andb_true_iff in E as [Ec _].
    apply Ascii.eqb_eq in Ec. subst c.
    destruct rest as [|d rest']; [done|].
    rewrite startswith_char_cons in Hr. apply Ascii.eqb_eq in Hr. subst d.
    rewrite str_all_app, IH. rewrite Hs.
    rewrite str_drop_app, str_all_app. cbn [str_drop str_all]. done.
  - cbn [str_all]. by rewrite IH, str_drop_0.
Qed.

Lemma lstrip_underscores (s : string) :
  str_all (fun c => is_alnum c || Ascii.eqb c "_") s = true ->
  str_all (fun c => negb (is_alnum c)) s = true ->
  lstrip "_" s = "".
Proof.
  induction s as [|c s IH]; [done|]. cbn [str_all lstrip]. intros H1 H2.
  apply andb_true_iff in H1 as [Hc1 H1]. apply andb_true_iff in H2 as [Hc2 H2].
  apply negb_true_iff in Hc2. rewrite Hc2 in Hc1. cbn in Hc1.
  rewrite Ascii.eqb_sym, Hc1. by apply IH.
Qed.

(** The word of a tool name is empty exactly when the path has no
    letter or digit. *)
Lemma tool_name_word_empty (p : string) :
  let word :=
    lower (strip "_" (sub_runs (fun c => negb (is_alnum c)) "_" (sub_braces (strip "/" p)))) in
  (str_all (fun c => negb (is_alnum c)) p = true -> word = "") /\
  (str_all (fun c => negb (is_alnum c)) p = false -> word <> "").
Proof.
  intros word.
  assert (str_all (fun c => negb (is_alnum c)) word =
          str_all (fun c => negb (is_alnum c)) p) as Hsame.
  { subst word. rewrite str_all_lower_eq, str_all_strip_eq by done.
    unfold sub_runs, sub_braces.
    by rewrite str_all_sub_runs_eq, str_all_sub_braces_eq, str_drop_0, str_all_strip_eq. }
  split.
  - intros Hp. subst word. unfold strip.
    rewrite lstrip_underscores; [done| |].
    + unfold sub_runs. apply str_all_sub_runs; [|done].
      intros c Hc. apply negb_false_iff in Hc. by rewrite Hc.
    + unfold sub_runs, sub_braces.
      by rewrite str_all_sub_runs_eq, str_all_sub_braces_eq, str_drop_0,
           str_all_rstrip_eq, str_all_lstrip_eq.
  - intros Hp Hw. rewrite Hw in Hsame. cbn in Hsame. congruence.
Qed.

(** X2: a tool name is the verb of the method alone exactly when the
    path holds no letter or digit; otherwise the verb is followed by an
    underscore and a non-empty word of lower-case letters, digits and
    underscores that neither starts nor ends with an underscore. *)
Theorem X2_tool_name_shape (e : APIEndpoint) :
  let verb := default (lower (method e)) (dict_get (upper (method e)) method_prefix) in
  (str_all (fun c => negb (is_alnum c)) (path e) = true -> tool_name e = verb) /\
  (str_all (fun c => negb (is_alnum c)) (path e) = false ->
   exists word,
     tool_name e = verb +:+ "_" +:+ word /\ word <> "" /\
     str_all ident_char word = true /\
     startswith word "_" = false /\ endswith word "_" = false).
Proof.
  intros verb. unfold tool_name. fold verb.
  destruct (tool_name_word_empty (path e)) as [Hempty Hword].
  set (stripped := strip "_" _) in *.
  split.
  - intros Hp. by rewrite (Hempty Hp).
  - intros Hp. specialize (Hword Hp). apply String.eqb_neq in Hword as Hneq.
    rewrite Hneq. cbn [negb].
    exists (lower stripped). split; [done|]. split; [done|].
    pose proof (strip_edges "_" (sub_runs (fun c => negb (is_alnum c)) "_"
                                   (sub_braces (strip "/" (path e))))) as [Hs He].
    fold stripped in Hs, He.
    split; [|split].
    + apply (str_all_lower (fun c => is_alnum c || Ascii.eqb c "_")); [apply lower_char_ident|].
      subst stripped. apply str_all_strip. unfold sub_runs.
      apply str_all_sub_runs; [|done].
      intros c Hc. apply negb_false_iff in Hc. by rewrite Hc.
    + rewrite startswith_lower; [done | apply lower_char_underscore].
    + rewrite endswith_lower; [done | apply lower_char_underscore].
Qed.

(** A GET on the root and a GET on a templated path. *)
Lemma X2_witness_root_and_template :
  let root := {| method := "GET"; path := "/"; base_url := ""; full_url := "";
                 query_params := []; path_params := []; headers := [];
                 request_body := JNull; response_example := JNull;
                 response_status := 200%Z; content_type := ""; ep_description := "" |} in
  let templated := {| method := "GET"; path := "/api/v1/courses/{id}/modules";
                      base_url := ""; full_url := "";
                      query_params := []; path_params := []; headers := [];
                      request_body := JNull; response_example := JNull;
                      response_status := 200%Z; content_type := "";
                      ep_description := "" |} in
  tool_name root = "get" /\
  exists word, tool_name templated = "get" +:+ "_" +:+ word /\ word <> "" /\
               str_all ident_char word = true /\
               startswith word "_" = false /\ endswith word "_" = false.
Proof.
  intros root templated. split.
  - apply (proj1 (X2_tool_name_shape root)). by vm_compute.
  - apply (proj2 (X2_tool_name_shape templated)). by vm_compute.
Defined.

(** X3: a Python-safe name holds only lower-case letters, digits and
    underscores and never starts with a digit. *)
Theorem X3_python_safe_name_identifier (name : string) :
  str_all ident_char (_python_safe_name name) = true /\
  (forall c rest, _python_safe_name name = String c rest -> is_digit c = false).
Proof.
  unfold _python_safe_name.
  set (safe := string_of_list_ascii _).
  assert (str_all (fun c => is_alnum c || Ascii.eqb c "_") safe = true) as Hsafe.
  { subst safe. rewrite str_all_of_list. apply forallb_forall. intros c Hc.
    apply in_map_iff in Hc as (d & <- & _).
    fold (is_word d). by destruct (is_word d) eqn:E. }
  split.
  - apply (str_all_lower (fun c => is_alnum c || Ascii.eqb c "_")); [apply lower_char_ident|].
    destruct safe as [|c safe']; [done|].
    destruct (is_digit c); [|done]. by rewrite str_all_app.
  - intros c rest. destruct safe as [|d safe']; [done|].
    destruct (is_digit d) eqn:E; cbn; intros [= <- _]; [done|].
    by rewrite lower_char_digit.
Qed.

(** A name that starts with a digit and holds a hyphen and a capital. *)
Lemma X3_witness_digit_first :
  _python_safe_name "2fa-Login" = "_2fa_login" /\ is_digit "_" = false.
Proof.
  split; [by vm_compute|].
  apply (proj2 (X3_python_safe_name_identifier "2fa-Login") "_"%char "2fa_login").
  by vm_compute.
Defined.

Lemma str_all_upper_of (p q : ascii -> bool) (s : string) :
  (forall c, p c = true -> q (upper_char c) = true) ->
  str_all p s = true -> str_all q (upper s) = true.
Proof.
  intros Hpq. induction s as [|c s IH]; simpl; [done|].
  intros Hs. apply andb_true_iff in Hs as [Hc Hs].
  apply andb_true_iff. split; [by apply Hpq | by apply IH].
Qed.

Lemma upper_char_ascii (c : ascii) :
  is_ascii c = true -> is_ascii (upper_char c) && negb (is_lower (upper_char c)) = true.
Proof. revert c. by_ascii_cases. Qed.

(** X4: for a service name written in ASCII, the environment-variable
    prefix is written in ASCII and holds no lower-case letter, hyphen
    or dot. *)
Theorem X4_env_prefix_alphabet (service_info : ServiceInfo) :
  str_all is_ascii (service_name service_info) = true ->
  str_all (fun c => is_ascii c && env_char c) (env_prefix service_info) = true.
Proof.
  intros Hascii. unfold env_prefix.
  apply (str_all_replace_char
           (fun c => is_ascii c && negb (is_lower c) && negb (Ascii.eqb c "-")) _ ".");
    [|done|].
  { intros c Hc Hdot. unfold env_char.
    apply andb_true_iff in Hc as [Hc Hh]. apply andb_true_iff in Hc as [Ha Hl].
    by rewrite Ha, Hl, Hh, Ascii.eqb_sym, Hdot. }
  apply (str_all_replace_char (fun c => is_ascii c && negb (is_lower c)) _ "-"); [|done|].
  { intros c Hc Hh. by rewrite Hc, Ascii.eqb_sym, Hh. }
  revert Hascii. apply str_all_upper_of. apply upper_char_ascii.
Qed.

(** A name with a dot, a hyphen and letters of both cases. *)
Lemma X4_witness_dotted_name :
  let service := {| service_name := "My-shop.v2"; service_base_url := "";
                    service_description := ""; auth_patterns := []; endpoints := [] |} in
  env_prefix service = "MY_SHOP_V2" /\
  str_all (fun c => is_ascii c && env_char c) (env_prefix service) = true.
Proof.
  intros service. split; [by vm_compute|].
  apply (X4_env_prefix_alphabet service). by vm_compute.
Defined.

(** ** Dictionaries built by a loop *)

(** A loop that assigns [value x] to [key x] for the elements it
    keeps: the keys are distinct, and a key holds the value of the last
    kept element with that key. *)
Section LoopDict.
Context {A V : Type} (keep : A -> bool) (key : A -> string) (value : A -> V).

Lemma loop_dict_snoc (l : list A) (x : A) :
  loop_dict keep key value (l ++ [x]) =
  if keep x then dict_set (key x) (value x) (loop_dict keep key value l)
  else loop_dict keep key value l.
Proof. unfold loop_dict. by rewrite foldl_app. Qed.

Lemma loop_dict_NoDup (l : list A) : NoDup (dict_keys (loop_dict keep key value l)).
Proof.
  induction l as [|x l IH] using rev_ind; [apply NoDup_nil_2|].
  rewrite loop_dict_snoc. destruct (keep x); [|done]. by apply dict_keys_NoDup_set.
Qed.

Lemma loop_dict_lookup (l : list A) (k : string) :
  dict_get k (loop_dict keep key value l) =
  value <$> last (filter (fun x => keep x = true /\ key x = k) l).
Proof.
  induction l as [|x l IH] using rev_ind; [done|].
  rewrite loop_dict_snoc, filter_app, filter_cons, filter_nil.
  destruct (keep x) eqn:Hk.
  - destruct (decide (key x = k)) as [<-|Hne].
    + rewrite dict_get_set_eq, decide_True by done. by rewrite last_snoc.
    + rewrite dict_get_set_ne by done.
      rewrite decide_False by (intros [_ ?]; done). by rewrite app_nil_r.
  - rewrite decide_False by (intros [? _]; done). by rewrite app_nil_r.
Qed.
End LoopDict.

Lemma dict_get_elem_NoDup {V} (k : string) (v : V) (d : list (string * V)) :
  NoDup (dict_keys d) -> (k, v) ∈ d -> dict_get k d = Some v.
Proof.
  induction d as [|[k' v'] d IH]; intros Hnd Hin; [by apply not_elem_of_nil in Hin|].
  unfold dict_keys in Hnd. cbn in Hnd. apply NoDup_cons in Hnd as [Hk' Hnd].
  cbn. apply elem_of_cons in Hin as [[= -> ->]|Hin].
  - by rewrite String.eqb_refl.
  - destruct (String.eqb k k') eqn:E; [|by apply IH].
    apply String.eqb_eq in E. subst k'. exfalso. apply Hk'.
    apply list_elem_of_fmap. by exists (k, v).
Qed.

(** ** Request headers *)

Lemma normalize_headers_loop (headers : list Header) :
  _normalize_headers headers =
  loop_dict (fun h => negb (str_in (lower (get_name h)) SKIP_HEADERS)) get_name get_value headers.
Proof. reflexivity. Qed.

Lemma normalize_headers_lookup (headers : list Header) (k : string) :
  dict_get k (_normalize_headers headers) =
  get_value <$>
    last (filter (fun h => str_in (lower (get_name h)) SKIP_HEADERS = false /\ get_name h = k)
                 headers).
Proof.
  rewrite normalize_headers_loop, loop_dict_lookup. do 2 f_equal.
  apply list_filter_iff. intros h. by rewrite negb_true_iff.
Qed.

(** X5: the normalised headers of a record hold each header name
    once, hold no browser header (a name whose lower-case form is in
    the skip list), and give a name the value of the last kept header
    of exactly that name. *)
Theorem X5_normalize_headers_last_value (headers : list Header) :
  NoDup (dict_keys (_normalize_headers headers)) /\
  (forall k, k ∈ dict_keys (_normalize_headers headers) ->
     str_in (lower k) SKIP_HEADERS = false) /\
  (forall k,
     dict_get k (_normalize_headers headers) =
     get_value <$>
       last (filter (fun h => str_in (lower (get_name h)) SKIP_HEADERS = false /\
                              get_name h = k) headers)).
Proof.
  split; [rewrite normalize_headers_loop; apply loop_dict_NoDup|].
  split; [|apply normalize_headers_lookup].
  intros k Hk.
  destruct (dict_get k (_normalize_headers headers)) as [v|] eqn:Hg.
  - rewrite normalize_headers_lookup in Hg.
    destruct (last _) as [h|] eqn:Hl; [|done].
    apply last_Some_elem_of, list_elem_of_filter in Hl as [[Hs <-] _]. done.
  - apply dict_get_None in Hg. done.
Qed.

(** [Accept] sent twice around a skipped [User-Agent]. *)
Lemma X5_witness_repeated_accept :
  let headers := [Examples.hdr "Accept" "text/html"; Examples.hdr "User-Agent" "x";
                  Examples.hdr "Accept" "application/json"] in
  _normalize_headers headers = [("Accept", "application/json")] /\
  str_in (lower "Accept") SKIP_HEADERS = false.
Proof.
  intros headers. split; [by vm_compute|].
  apply (proj1 (proj2 (X5_normalize_headers_last_value headers)) "Accept").
  vm_compute. left.
Defined.

(** X6: the content type recorded for an endpoint is the value of the
    last request header whose name is exactly [Content-Type], in that
    letter case; a header spelled [content-type] does not count, and
    without such a header the content type is [application/json]. *)
Theorem X6_content_type_exact_case `{PyLib} (entry : Entry) :
  content_type (entry_endpoint entry) =
  default "application/json"
    (get_value <$> last (filter (fun h => get_name h = "Content-Type") (entry_headers entry))).
Proof.
  cbn [entry_endpoint content_type]. rewrite normalize_headers_lookup.
  do 3 f_equal. apply list_filter_iff. intros h. split; [by intros [_ ?]|].
  intros Hn. split; [|done]. rewrite Hn. reflexivity.
Qed.

(** ** Request bodies *)

(** X7: a non-empty form body (a content type that names [form] and
    not [json]) becomes a mapping with each parameter name once, whose
    value is that of the last parameter of that name, or the empty
    string when that parameter has no value. *)
Theorem X7_form_body_last_value `{PyLib} (request : Request) (post_data : PostData)
    (text mime : string) :
  r_postData request = Some post_data ->
  pd_text post_data = Some text -> text <> "" ->
  pd_mimeType post_data = Some mime ->
  contains "json" mime = false -> contains "form" mime = true ->
  exists d,
    _extract_request_body request = JDict d /\
    NoDup (dict_keys d) /\
    forall n,
      dict_get n d =
      (fun p => JStr (default "" (pp_value p))) <$>
        last (filter (fun p => pp_name p = n) (default [] (pd_params post_data))).
Proof.
  intros Hpd Ht Hne Hm Hj Hf.
  exists (loop_dict (fun _ => true) pp_name (fun p => JStr (default "" (pp_value p)))
                    (default [] (pd_params post_data))).
  split; [|split].
  - unfold _extract_request_body. rewrite Hpd, Ht, Hm. simpl.
    apply String.eqb_neq in Hne. by rewrite Hne, Hj, Hf.
  - apply loop_dict_NoDup.
  - intros n. rewrite loop_dict_lookup. do 2 f_equal.
    apply list_filter_iff. intros p. split; [by intros [_ ?] | done].
Qed.

(** A form in which [tag] is given twice keeps the second value. *)
Lemma X7_witness_repeated_field :
  exists d,
    @_extract_request_body (Examples.lib []) MoreExamples.form_request = JDict d /\
    NoDup (dict_keys d) /\
    forall n,
      dict_get n d =
      (fun p => JStr (default "" (pp_value p))) <$>
        last (filter (fun p => pp_name p = n)
                     (default [] (pd_params MoreExamples.form_post_data))).
Proof.
  apply (@X7_form_body_last_value (Examples.lib []) MoreExamples.form_request
           MoreExamples.form_post_data "tag=a&q=x&tag=b"
           "application/x-www-form-urlencoded"); try reflexivity.
  discriminate.
Defined.

(** ** Authentication patterns of a service *)

Lemma filter_none {A} (P : A -> Prop) `{forall x, Decision (P x)} (l : list A) :
  Forall (fun x => ~ P x) l -> filter P l = [].
Proof.
  induction 1 as [|x l Hx Hl IH]; [done|]. by rewrite filter_cons_False.
Qed.

Lemma header_pattern_not_cookie (header : Header) (p : AuthPattern) :
  header_pattern header = Some p -> auth_type p <> "cookie".
Proof.
  unfold header_pattern.
  destruct (dict_get (lower (get_name header)) AUTH_HEADERS) as [t|] eqn:Ht; [|done].
  intros [= <-]. cbn [auth_type].
  unfold AUTH_HEADERS in Ht. cbn [dict_get] in Ht.
  repeat (destruct (String.eqb (lower (get_name header)) _); [by injection Ht as <-|]).
  done.
Qed.

(** X8: a record yields at most one cookie pattern, however many
    [Cookie] headers it carries, and it yields one exactly when some
    header named [Cookie] (in any letter case) has a value containing
    [session], [auth], [token] or [jwt] (in any letter case). *)
Theorem X8_one_cookie_pattern_per_record (headers : list Header) :
  let cookies := filter (fun p => auth_type p = "cookie") (_extract_auth_patterns headers) in
  (length cookies <= 1)%nat /\
  (cookies = [cookie_pattern] <->
     exists h, h ∈ headers /\ lower (get_name h) = "cookie" /\
               exists word, word ∈ ["session"; "auth"; "token"; "jwt"] /\
                            contains word (lower (get_value h)) = true).
Proof.
  intros cookies.
  assert (filter (fun p => auth_type p = "cookie") (omap header_pattern headers) = [])
    as Hnone.
  { apply filter_none, Forall_forall. intros p Hp.
    apply list_elem_of_omap in Hp as (h & _ & Hh).
    by apply header_pattern_not_cookie in Hh. }
  assert (existsb is_auth_cookie headers = true <->
     exists h, h ∈ headers /\ lower (get_name h) = "cookie" /\
               exists word, word ∈ ["session"; "auth"; "token"; "jwt"] /\
                            contains word (lower (get_value h)) = true) as Hex.
  { rewrite existsb_elem. unfold is_auth_cookie.
    split; intros (h & Hin & Hh); exists h; (split; [done|]).
    - apply andb_true_iff in Hh as [Hn Hw]. apply String.eqb_eq in Hn.
      split; [done|]. by apply existsb_elem in Hw.
    - destruct Hh as [Hn Hw]. apply andb_true_iff.
      split; [by apply String.eqb_eq | by apply existsb_elem]. }
  subst cookies. unfold _extract_auth_patterns. rewrite <- Hex.
  destruct (existsb is_auth_cookie headers).
  - rewrite filter_app, Hnone. cbn. rewrite decide_True by done.
    cbn. split; [lia | done].
  - rewrite Hnone. cbn. split; [lia | split; done].
Qed.

(** Two cookie headers that both name a session give one pattern. *)
Lemma X8_witness_two_session_cookies :
  let headers := [Examples.hdr "Cookie" "sessionid=1"; Examples.hdr "cookie" "JWT=2"] in
  filter (fun p => auth_type p = "cookie") (_extract_auth_patterns headers) =
  [cookie_pattern].
Proof.
  intros headers.
  apply (proj2 (X8_one_cookie_pattern_per_record headers)).
  exists (Examples.hdr "Cookie" "sessionid=1"). split; [left|]. split; [by vm_compute|].
  exists "session". split; [left | by vm_compute].
Defined.

Section AuthFacts.
Context `{PyLib}.

Lemma all_auth_patterns_observed (entries : list Entry) :
  all_auth_patterns (parse_loop entries) = observed_patterns entries.
Proof.
  unfold observed_patterns.
  induction entries as [|e entries IH] using rev_ind; [done|].
  rewrite parse_loop_snoc, filter_app, flat_map_app, filter_cons, filter_nil.
  destruct (is_relevant e) eqn:Hr.
  - rewrite parse_step_relevant by done. cbn [all_auth_patterns].
    rewrite decide_True by done. cbn [flat_map]. by rewrite IH, app_nil_r.
  - rewrite parse_step_skip by done. rewrite decide_False by done.
    cbn. by rewrite IH, app_nil_r.
Qed.
End AuthFacts.

Lemma unique_auth_fold_lookup (all : list AuthPattern) (acc : list (string * AuthPattern))
    (k : string) :
  dict_get k
    (foldl (fun unique pattern =>
              match dict_get (auth_key pattern) unique with
              | Some _ => unique
              | None => dict_set (auth_key pattern) pattern unique
              end) acc all) =
  match dict_get k acc with
  | Some v => Some v
  | None => find (fun p => String.eqb (auth_key p) k) all
  end.
Proof.
  revert acc. induction all as [|p all IH]; intros acc; cbn [foldl find].
  - by destruct (dict_get k acc).
  - rewrite IH. destruct (String.eqb (auth_key p) k) eqn:E.
    + apply String.eqb_eq in E. subst k.
      destruct (dict_get (auth_key p) acc) eqn:Hg; [by rewrite Hg|].
      by rewrite dict_get_set_eq.
    + apply String.eqb_neq in E.
      destruct (dict_get (auth_key p) acc); [done|].
      by rewrite dict_get_set_ne.
Qed.

Lemma unique_auth_lookup (all : list AuthPattern) (k : string) :
  dict_get k (unique_auth all) = find (fun p => String.eqb (auth_key p) k) all.
Proof. unfold unique_auth. by rewrite unique_auth_fold_lookup. Qed.

Lemma unique_auth_keys (all : list AuthPattern) :
  NoDup (dict_keys (unique_auth all)) /\
  Forall (fun kv => kv.1 = auth_key kv.2) (unique_auth all).
Proof.
  unfold unique_auth.
  assert (NoDup (dict_keys (@nil (string * AuthPattern))) /\
          Forall (fun kv : string * AuthPattern => kv.1 = auth_key kv.2) []) as Hacc
    by (split; [apply NoDup_nil_2 | constructor]).
  revert Hacc. generalize (@nil (string * AuthPattern)) as acc.
  induction all as [|p all IH]; intros acc [Hnd Hk]; cbn [foldl]; [done|].
  apply IH. destruct (dict_get (auth_key p) acc); [done|].
  split; [by apply dict_keys_NoDup_set|].
  apply dict_set_Forall; [done|]. by intros k' ->.
Qed.

(** X9: the authentication patterns of a parsed service are the
    patterns of its relevant records with duplicates removed by
    [auth_type:header_name]: no two share that key, each is the first
    pattern observed with its key, and every observed pattern has its
    key represented. *)
Theorem X9_auth_patterns_first_per_key `{PyLib} (entries : list Entry) :
  NoDup (map auth_key (auth_patterns (parse entries))) /\
  (forall q, q ∈ auth_patterns (parse entries) ->
     find (fun p => String.eqb (auth_key p) (auth_key q)) (observed_patterns entries) = Some q) /\
  (forall p, p ∈ observed_patterns entries ->
     exists q, q ∈ auth_patterns (parse entries) /\ auth_key q = auth_key p).
Proof.
  cbn [parse auth_patterns]. rewrite all_auth_patterns_observed.
  set (all := observed_patterns entries).
  destruct (unique_auth_keys all) as [Hnd Hk].
  assert (map auth_key (dict_values (unique_auth all)) = dict_keys (unique_auth all)) as Hkeys.
  { unfold dict_values, dict_keys. rewrite map_map. apply map_ext_Forall.
    eapply Forall_impl; [exact Hk|]. by intros [k v] ->. }
  split; [by rewrite Hkeys|]. split.
  - intros q Hq. unfold dict_values in Hq.
    apply list_elem_of_fmap in Hq as ([k v] & -> & Hin). cbn [snd].
    pose proof (proj1 (Forall_forall _ _) Hk _ Hin) as Hkv. cbn in Hkv. subst k.
    rewrite <- unique_auth_lookup. by apply dict_get_elem_NoDup.
  - intros p Hp.
    destruct (find (fun p' => String.eqb (auth_key p') (auth_key p)) all) as [q|] eqn:Hf.
    + pose proof Hf as Hf'. apply find_some in Hf' as [_ Hq]. apply String.eqb_eq in Hq.
      exists q. split; [|done]. rewrite <- unique_auth_lookup in Hf.
      apply dict_get_Some_elem in Hf. unfold dict_values.
      apply list_elem_of_fmap. by exists (auth_key p, q).
    + exfalso. apply list_elem_of_In in Hp.
      pose proof (find_none _ _ Hf p Hp) as Hn. cbn in Hn.
      by rewrite String.eqb_refl in Hn.
Qed.

(** The pattern of a trace with one bearer token is the one observed first. *)
Lemma X9_witness_bearer :
  let lib := Examples.lib [] in
  let q := {| auth_type := "bearer"; header_name := "Authorization";
              auth_example_value := "Bearer <token>"; location := "header" |} in
  auth_patterns (parse (Examples.with_token "abc123")) = [q] /\
  find (fun p => String.eqb (auth_key p) (auth_key q))
       (observed_patterns (Examples.with_token "abc123")) = Some q.
Proof.
  intros lib q. split; [by vm_compute|].
  apply (proj1 (proj2 (X9_auth_patterns_first_per_key (Examples.with_token "abc123")))).
  vm_compute. left.
Defined.

(** ** Sets built by a loop *)

Lemma set_add_elem (x y : string) (s : list string) :
  y ∈ set_add x s <-> y = x \/ y ∈ s.
Proof.
  unfold set_add. destruct (str_in x s) eqn:E.
  - apply str_in_true in E. split; [by right | by intros [->|?]].
  - rewrite elem_of_app, list_elem_of_singleton. tauto.
Qed.

Lemma set_add_NoDup (x : string) (s : list string) : NoDup s -> NoDup (set_add x s).
Proof.
  intros Hs. unfold set_add. destruct (str_in x s) eqn:E; [done|].
  apply NoDup_app. split; [done|]. split; [|apply NoDup_singleton].
  intros y Hy Hx. apply list_elem_of_singleton in Hx. subst y.
  apply str_in_true in Hy. congruence.
Qed.

Lemma lawful_head (order : list string -> list string) (s : list string) :
  (forall l, NoDup l -> order l ≡ₚ l) -> NoDup s -> s <> [] ->
  exists x, head (order s) = Some x /\ x ∈ s.
Proof.
  intros Hlaw Hs Hne. specialize (Hlaw s Hs).
  destruct (order s) as [|x l] eqn:E.
  - apply Permutation_nil_l in Hlaw. by subst.
  - exists x. split; [done|]. rewrite <- Hlaw. left.
Qed.

(** ** The endpoints of a service *)

Section EndpointFacts.
Context `{PyLib}.

Lemma parse_loop_irrelevant (entries : list Entry) :
  Forall (fun e => is_relevant e = false) entries -> parse_loop entries = initial_state.
Proof.
  induction entries as [|e entries IH] using rev_ind; [done|].
  intros Hall. apply Forall_app in Hall as [Hes He].
  apply Forall_cons in He as [He _].
  rewrite parse_loop_snoc, parse_step_skip by done. by apply IH.
Qed.

Lemma base_urls_spec (entries : list Entry) :
  NoDup (base_urls (parse_loop entries)) /\
  forall x, x ∈ base_urls (parse_loop entries) <->
            exists e, e ∈ entries /\ is_relevant e = true /\ entry_base_url e = x.
Proof.
  induction entries as [|e entries [IHn IHe]] using rev_ind.
  - split; [apply NoDup_nil_2|]. intros x. split.
    + intros Hx. by apply not_elem_of_nil in Hx.
    + intros (e & He & _). by apply not_elem_of_nil in He.
  - rewrite parse_loop_snoc. destruct (is_relevant e) eqn:Hr.
    + rewrite parse_step_relevant by done. cbn [base_urls].
      split; [by apply set_add_NoDup|].
      intros x. rewrite set_add_elem, IHe. split.
      * intros [->|(e' & He' & Hr' & Hx)].
        -- exists e. split; [|done]. apply elem_of_app. right. left.
        -- exists e'. split; [|done]. apply elem_of_app. by left.
      * intros (e' & He' & Hr' & Hx). apply elem_of_app in He' as [He'|He'].
        -- right. by exists e'.
        -- apply list_elem_of_singleton in He'. subst e'. by left.
    + rewrite parse_step_skip by done. split; [done|].
      intros x. rewrite IHe. split.
      * intros (e' & He' & Hr' & Hx). exists e'. split; [|done].
        apply elem_of_app. by left.
      * intros (e' & He' & Hr' & Hx). apply elem_of_app in He' as [He'|He'].
        -- by exists e'.
        -- apply list_elem_of_singleton in He'. subst e'. congruence.
Qed.
End EndpointFacts.

(** X10: a trace yields no endpoint exactly when none of its records
    is relevant, and then it yields no authentication pattern and an
    empty base URL as well. *)
Theorem X10_no_relevant_record `{PyLib} (entries : list Entry) :
  (endpoints (parse entries) = [] <-> Forall (fun e => is_relevant e = false) entries) /\
  (Forall (fun e => is_relevant e = false) entries ->
   auth_patterns (parse entries) = [] /\ service_base_url (parse entries) = "").
Proof.
  split; [split|].
  - intros Hnil. apply Forall_forall. intros e He.
    destruct (is_relevant e) eqn:Hr; [|done].
    pose proof (relevant_key_stored entries e He Hr) as Hk.
    rewrite endpoints_map_keys, Hnil in Hk. by apply not_elem_of_nil in Hk.
  - intros Hall. cbn [parse endpoints]. by rewrite parse_loop_irrelevant.
  - intros Hall. cbn [parse auth_patterns service_base_url].
    by rewrite parse_loop_irrelevant.
Qed.

(** A page and a script: nothing is inferred. *)
Lemma X10_witness_pages_only :
  let lib := Examples.lib [] in
  endpoints (parse MoreExamples.pages_only) = [] /\
  auth_patterns (parse MoreExamples.pages_only) = [] /\
  service_base_url (parse MoreExamples.pages_only) = "".
Proof.
  intros lib.
  assert (Forall (fun e => is_relevant e = false) MoreExamples.pages_only) as Hall
    by (repeat constructor).
  split; [by apply (proj1 (@X10_no_relevant_record lib MoreExamples.pages_only))|].
  by apply (proj2 (@X10_no_relevant_record lib MoreExamples.pages_only)).
Defined.

Section FirstObservation.
Context `{PyLib}.

(** What the loop keeps of an endpoint: the build of the first relevant
    record with its key, with query parameters only ever appended. *)
Lemma first_observation_grows (entries : list Entry) (e0 : Entry) (ep : APIEndpoint)
    (i : nat) (e : Entry) :
  first_observation entries ep i e -> first_observation (entries ++ [e0]) ep i e.
Proof.
  intros (Hi & Hr & Hk & Hfirst).
  pose proof (lookup_lt_Some _ _ _ Hi) as Hlt.
  split; [by apply lookup_app_l_Some|]. split; [done|]. split; [done|].
  intros j e' Hj Hj'. rewrite lookup_app_l in Hj' by lia. by apply (Hfirst j).
Qed.

Lemma endpoints_map_first (entries : list Entry) :
  Forall (fun kv =>
            exists i e,
              first_observation entries kv.2 i e /\
              kv.2 = set_query_params (entry_endpoint e) (query_params kv.2) /\
              query_params (entry_endpoint e) `prefix_of` query_params kv.2)
         (endpoints_map (parse_loop entries)).
Proof.
  induction entries as [|e0 entries IH] using rev_ind; [constructor|].
  rewrite parse_loop_snoc.
  assert (Forall (fun kv : string * APIEndpoint =>
            exists i e,
              first_observation (entries ++ [e0]) kv.2 i e /\
              kv.2 = set_query_params (entry_endpoint e) (query_params kv.2) /\
              query_params (entry_endpoint e) `prefix_of` query_params kv.2)
         (endpoints_map (parse_loop entries))) as IH'.
  { eapply Forall_impl; [exact IH|]. intros kv (i & e & Hf & Heq & Hp).
    exists i, e. split; [by apply first_observation_grows | done]. }
  destruct (is_relevant e0) eqn:Hr; [|by rewrite parse_step_skip].
  rewrite parse_step_relevant by done. cbn [endpoints_map].
  destruct (dict_get (entry_key e0) (endpoints_map (parse_loop entries))) as [ex|] eqn:Hg.
  - apply dict_set_Forall; [done|]. intros k' ->. cbn [snd].
    apply dict_get_Some_elem in Hg.
    pose proof (proj1 (Forall_forall _ _) IH' _ Hg) as (i & e & Hf & Heq & Hp).
    cbn [snd] in Hf, Heq, Hp.
    exists i, e. rewrite merge_query_params_spec.
    split; [|split].
    + destruct Hf as (Hi & Hre & Hk & Hfirst). by repeat split.
    + cbn [query_params set_query_params]. rewrite Heq at 1. reflexivity.
    + cbn [query_params set_query_params]. etrans; [exact Hp|]. by apply prefix_app_r.
  - apply dict_set_Forall; [done|]. intros k' ->. cbn [snd].
    exists (length entries), e0. split; [|split; [by destruct (entry_endpoint e0) | done]].
    split; [by apply list_lookup_middle|].
    split; [done|]. split; [done|].
    intros j e' Hj Hj' Hr' Hk.
    rewrite lookup_app_l in Hj' by lia.
    apply list_elem_of_lookup_2 in Hj'.
    pose proof (relevant_key_stored entries e' Hj' Hr') as Hin.
    apply dict_get_None in Hg. apply Hg. by rewrite <- entry_endpoint_key, <- Hk.
Qed.
End FirstObservation.

(** X11: the first observation wins.  Every endpoint of a parsed
    service is the endpoint built from the first relevant record with
    its key, in every field but the query parameters (method, path,
    base URL, full URL, path parameters, headers, request body,
    response example, status, content type); its query parameters
    start with those of that record. *)
Theorem X11_first_observation_wins `{PyLib} (entries : list Entry) (ep : APIEndpoint) :
  ep ∈ endpoints (parse entries) ->
  exists i e,
    first_observation entries ep i e /\
    ep = set_query_params (entry_endpoint e) (query_params ep) /\
    query_params (entry_endpoint e) `prefix_of` query_params ep.
Proof.
  intros Hep. cbn [parse endpoints] in Hep. unfold dict_values in Hep.
  apply list_elem_of_fmap in Hep as ([k ep'] & -> & Hin).
  exact (proj1 (Forall_forall _ _) (endpoints_map_first entries) _ Hin).
Qed.

(** The endpoint of the two calls to [/api/items] is that of the first
    of them, the third record of the trace. *)
Lemma X11_witness_page_and_api :
  let lib := Examples.lib [] in
  let ep := merge_query_params
              (entry_endpoint (Examples.get "https://backend.example.com/api/items?page=1"))
              (_extract_query_params "https://backend.example.com/api/items?page=2&sort=asc") in
  exists i e,
    first_observation MoreExamples.page_and_api ep i e /\
    ep = set_query_params (entry_endpoint e) (query_params ep) /\
    query_params (entry_endpoint e) `prefix_of` query_params ep.
Proof.
  intros lib ep.
  apply (@X11_first_observation_wins lib MoreExamples.page_and_api ep).
  vm_compute. left.
Defined.

(** ** Parameter names *)

Lemma query_param_names `{PyLib} (items : list (string * list string)) :
  map name (omap query_param items) =
  filter (fun n => framework_param n = false) (map fst items).
Proof.
  induction items as [|[n vs] items IH]; [done|].
  change (omap query_param ((n, vs) :: items)) with
    (match query_param (n, vs) with
     | Some p => p :: omap query_param items
     | None => omap query_param items
     end).
  cbn [map fst]. rewrite filter_cons.
  destruct (query_param (n, vs)) as [p|] eqn:Eq; unfold query_param in Eq;
    destruct (framework_param n) eqn:E; try done.
  injection Eq as <-. cbn. by rewrite <- IH.
Qed.

Lemma NoDup_fmap_filter {A B} (f : A -> B) (P : A -> Prop) `{forall x, Decision (P x)}
    (l : list A) :
  NoDup (map f l) -> NoDup (map f (filter P l)).
Proof.
  induction l as [|x l IH]; [done|]. cbn [map]. intros Hnd.
  apply NoDup_cons in Hnd as [Hx Hnd]. rewrite filter_cons.
  destruct (decide (P x)); [|by apply IH].
  cbn [map]. apply NoDup_cons. split; [|by apply IH].
  intros Hin. apply Hx. apply list_elem_of_fmap in Hin as (y & -> & Hy).
  apply list_elem_of_filter in Hy as [_ Hy]. apply list_elem_of_fmap. by exists y.
Qed.

Lemma NoDup_filter_stdpp {A} (P : A -> Prop) `{forall x, Decision (P x)} (l : list A) :
  NoDup l -> NoDup (filter P l).
Proof.
  induction 1 as [|x l Hx Hl IH]; [constructor|].
  rewrite filter_cons. destruct (decide (P x)); [|done].
  constructor; [|done]. intros Hin. apply list_elem_of_filter in Hin as [_ Hin]. done.
Qed.

Lemma reference_parse_qs_keys (qs : string) : NoDup (map fst (UrlLib.parse_qs qs)).
Proof.
  unfold UrlLib.parse_qs.
  assert (NoDup (dict_keys (@nil (string * list string)))) as Hacc by apply NoDup_nil_2.
  revert Hacc. generalize (@nil (string * list string)) as acc.
  induction (UrlLib.parse_qsl qs) as [|[n v] l IH]; intros acc Hacc; cbn [foldl]; [done|].
  apply IH. destruct (dict_get n acc); by apply dict_keys_NoDup_set.
Qed.

(** X12: when [parse_qs] returns a dictionary (each name once), the
    query parameters of every endpoint of a parsed service have
    pairwise distinct names, also after merges. *)
Theorem X12_query_param_names_distinct `{PyLib} (entries : list Entry) (ep : APIEndpoint) :
  (forall qs, NoDup (map fst (parse_qs qs))) ->
  ep ∈ endpoints (parse entries) ->
  NoDup (map name (query_params ep)).
Proof.
  intros Hqs. revert ep.
  assert (forall url, NoDup (map name (_extract_query_params url))) as Hnew.
  { intros url. unfold _extract_query_params. rewrite query_param_names.
    apply NoDup_filter_stdpp, Hqs. }
  apply endpoints_ind.
  - intros e _. apply Hnew.
  - intros ex e _ Hex.
    destruct (merge_query_params_fields ex (query_params (entry_endpoint e))) as [-> _].
    rewrite map_app. apply NoDup_app. split; [done|]. split.
    + intros n Hn Hn'. apply list_elem_of_fmap in Hn' as (p & -> & Hp).
      apply list_elem_of_filter in Hp as [Hp _]. done.
    + apply NoDup_fmap_filter, Hnew.
Qed.

(** Two calls whose query strings share [page]. *)
Lemma X12_witness_page_and_api :
  let lib := Examples.lib [] in
  NoDup (map name (query_params
    (merge_query_params
       (entry_endpoint (Examples.get "https://backend.example.com/api/items?page=1"))
       (_extract_query_params "https://backend.example.com/api/items?page=2&sort=asc")))).
Proof.
  intros lib.
  apply (@X12_query_param_names_distinct lib MoreExamples.page_and_api).
  - intros qs. apply reference_parse_qs_keys.
  - vm_compute. left.
Defined.

(** ** Service identity *)

Section IdentityFacts.
Context `{PyLib}.

Lemma service_hosts_snoc (entries : list Entry) (e : Entry) :
  service_hosts (entries ++ [e]) =
  if negb (String.eqb (entry_url e) "") && negb (_is_static_resource (entry_url e))
  then if negb (String.eqb (u_netloc (urlparse (entry_url e))) "")
       then set_add (u_netloc (urlparse (entry_url e))) (service_hosts entries)
       else service_hosts entries
  else service_hosts entries.
Proof. unfold service_hosts. by rewrite foldl_app. Qed.

Lemma service_hosts_spec (entries : list Entry) :
  NoDup (service_hosts entries) /\
  forall h, h ∈ service_hosts entries <->
            exists e, e ∈ entries /\ entry_url e <> "" /\
                      _is_static_resource (entry_url e) = false /\
                      u_netloc (urlparse (entry_url e)) = h /\ h <> "".
Proof.
  induction entries as [|e entries [IHn IHe]] using rev_ind.
  - split; [apply NoDup_nil_2|]. intros h. split.
    + intros Hh. by apply not_elem_of_nil in Hh.
    + intros (e & He & _). by apply not_elem_of_nil in He.
  - rewrite service_hosts_snoc.
    assert (forall h,
      (exists e', e' ∈ entries ++ [e] /\ entry_url e' <> "" /\
                  _is_static_resource (entry_url e') = false /\
                  u_netloc (urlparse (entry_url e')) = h /\ h <> "") <->
      (h ∈ service_hosts entries \/
       (entry_url e <> "" /\ _is_static_resource (entry_url e) = false /\
        u_netloc (urlparse (entry_url e)) = h /\ h <> ""))) as Hsplit.
    { intros h. rewrite IHe. split.
      - intros (e' & He' & Hrest). apply elem_of_app in He' as [He'|He'].
        + left. by exists e'.
        + apply list_elem_of_singleton in He'. subst e'. by right.
      - intros [(e' & He' & Hrest)|Hrest].
        + exists e'. split; [|done]. apply elem_of_app. by left.
        + exists e. split; [|done]. apply elem_of_app. right. left. }
    destruct (String.eqb (entry_url e) "") eqn:Eu; cbn [negb andb].
    { apply String.eqb_eq in Eu. split; [done|]. intros h. rewrite Hsplit.
      split; [by left | by intros [?|[? _]]]. }
    apply String.eqb_neq in Eu.
    destruct (_is_static_resource (entry_url e)) eqn:Es; cbn [negb].
    { split; [done|]. intros h. rewrite Hsplit.
      split; [by left | by intros [?|(_ & ? & _)]]. }
    destruct (String.eqb (u_netloc (urlparse (entry_url e))) "") eqn:En; cbn [negb].
    { apply String.eqb_eq in En. split; [done|]. intros h. rewrite Hsplit.
      split; [by left|]. intros [?|(_ & _ & Hh & Hne)]; [done|]. congruence. }
    apply String.eqb_neq in En.
    split; [by apply set_add_NoDup|].
    intros h. rewrite set_add_elem, Hsplit. split.
    + intros [->|?]; [by right | by left].
    + intros [?|(_ & _ & Hh & _)]; [by right | by left].
Qed.
End IdentityFacts.

(** X13: under any order of set iteration that enumerates each
    element once, the base URL of a parsed service with a relevant
    record is the base URL (scheme and host) of one of its relevant
    records. *)
Theorem X13_base_url_of_a_relevant_record `{PyLib} (entries : list Entry) :
  set_iter_lawful ->
  (exists e, e ∈ entries /\ is_relevant e = true) ->
  exists e, e ∈ entries /\ is_relevant e = true /\
            service_base_url (parse entries) = entry_base_url e.
Proof.
  intros Hlaw (e0 & He0 & Hr0).
  destruct (base_urls_spec entries) as [Hnd Hin].
  assert (base_urls (parse_loop entries) <> []) as Hne.
  { intros Hnil. assert (entry_base_url e0 ∈ base_urls (parse_loop entries)) as Hx
      by (apply Hin; by exists e0).
    rewrite Hnil in Hx. by apply not_elem_of_nil in Hx. }
  destruct (lawful_head set_iter _ Hlaw Hnd Hne) as (x & Hhead & Hx).
  apply Hin in Hx as (e & He & Hr & Hb). exists e.
  split; [done|]. split; [done|].
  cbn [parse service_base_url]. rewrite Hhead.
  by destruct (base_urls (parse_loop entries)).
Qed.

(** The trace with a page, an asset and two API calls. *)
Lemma X13_witness_page_and_api :
  let lib := Examples.lib [] in
  exists e, e ∈ MoreExamples.page_and_api /\ is_relevant e = true /\
            service_base_url (parse MoreExamples.page_and_api) = entry_base_url e.
Proof.
  intros lib.
  apply (@X13_base_url_of_a_relevant_record lib MoreExamples.page_and_api).
  - apply insertion_order_lawful.
  - exists (Examples.get "https://backend.example.com/api/items?page=1").
    split; [right; right; left | reflexivity].
Defined.

(** X14: the service name is [unknown] when no non-static record names
    a host.  Otherwise, under any order of set iteration that
    enumerates each element once, it is derived from the host of a
    non-static record, relevant or not, and from a host containing
    [api] (in any letter case) when there is one. *)
Theorem X14_service_name_source `{PyLib} (entries : list Entry) :
  set_iter_lawful ->
  (forall h, h ∈ service_hosts entries <->
     exists e, e ∈ entries /\ entry_url e <> "" /\
               _is_static_resource (entry_url e) = false /\
               u_netloc (urlparse (entry_url e)) = h /\ h <> "") /\
  (service_hosts entries = [] -> _extract_service_name entries = "unknown") /\
  (service_hosts entries <> [] ->
   exists h, h ∈ service_hosts entries /\
             _extract_service_name entries = _host_to_name h /\
             ((exists h', h' ∈ service_hosts entries /\ contains "api" (lower h') = true) ->
              contains "api" (lower h) = true)).
Proof.
  intros Hlaw. destruct (service_hosts_spec entries) as [Hnd Hin].
  split; [exact Hin|]. split.
  - intros Hnil. unfold _extract_service_name. by rewrite Hnil.
  - intros Hne. unfold _extract_service_name.
    pose proof (Hlaw _ Hnd) as Hperm.
    destruct (service_hosts entries) as [|h0 hosts] eqn:Eh; [done|].
    destruct (find (fun host => contains "api" (lower host)) (set_iter (h0 :: hosts)))
      as [h|] eqn:Hf.
    + apply find_some in Hf as [Hh Hapi]. exists h.
      split; [by rewrite <- Hperm; apply list_elem_of_In|]. done.
    + destruct (lawful_head set_iter (h0 :: hosts) Hlaw Hnd Hne) as (x & Hhead & Hx).
      exists x. split; [done|]. rewrite Hhead. split; [done|].
      intros (h' & Hh' & Hapi). rewrite <- Hperm in Hh'. apply list_elem_of_In in Hh'.
      pose proof (find_none _ _ Hf h' Hh') as Hno. cbn in Hno. congruence.
Qed.

(** The name of the page-and-API trace comes from one of its two hosts. *)
Lemma X14_witness_page_and_api :
  let lib := Examples.lib [] in
  exists h, h ∈ service_hosts MoreExamples.page_and_api /\
            _extract_service_name MoreExamples.page_and_api = _host_to_name h /\
            ((exists h', h' ∈ service_hosts MoreExamples.page_and_api /\
                         contains "api" (lower h') = true) ->
             contains "api" (lower h) = true).
Proof.
  intros lib.
  apply (proj2 (proj2 (@X14_service_name_source lib MoreExamples.page_and_api
                         (insertion_order_lawful [])))).
  vm_compute. discriminate.
Defined.

(** ** Truncating twice *)

Lemma truncate_value_list_idem (max_depth : Z) (l : list json) :
  truncate_value max_depth (truncate_value max_depth (JList l)) =
  truncate_value max_depth (JList l).
Proof.
  unfold truncate_value. destruct (2 <? length l)%nat eqn:E.
  - rewrite length_take. apply Nat.ltb_lt in E.
    replace (2 `min` length l)%nat with 2%nat by lia. done.
  - by rewrite E.
Qed.

Lemma truncate_response_dict_idem (n : nat) :
  forall (max_depth : Z) (items : list (string * json)),
    (max_depth <= Z.of_nat n)%Z ->
    _truncate_response (_truncate_response (JDict items) max_depth) max_depth =
    _truncate_response (JDict items) max_depth.
Proof.
  induction n as [|n IH]; intros max_depth items Hd.
  - rewrite (truncate_response_le_0 (JDict items)) by lia.
    apply truncate_response_le_0. lia.
  - destruct (Z.le_gt_cases max_depth 0) as [H0|H0].
    { rewrite (truncate_response_le_0 (JDict items)) by lia.
      by apply truncate_response_le_0. }
    rewrite (truncate_response_dict items) by lia.
    rewrite truncate_response_dict by lia. f_equal.
    rewrite take_ge by (rewrite length_map, length_take; lia).
    rewrite map_map. apply map_ext. intros [k v]. cbn [fst snd]. f_equal.
    destruct v as [| | | | |l|its]; try done.
    + apply truncate_value_list_idem.
    + change (truncate_value max_depth (JDict its))
        with (_truncate_response (JDict its) (max_depth - 1)).
      destruct (truncate_response_is_dict its (max_depth - 1)) as [its' E].
      rewrite E.
      change (truncate_value max_depth (JDict its'))
        with (_truncate_response (JDict its') (max_depth - 1)).
      rewrite <- E. apply IH. lia.
Qed.

(** X15: the truncation of a mapping is a mapping again, and
    truncating it a second time with the same depth changes nothing:
    the marker, the first ten keys and the first two elements are kept
    as they are. *)
Theorem X15_truncate_response_idempotent (items : list (string * json)) (max_depth : Z) :
  exists items',
    _truncate_response (JDict items) max_depth = JDict items' /\
    _truncate_response (JDict items') max_depth = JDict items'.
Proof.
  destruct (truncate_response_is_dict items max_depth) as [items' E].
  exists items'. split; [done|]. rewrite <- E.
  apply (truncate_response_dict_idem (Z.to_nat max_depth)). lia.
Qed.

(** ** Path parameters *)

Lemma contains_brace_false (s : string) :
  str_all (fun c => negb (Ascii.eqb "{" c)) s = true -> contains "{" s = false.
Proof.
  induction s as [|c s IH]; [done|].
  intros Hs. cbn [str_all] in Hs. apply andb_true_iff in Hs as [Hc Hs].
  change (contains "{" (String c s))
    with (startswith (String c s) "{" || contains "{" s).
  rewrite startswith_char_cons, (IH Hs).
  by apply negb_true_iff in Hc as ->.
Qed.

Lemma span_digits (s : string) : str_all is_digit (fst (span is_digit s)) = true.
Proof.
  induction s as [|c s IH]; [done|]. simpl.
  destruct (is_digit c) eqn:Ec; [|done].
  destruct (span is_digit s) as [a b]. simpl in *. by rewrite Ec.
Qed.

Lemma match_numeric_digits (s ds : string) :
  match_numeric s = Some ds -> str_all is_digit ds = true.
Proof.
  unfold match_numeric. destruct s as [|c rest]; [done|].
  pose proof (span_digits rest) as Hd.
  destruct (span is_digit rest) as [a b]. simpl in Hd.
  destruct (Ascii.eqb c "/") eqn:Ec.
  - apply Ascii.eqb_eq in Ec. subst c.
    destruct (_ && _); [|done]. by intros [= <-].
  - destruct c as [[] [] [] [] [] [] [] []]; try done.
Qed.

Lemma finditer_numeric_no_brace (s : string) :
  Forall (fun m => contains "{" (group0 m) = false) (finditer_numeric s).
Proof.
  unfold finditer_numeric. generalize 0%nat at 1 as pos. generalize 0%nat as skip.
  induction s as [|c s IH]; intros skip pos; [constructor|].
  cbn [finditer_numeric_go]. destruct skip as [|k]; [|apply IH].
  destruct (match_numeric (String c s)) as [ds|] eqn:Em; [|apply IH].
  constructor; [|apply IH]. cbn [group0].
  apply contains_brace_false.
  change ("/" +:+ ds) with (String "/" ds). cbn [str_all].
  apply andb_true_iff. split; [done|].
  apply match_numeric_digits in Em.
  revert Em. apply str_all_impl. by_ascii_cases.
Qed.

Lemma uuid_fold_params (ms : list Match) :
  forall (k : nat) (acc : string * list RequestParam),
    snd (foldl uuid_step acc (zip (seq k (length ms)) ms)) =
    snd acc ++
    map (fun im => {| name := uuid_name (fst im); param_type := "path";
                      example_value := JStr (group1 (snd im)); required := true;
                      description := "UUID identifier" |})
        (zip (seq k (length ms)) ms).
Proof.
  induction ms as [|m ms IH]; intros k [p ps]; cbn.
  - by rewrite app_nil_r.
  - rewrite IH. cbn. by rewrite <- app_assoc.
Qed.

Lemma numeric_fold_params (ms : list Match) :
  Forall (fun m => contains "{" (group0 m) = false) ms ->
  forall (k : nat) (acc : string * list RequestParam),
    snd (foldl numeric_step acc (zip (seq k (length ms)) ms)) =
    snd acc ++
    map (fun im => {| name := numeric_name (fst im); param_type := "path";
                      example_value := JStr (group1 (snd im)); required := true;
                      description := "Numeric identifier" |})
        (zip (seq k (length ms)) ms).
Proof.
  induction 1 as [|m ms Hm Hms IH]; intros k [p ps]; cbn.
  - by rewrite app_nil_r.
  - rewrite Hm. cbn. rewrite IH. cbn. by rewrite <- app_assoc.
Qed.

(** X16: the path parameters are one per UUID match, in order, followed
    by one per numeric match of the path the UUID loop leaves: the test
    for a brace in a numeric match never fails.  Each carries the
    matched text as its example and is a required [path] parameter.
    The first of either kind is named [id], so a path with a UUID and a
    numeric segment gets two parameters of that name. *)
Theorem X16_path_params_per_match (path : string) :
  let uuids := finditer_uuid path in
  let numerics :=
    finditer_numeric (fst (foldl uuid_step (path, []) (enumerate uuids))) in
  let params := snd (_extract_path_params path) in
  map name params =
    map uuid_name (seq 0 (length uuids)) ++ map numeric_name (seq 0 (length numerics)) /\
  map example_value params = map (fun m => JStr (group1 m)) (uuids ++ numerics) /\
  Forall (fun p => param_type p = "path" /\ required p = true) params /\
  (uuids <> [] -> numerics <> [] -> ~ NoDup (map name params)).
Proof.
  intros uuids numerics params.
  assert (params =
    map (fun im => {| name := uuid_name (fst im); param_type := "path";
                      example_value := JStr (group1 (snd im)); required := true;
                      description := "UUID identifier" |})
        (zip (seq 0 (length uuids)) uuids) ++
    map (fun im => {| name := numeric_name (fst im); param_type := "path";
                      example_value := JStr (group1 (snd im)); required := true;
                      description := "Numeric identifier" |})
        (zip (seq 0 (length numerics)) numerics)) as Hparams.
  { subst params. unfold _extract_path_params. cbv zeta. unfold enumerate.
    fold uuids. fold numerics.
    rewrite numeric_fold_params by apply finditer_numeric_no_brace.
    by rewrite uuid_fold_params. }
  assert (map name params =
    map uuid_name (seq 0 (length uuids)) ++ map numeric_name (seq 0 (length numerics)))
    as Hnames.
  { rewrite Hparams, map_app, !map_map. cbn [name].
    rewrite <- !(map_map fst).
    change (map fst ?l) with (l.*1).
    by rewrite !fst_zip by (rewrite length_seq; lia). }
  split; [exact Hnames|]. split; [|split].
  - rewrite Hparams, map_app, !map_map. cbn [example_value].
    rewrite <- !(map_map snd (fun m => JStr (group1 m))).
    change (map snd ?l) with (l.*2).
    rewrite !snd_zip by (rewrite length_seq; lia). by rewrite map_app.
  - rewrite Hparams. apply Forall_app. split; apply Forall_forall;
      intros p Hp; apply list_elem_of_fmap in Hp as (im & -> & _); done.
  - intros Hu Hn Hnd. rewrite Hnames in Hnd.
    apply NoDup_app in Hnd as (_ & Hdisj & _).
    apply (Hdisj "id").
    + destruct uuids; [done|]. left.
    + destruct numerics; [done|]. left.
Qed.

(** A UUID followed by a number: two parameters named [id]. *)
Lemma X16_witness_uuid_and_number :
  let path := "/users/123e4567-e89b-12d3-a456-426614174000/posts/42" in
  Re.finditer_uuid path <> [] /\
  map name (snd (_extract_path_params path)) = ["id"; "id"] /\
  ~ NoDup (map name (snd (_extract_path_params path))).
Proof.
  intros path.
  split; [by vm_compute|]. split; [by vm_compute|].
  apply (X16_path_params_per_match path); by vm_compute.
Defined.

(** ** The name override of the command *)

Lemma prefix_take_drop (p s : string) :
  String.prefix p s = true -> p +:+ str_drop (String.length p) s = s.
Proof.
  revert s. induction p as [|c p IH]; intros s; [by destruct s|].
  destruct s as [|d s]; [done|]. intros Hp. simpl in Hp.
  destruct (ascii_dec c d) as [->|]; [|done].
  change (String d p +:+ str_drop (String.length p) s = String d s).
  change (String d p +:+ ?x) with (String d (p +:+ x)).
  f_equal. by apply IH.
Qed.

(** X17: a non-empty [--name] becomes the server name, with the
    [iblai-] prefix added only when the given name lacks it; an absent
    or empty [--name] keeps the detected service.  The override changes
    nothing but the name. *)
Theorem X17_name_override (args : Args) (service_info : ServiceInfo) :
  let overridden := override_name args service_info in
  (forall n, arg_name args = Some n -> n <> "" ->
     server_name overridden = if startswith n "iblai-" then n else "iblai-" +:+ n) /\
  (arg_name args = None \/ arg_name args = Some "" -> overridden = service_info) /\
  service_base_url overridden = service_base_url service_info /\
  service_description overridden = service_description service_info /\
  auth_patterns overridden = auth_patterns service_info /\
  endpoints overridden = endpoints service_info.
Proof.
  unfold override_name. split; [|split].
  - intros n -> Hn. apply String.eqb_neq in Hn. rewrite Hn.
    unfold server_name. cbn [set_service_name service_name].
    destruct (startswith n "iblai-") eqn:Ep; [|done].
    apply (prefix_take_drop "iblai-" n Ep).
  - by intros [->| ->].
  - destruct (arg_name args) as [n|]; [|done].
    by destruct (String.eqb n "").
Qed.

(** The two spellings of a name give the same server name. *)
Lemma X17_witness_prefixed_and_bare :
  let service := @parse (Examples.lib []) MoreExamples.page_and_api in
  server_name (override_name {| har_file := "t.har"; arg_name := Some "iblai-shop";
                                arg_output := None |} service) = "iblai-shop" /\
  server_name (override_name {| har_file := "t.har"; arg_name := Some "shop";
                                arg_output := None |} service) = "iblai-shop".
Proof.
  intros service. split.
  - apply (proj1 (X17_name_override
             {| har_file := "t.har"; arg_name := Some "iblai-shop"; arg_output := None |}
             service) "iblai-shop"); [reflexivity | discriminate].
  - apply (proj1 (X17_name_override
             {| har_file := "t.har"; arg_name := Some "shop"; arg_output := None |}
             service) "shop"); [reflexivity | discriminate].
Defined.

(** ** The layout of the generated package *)

Section RunFacts.





End RunFacts.







Section LayoutFacts.
Context `{PyLib} `{GenLib} `{OsLib}.

End LayoutFacts.


(** ** The parameters of a parsed endpoint, in the generated schema *)

Lemma filter_all {A} (P : A -> Prop) `{forall x, Decision (P x)} (l : list A) :
  Forall P l -> filter P l = l.
Proof.
  induction 1 as [|x l Hx Hl IH]; [done|]. rewrite filter_cons_True by done.
  by rewrite IH.
Qed.

Lemma extract_path_params_shape (path : string) :
  Forall (fun p => param_type p = "path" /\ required p = true /\
                   (exists s, example_value p = JStr s) /\ description p <> "")
         (snd (_extract_path_params path)).
Proof.
  unfold _extract_path_params.
  apply foldl_snd_Forall.
  - intros [np ps] [i m] Hps. unfold numeric_step.
    destruct (negb _); [|done]. simpl in *.
    apply Forall_app. split; [done|].
    constructor; [|constructor]. cbn. repeat split; [by eexists | done].
  - apply foldl_snd_Forall; [|constructor].
    intros [np ps] [i m] Hps. simpl in *.
    apply Forall_app. split; [done|].
    constructor; [|constructor]. cbn. repeat split; [by eexists | done].
Qed.

Lemma extract_query_params_shape `{PyLib} (url : string) :
  Forall (fun p => param_type p = "query" /\ required p = false /\
                   (example_value p = JNull \/ exists s, example_value p = JStr s) /\
                   description p <> "")
         (_extract_query_params url).
Proof.
  unfold _extract_query_params. apply Forall_forall. intros p Hp.
  apply list_elem_of_omap in Hp as ([n vs] & _ & Hq).
  unfold query_param in Hq. destruct (framework_param n); [done|].
  injection Hq as <-. cbn. repeat split.
  - destruct vs; [by left | right; by eexists].
  - discriminate.
Qed.

(** X19: in every endpoint of a parsed trace the path parameters are
    required and the query parameters are not, and every example is
    text or absent.  So the generated parameter schema is an object
    with one property for each distinct parameter name, typed [string]
    (a numeric id included) and described as the last parameter of
    that name is; its [required] list is the names of the path
    parameters, in order and as often as they occur, and is absent when
    there is none.  Without parameters the schema is empty. *)
Theorem X19_parsed_params_in_schema `{PyLib} (entries : list Entry) (ep : APIEndpoint) :
  ep ∈ endpoints (parse entries) ->
  let params := path_params ep ++ query_params ep in
  let schema := _generate_param_schema params in
  Forall (fun p => param_type p = "path" /\ required p = true) (path_params ep) /\
  Forall (fun p => param_type p = "query" /\ required p = false) (query_params ep) /\
  (params = [] -> schema = JDict []) /\
  (params <> [] ->
   json_get "type" schema = Some (JStr "object") /\
   exists props,
     json_get "properties" schema = Some (JDict props) /\
     NoDup (dict_keys props) /\
     forall n,
       dict_get n props =
       (fun p => JDict [("type", JStr "string"); ("description", JStr (description p))])
         <$> last (filter (fun p => name p = n) params)) /\
  json_get "required" schema =
    match path_params ep with
    | [] => None
    | pp => Some (JList (map JStr (map name pp)))
    end.
Proof.
  intros Hep params schema.
  assert (Forall (fun p => param_type p = "path" /\ required p = true /\
                           (exists s, example_value p = JStr s) /\ description p <> "")
                 (path_params ep) /\
          Forall (fun p => param_type p = "query" /\ required p = false /\
                           (example_value p = JNull \/ exists s, example_value p = JStr s) /\
                           description p <> "")
                 (query_params ep)) as [Hp Hq].
  { revert ep Hep params schema. apply endpoints_ind.
    - intros e _. split; [apply extract_path_params_shape | apply extract_query_params_shape].
    - intros ex e _ [Hp Hq]. rewrite merge_query_params_spec. simpl. split; [done|].
      apply Forall_app. split; [done|].
      apply Forall_forall. intros p Hin. apply list_elem_of_filter in Hin as [_ Hin].
      revert p Hin. apply Forall_forall, extract_query_params_shape. }
  assert (forall p, p ∈ params ->
            param_prop p =
            JDict [("type", JStr "string"); ("description", JStr (description p))])
    as Hprop.
  { intros p Hin. unfold param_prop.
    assert (param_json_type (example_value p) = "string" /\ description p <> "")
      as [-> Hd].
    { apply elem_of_app in Hin as [Hin|Hin].
      - apply (proj1 (Forall_forall _ _) Hp) in Hin as (_ & _ & [s ->] & Hd). done.
      - apply (proj1 (Forall_forall _ _) Hq) in Hin as (_ & _ & [-> | [s ->]] & Hd); done. }
    apply String.eqb_neq in Hd. by rewrite Hd. }
  assert (filter (fun p => required p = true) params = path_params ep) as Hreq.
  { subst params. rewrite filter_app, filter_all, filter_none, app_nil_r; [done| |].
    - eapply Forall_impl; [exact Hq|]. intros p (_ & -> & _). done.
    - eapply Forall_impl; [exact Hp|]. by intros p (_ & ? & _). }
  split; [|split; [|split; [|split]]].
  - eapply Forall_impl; [exact Hp|]. by intros p (? & ? & _).
  - eapply Forall_impl; [exact Hq|]. by intros p (? & ? & _).
  - intros E. subst schema. by rewrite E.
  - intros Hne. subst schema.
    assert (forall l : list RequestParam, l <> [] ->
              _generate_param_schema l =
              let schema := JDict [("type", JStr "object");
                                   ("properties",
                                    JDict (loop_dict (fun _ => true) name param_prop l))] in
              match map name (filter (fun p => required p = true) l) with
              | [] => schema
              | required_names => json_set "required" (JList (map JStr required_names)) schema
              end) as Hunfold.
    { intros [|x l] Hl; [done|]. unfold _generate_param_schema, loop_dict.
      by destruct (map name _). }
    rewrite (Hunfold params Hne). cbv zeta.
    assert (NoDup (dict_keys (loop_dict (fun _ => true) name param_prop params)) /\
            forall n,
              dict_get n (loop_dict (fun _ => true) name param_prop params) =
              (fun p => JDict [("type", JStr "string");
                               ("description", JStr (description p))])
                <$> last (filter (fun p => name p = n) params)) as Hprops.
    { split; [apply loop_dict_NoDup|].
      intros n. rewrite loop_dict_lookup.
      replace (filter (fun p => (fun _ : RequestParam => true) p = true /\ name p = n) params)
        with (filter (fun p => name p = n) params)
        by (apply list_filter_iff; intros p; split; [done | by intros [_ ?]]).
      destruct (last (filter (fun p => name p = n) params)) as [p|] eqn:El; [|done].
      cbn [fmap option_fmap option_map]. f_equal. apply Hprop.
      apply last_Some in El as [l' El].
      assert (p ∈ filter (fun p => name p = n) params) as Hin.
      { rewrite El. apply elem_of_app. right. left. }
      by apply list_elem_of_filter in Hin as [_ Hin]. }
    destruct (map name (filter (fun p => required p = true) params)) as [|r rs];
      (split; [done|]; by eexists).
  - subst schema. unfold _generate_param_schema. rewrite Hreq.
    destruct (path_params ep) as [|p pp] eqn:Epp.
    + subst params. cbn [app]. by destruct (query_params ep).
    + subst params. reflexivity.
Qed.

(** A UUID and a number in one path, and a query parameter: two path
    parameters named [id], one property [id] described as the later
    of the two, and [id] twice in the required list. *)
Lemma X19_witness_two_ids :
  let lib := Examples.lib [] in
  let entries :=
    [Examples.get
       "https://backend.example.com/api/users/123e4567-e89b-12d3-a456-426614174000/posts/42?page=1"] in
  exists ep, endpoints (parse entries) = [ep] /\
    json_get "required" (_generate_param_schema (path_params ep ++ query_params ep)) =
      Some (JList [JStr "id"; JStr "id"]) /\
    json_get "properties" (_generate_param_schema (path_params ep ++ query_params ep)) =
      Some (JDict [("id", JDict [("type", JStr "string");
                                 ("description", JStr "Numeric identifier")]);
                   ("page", JDict [("type", JStr "string");
                                   ("description", JStr "Query parameter: page")])]).
Proof.
  intros lib entries.
  pose (ep := entry_endpoint
                (Examples.get
                   "https://backend.example.com/api/users/123e4567-e89b-12d3-a456-426614174000/posts/42?page=1")).
  assert (ep ∈ endpoints (parse entries)) as Hep by (vm_compute; left).
  exists ep. split; [by vm_compute|]. split; [|by vm_compute].
  etransitivity;
    [exact (proj2 (proj2 (proj2 (proj2 (X19_parsed_params_in_schema entries ep Hep)))))|].
  by vm_compute.
Defined.

(** ** The request body in the input schema *)





(** ** The order of the endpoints *)

(** X21: the endpoints of a parsed trace are listed in the order in
    which their keys are first seen among the relevant records, one
    endpoint for each distinct key: a later record under a stored key
    moves nothing. *)
Theorem X21_endpoints_in_order_of_first_observation `{PyLib} (entries : list Entry) :
  map endpoint_key (endpoints (parse entries)) =
  foldl (fun keys e => set_add (entry_key e) keys) []
        (filter (fun e => is_relevant e = true) entries).
Proof.
  rewrite <- endpoints_map_keys.
  induction entries as [|e entries IH] using rev_ind; [done|].
  rewrite parse_loop_snoc, filter_app, foldl_app, <- IH.
  destruct (is_relevant e) eqn:Hr.
  - rewrite parse_step_relevant by done. cbn [endpoints_map].
    rewrite filter_cons_True by done. cbn [filter list_filter foldl].
    unfold set_add.
    destruct (dict_get (entry_key e) (endpoints_map (parse_loop entries))) as [ex|] eqn:Hg;
      rewrite dict_keys_set, Hg.
    + assert (str_in (entry_key e) (dict_keys (endpoints_map (parse_loop entries))) = true)
        as ->; [|done].
      apply str_in_true. apply dict_get_Some_elem in Hg.
      apply list_elem_of_fmap. by exists (entry_key e, ex).
    + apply dict_get_None in Hg.
      destruct (str_in _ _) eqn:E; [|done].
      by apply str_in_true in E.
  - rewrite parse_step_skip by done.
    rewrite filter_cons_False by (by rewrite Hr). done.
Qed.

(** ** Handler names *)

Lemma ident_char_word (c : ascii) : ident_char c = true -> is_word c = true.
Proof. revert c. by_ascii_cases. Qed.

Lemma ident_char_lower (c : ascii) : ident_char c = true -> lower_char c = c.
Proof. revert c. by_ascii_cases. Qed.

Lemma lower_ident (s : string) : str_all ident_char s = true -> lower s = s.
Proof.
  induction s as [|c s IH]; [done|]. cbn [str_all lower]. intros Hs.
  apply andb_true_iff in Hs as [Hc Hs]. by rewrite (ident_char_lower c Hc), IH.
Qed.

Lemma sub_nonword_ident (s : string) :
  str_all ident_char s = true ->
  string_of_list_ascii
    (map (fun c => if is_word c then c else "_"%char) (list_ascii_of_string s)) = s.
Proof.
  induction s as [|c s IH]; [done|]. cbn [str_all]. intros Hs.
  apply andb_true_iff in Hs as [Hc Hs].
  cbn [list_ascii_of_string map string_of_list_ascii].
  by rewrite (ident_char_word c Hc), IH.
Qed.

Lemma python_safe_name_ident (s : string) :
  str_all ident_char s = true ->
  (forall c r, s = String c r -> is_digit c = false) ->
  _python_safe_name s = s.
Proof.
  intros Hs Hd. unfold _python_safe_name. rewrite (sub_nonword_ident s Hs).
  destruct s as [|c r]; [done|]. rewrite (Hd c r eq_refl). by apply lower_ident.
Qed.

Lemma tool_name_path_ident (p : string) :
  str_all ident_char
    (lower (strip "_" (sub_runs (fun c => negb (is_alnum c)) "_" (sub_braces (strip "/" p)))))
  = true.
Proof.
  apply (str_all_lower (fun c => is_alnum c || Ascii.eqb c "_")); [apply lower_char_ident|].
  apply str_all_strip. unfold sub_runs. apply str_all_sub_runs; [|done].
  intros c Hc. apply negb_false_iff in Hc. by rewrite Hc.
Qed.

(** X22: for the five methods with a verb of their own, the name of
    the generated handler function is the tool name itself: making the
    tool name safe for Python changes nothing, so the handlers and the
    listed tools carry the same names. *)
Theorem X22_handler_name_is_tool_name (e : APIEndpoint) :
  upper (method e) ∈ ["GET"; "POST"; "PUT"; "PATCH"; "DELETE"] ->
  _python_safe_name (tool_name e) = tool_name e.
Proof.
  intros Hm.
  assert (exists c v, default (lower (method e)) (dict_get (upper (method e)) method_prefix)
                      = String c v /\
                      is_digit c = false /\ str_all ident_char (String c v) = true)
    as (c & v & Hverb & Hc & Hv).
  { repeat (apply elem_of_cons in Hm as [-> | Hm]); [by eexists _, _..|].
    by apply not_elem_of_nil in Hm. }
  unfold tool_name. rewrite Hverb.
  pose proof (tool_name_path_ident (path e)) as Hp.
  destruct (negb (String.eqb _ "")).
  - set (word := lower _) in *.
    apply python_safe_name_ident.
    + rewrite !str_all_app, Hv, Hp. done.
    + change (String c v +:+ "_" +:+ word) with (String c (v +:+ "_" +:+ word)).
      by intros c' r' [= <- _].
  - apply python_safe_name_ident; [done|]. by intros c' r' [= <- _].
Qed.

(** The tool of a GET on a numbered item. *)
Lemma X22_witness_get_item :
  let e := @entry_endpoint (Examples.lib [])
             (Examples.get "https://backend.example.com/api/items/12?page=1") in
  tool_name e = "get_api_items_id" /\ _python_safe_name (tool_name e) = tool_name e.
Proof.
  intros e. split; [by vm_compute|].
  apply (X22_handler_name_is_tool_name e). vm_compute. left.
Defined.
